(** * FOWD: processing of a CDIP station ([fowd/cdip.py])

    A shallow embedding of [process_cdip_station] and of the helpers nested
    in it ([handle_result], [generate_results]), together with
    [get_cdip_wave_records], and the properties of the batch orchestration
    and of the merge of the per-file results.

    Python integers are unbounded and are modelled by [Z] (lengths by
    [nat]); a record chunk is a Python [dict] from field names to arrays and
    is modelled by a [gmap]; the lists [station_files] and [result_files]
    are lists indexed with stdpp's lookup and insert; exceptions, logging,
    the progress bar, the process pool and the call of the dataset writer
    are effects, recorded in a trace by a small state and error monad. *)

From Stdlib Require Import ZArith Lia.
From stdpp Require Import base numbers option list gmap strings fin_maps.

Open Scope Z_scope.

(** ** Data *)

(** The exceptions that the orchestration raises itself, and [OtherError]
    for whatever a collaborator (parsing, wave computation) raises. All of
    them are instances of Python's [Exception], which is what the handler
    of the pool catches ([except Exception]); a [BaseException] that is not
    an [Exception] ([KeyboardInterrupt], [SystemExit]) is not modelled. *)
Inductive exn : Type :=
| AssertionError
| RuntimeError (msg : string)
| KeyError (key : string)
| IndexError
| InvalidCDIPFile
| OtherError (what : string).

#[global] Instance exn_eq_dec : EqDecision exn.
Proof. solve_decision. Defined.

(** A record chunk: [dict] from field name to array. *)
Abbreviation record_chunk := (gmap string (list Z)).

(** The decoded state file; only its entry ['num_flags_fired'] is read, a
    [dict] whose [items()] come in insertion order. *)
Record state_summary : Type := { num_flags_fired : list (string * Z) }.

(** Truth value of a [dict]: false exactly for the empty one. *)
Definition chunk_truthy (record_chunk : record_chunk) : bool :=
  bool_decide (record_chunk ≠ ∅).

(** Truth value of an entry of [result_files], as [any] sees it: [None]
    and the empty string are false. *)
Definition file_truthy (result_file : option string) : bool :=
  match result_file with
  | None => false
  | Some path => bool_decide (path ≠ "")
  end.

(** ** The generator [generate_results] *)

(** What a complete consumption of the generator observes: the chunks it
    yields, in order, the last value of [current_wave_id], and the exception
    that ended it early, if any. *)
Record gen_result : Type := {
  yielded : list record_chunk;
  current_wave_id : Z;
  gen_raised : option exn
}.

Definition gen_yield (record_chunk : record_chunk) (rest : gen_result) : gen_result :=
  {| yielded := record_chunk :: yielded rest;
     current_wave_id := current_wave_id rest;
     gen_raised := gen_raised rest |}.

(** Inner loop: [for record_chunk in read_pickle_outfile_chunks(result_file)],
    followed by [continue_with] (the rest of the outer loop) when it ends. *)
Fixpoint generate_chunks (chunks : list record_chunk) (current_wave_id : Z)
    (continue_with : Z → gen_result) : gen_result :=
  match chunks with
  | [] => continue_with current_wave_id
  | record_chunk :: chunks =>
      if negb (chunk_truthy record_chunk) then
        generate_chunks chunks current_wave_id continue_with
      else
        match record_chunk !! "wave_id_local" with
        | None =>
            {| yielded := []; current_wave_id := current_wave_id;
               gen_raised := Some (KeyError "wave_id_local") |}
        | Some wave_id_local =>
            let chunk_size := Z.of_nat (length wave_id_local) in
            let record_chunk :=
              <["wave_id_local" := seqZ current_wave_id chunk_size]> record_chunk in
            gen_yield record_chunk
              (generate_chunks chunks (current_wave_id + chunk_size) continue_with)
        end
  end.

Section Generator.
Variable read_pickle_outfile_chunks : string → list record_chunk.

(** Outer loop: [for result_file in result_files]. *)
Fixpoint generate_files (result_files : list (option string))
    (current_wave_id : Z) : gen_result :=
  match result_files with
  | [] => {| yielded := []; current_wave_id := current_wave_id; gen_raised := None |}
  | None :: result_files => generate_files result_files current_wave_id
  | Some result_file :: result_files =>
      generate_chunks (read_pickle_outfile_chunks result_file) current_wave_id
        (generate_files result_files)
  end.

Definition generate_results (result_files : list (option string)) : gen_result :=
  generate_files result_files 0.
End Generator.

(** ** Effects *)

Inductive level : Type := Warning | Info.

(** The messages handed to the logger, by their format string. *)
Inductive log_record : Type :=
| SkippedFile (filename : string)
| FinishedFile (filename : string) (num_done num_inputs : nat)
| FoundWaves (num_waves : Z)
| FlagsFired
| FlagCount (key : string) (val : Z)
| StartingStation (station_id : string) (num_inputs : nat)
| ProcessingDone
| NoFilesProcessed
| WritingOutput (out_file : string).

(** The effects of a call, in the order of the trace. [StderrNewlines k]
    is the write of ['\n' * (nproc + 2)] to the error stream: a string of
    [k] new lines, empty when [nproc + 2] is not positive. *)
Inductive event : Type :=
| Log (lvl : level) (msg : log_record)
| PbarOpen (total : nat) (position : Z)
| PbarUpdate (n : Z)
| PbarClose
| PoolOpen (max_workers : Z)
| Submit (i : nat) (station_file : string)
| Call (station_file : string)
| ReadChunks (path : string)
| ReadState (path : string)
| Terminate
| PoolShutdown
| StderrNewlines (newlines : nat)
| WriteRecords (out_file station_name : string) (total : Z) (stream : gen_result).

(** The variables of [process_cdip_station] that [handle_result] and
    [generate_results] close over and update. *)
Record locals : Type := {
  result_files : list (option string);
  num_waves_total : Z
}.

(** A computation ends normally or by an exception, leaves the locals as
    they are at that point, and has emitted some events. *)
Record run (A : Type) : Type := Run {
  outcome : exn + A;
  final : locals;
  events : list event
}.
Arguments Run {A} _ _ _.
Arguments outcome {A} _.
Arguments final {A} _.
Arguments events {A} _.

Definition M (A : Type) : Type := locals → run A.

#[global] Instance M_ret : MRet M := λ A a st, Run (inr a) st [].

#[global] Instance M_bind : MBind M := λ A B k m st,
  let r := m st in
  match outcome r with
  | inl e => Run (inl e) (final r) (events r)
  | inr a => let r' := k a (final r) in
             Run (outcome r') (final r') (events r ++ events r')
  end.

Definition raise {A : Type} (e : exn) : M A := λ st, Run (inl e) st [].

Definition emit (ev : event) : M unit := λ st, Run (inr tt) st [ev].

Definition lift {A : Type} (x : exn + A) : M A := λ st, Run x st [].

Definition get_locals : M locals := λ st, Run (inr st) st [].

Definition put_locals (st : locals) : M unit := λ _, Run (inr tt) st [].

(** [try: body / except Exception: handler]. *)
Definition try_except {A : Type} (body : M A) (handler : exn → M A) : M A := λ st,
  let r := body st in
  match outcome r with
  | inl e => let r' := handler e (final r) in
             Run (outcome r') (final r') (events r ++ events r')
  | inr _ => r
  end.

(** [try: body / finally: cleanup], also the exit of a [with] block. *)
Definition try_finally {A : Type} (body : M A) (cleanup : M unit) : M A := λ st,
  let r := body st in
  let r' := cleanup (final r) in
  match outcome r' with
  | inl e => Run (inl e) (final r') (events r ++ events r')
  | inr _ => Run (outcome r) (final r') (events r ++ events r')
  end.

(** [for x in l: body x]. *)
Fixpoint for_each {A : Type} (l : list A) (body : A → M unit) : M unit :=
  match l with
  | [] => mret tt
  | x :: l => body x ;; for_each l body
  end.

Definition enumerate {A : Type} (l : list A) : list (nat * A) :=
  zip (seq 0 (length l)) l.

(** ** The station *)

(** The surroundings of one call: the file system as [os.path] and [glob]
    see it ([sorted_glob pattern] is [sorted(glob.glob(pattern))]), the
    machine, and the collaborators of [fowd.processing]. An exception of
    [get_cdip_data], of the extraction of the quantities from the dataset
    ([extract_quantities]: the arrays, [data.attrs['uuid']] and the other
    metadata that [get_cdip_wave_records] reads between the parsing and the
    computation) or of [compute_wave_records] is a value. *)
Record env : Type := {
  cdip_data : Type;
  normpath : string → string;
  basename : string → string;
  path_join : string → string → string;
  isdir : string → bool;
  sorted_glob : string → list string;
  cpu_count : Z;
  get_cdip_data : string → exn + cdip_data;
  wave_quantities : Type;
  extract_quantities : string → cdip_data → exn + wave_quantities;
  compute_wave_records :
    wave_quantities → string → string → option string → option exn;
  read_pickle_outfile_chunks : string → list record_chunk;
  read_pickle_statefile : string → state_summary
}.

Section Station.
Variable E : env.
(** The order in which the pool completes its futures, as indices into
    [station_files] ([future_to_idx] maps a future to its index). *)
Variable as_completed : list nat.

(** [get_cdip_wave_records]: the result handle pair of one file, or the
    exception that the parsing, the extraction of the quantities or the
    computation raised. Only [InvalidCDIPFile] is caught, and only around
    the parsing. *)
Definition get_cdip_wave_records (filepath out_folder : string)
    (qc_outfile : option string) : exn + (option string * option string) :=
  let filename := basename E filepath in
  let outfile := path_join E out_folder (filename +:+ ".waves.pkl") in
  let statefile := path_join E out_folder (filename +:+ ".state.pkl") in
  match get_cdip_data E filepath with
  | inl InvalidCDIPFile => inr (None, None)
  | inl e => inl e
  | inr data =>
      match extract_quantities E filepath data with
      | inl e => inl e
      | inr quantities =>
          match compute_wave_records E quantities outfile statefile qc_outfile with
          | Some e => inl e
          | None => inr (Some outfile, Some statefile)
          end
      end
  end.

(** The counting loop of [handle_result]. *)
Fixpoint count_waves (chunks : list record_chunk) (num_waves : Z) : exn + Z :=
  match chunks with
  | [] => inr num_waves
  | record_chunk :: chunks =>
      if chunk_truthy record_chunk then
        match record_chunk !! "wave_id_local" with
        | None => inl (KeyError "wave_id_local")
        | Some wave_id_local =>
            count_waves chunks (num_waves + Z.of_nat (length wave_id_local))
        end
      else count_waves chunks num_waves
  end.

(** [l[i]]. *)
Definition index {A : Type} (l : list A) (i : nat) : M A :=
  match l !! i with
  | Some x => mret x
  | None => raise IndexError
  end.

(** [result_files[i] = result_file]. *)
Definition store_result_file (i : nat) (result_file : string) : M unit := λ st,
  if decide (i < length (result_files st))%nat then
    Run (inr tt)
      {| result_files := <[i := Some result_file]> (result_files st);
         num_waves_total := num_waves_total st |} []
  else Run (inl IndexError) st [].

(** [num_waves_total += num_waves]. *)
Definition add_num_waves_total (num_waves : Z) : M unit := λ st,
  Run (inr tt)
    {| result_files := result_files st;
       num_waves_total := num_waves_total st + num_waves |} [].

Definition handle_result (station_files : list string) (i : nat)
    (result : option string * option string) : M unit :=
  emit (PbarUpdate 1) ;;
  let '(result_file, state_file) := result in
  filename ← index station_files i ;
  match result_file, state_file with
  | Some result_file, Some state_file =>
      emit (ReadChunks result_file) ;;
      num_waves ← lift (count_waves (read_pickle_outfile_chunks E result_file) 0) ;
      add_num_waves_total num_waves ;;
      store_result_file i result_file ;;
      emit (ReadState state_file) ;;
      let qc_flags_fired := num_flags_fired (read_pickle_statefile E state_file) in
      st ← get_locals ;
      let num_done := length (filter is_Some (result_files st)) in
      emit (Log Info (FinishedFile filename num_done (length station_files))) ;;
      emit (Log Info (FoundWaves num_waves)) ;;
      emit (Log Info FlagsFired) ;;
      for_each qc_flags_fired (λ '(key, val), emit (Log Info (FlagCount key val)))
  | _, _ =>
      emit (Log Warning (SkippedFile filename))
  end.

(** [write_records(result_generator, ...)] consumes the generator; an
    exception of the generator passes through it. The progress bar of the
    generator was created with [total]. *)
Definition write_records (out_file station_name : string) (total : Z)
    (result_generator : gen_result) : M unit :=
  emit (WriteRecords out_file station_name total result_generator) ;;
  match gen_raised result_generator with
  | Some e => raise e
  | None => mret tt
  end.

Definition effective_nproc (nproc : option Z) (num_inputs : nat) : Z :=
  let nproc := match nproc with None => cpu_count E | Some nproc => nproc end in
  Z.min nproc (Z.of_nat num_inputs).

(** The branch [nproc > 1]: the pool, the submission of every file, the
    completions in the order of [as_completed], and the abort. *)
Definition process_parallel (station_files : list string) (nproc : Z)
    (do_work : string → exn + (option string * option string)) : M unit :=
  emit (PoolOpen nproc) ;;
  try_finally
    (try_except
       (for_each (enumerate station_files)
          (λ '(i, station_file), emit (Submit i station_file)) ;;
        for_each as_completed (λ i,
          station_file ← index station_files i ;
          result ← lift (do_work station_file) ;
          handle_result station_files i result))
       (λ e, emit Terminate ;; raise e))
    (emit PoolShutdown).

(** The branch of the sequential shortcut. *)
Definition process_sequential (station_files : list string)
    (do_work : string → exn + (option string * option string)) : M unit :=
  for_each (enumerate station_files) (λ '(i, station_file),
    emit (Call station_file) ;;
    result ← lift (do_work station_file) ;
    handle_result station_files i result).

Definition process_cdip_station (station_folder out_folder : string)
    (nproc : option Z) : M unit :=
  let station_folder := normpath E station_folder in
  (if isdir E station_folder then mret tt else raise AssertionError) ;;
  let station_id := basename E station_folder in
  let glob_pattern := path_join E station_folder (station_id +:+ "_d??.nc") in
  let station_files := sorted_glob E glob_pattern in
  let qc_outfile := path_join E out_folder ("fowd_cdip_" +:+ station_id +:+ ".qc.json") in
  let num_inputs := length station_files in
  if decide (num_inputs = 0%nat) then
    raise (RuntimeError "Given input folder does not contain any valid station files")
  else
    let nproc := effective_nproc nproc num_inputs in
    put_locals {| result_files := replicate num_inputs None; num_waves_total := 0 |} ;;
    let do_work filepath := get_cdip_wave_records filepath out_folder (Some qc_outfile) in
    emit (Log Info (StartingStation station_id num_inputs)) ;;
    try_finally
      (emit (PbarOpen num_inputs nproc) ;;
       try_finally
         (if decide (nproc > 1) then process_parallel station_files nproc do_work
          else process_sequential station_files do_work)
         (emit PbarClose))
      (emit (StderrNewlines (Z.to_nat (nproc + 2)))) ;;
    emit (Log Info ProcessingDone) ;;
    st ← get_locals ;
    if negb (existsb file_truthy (result_files st)) then
      emit (Log Warning NoFilesProcessed)
    else
      let result_generator :=
        generate_results (read_pickle_outfile_chunks E) (result_files st) in
      let out_file := path_join E out_folder ("fowd_cdip_" +:+ station_id +:+ ".nc") in
      emit (Log Info (WritingOutput out_file)) ;;
      let station_name := "CDIP_" +:+ station_id in
      write_records out_file station_name (num_waves_total st) result_generator.

End Station.

(** ** A station of three deployments

    [067_d01.nc] yields chunks of 2, 0 and 3 records (the empty one is the
    empty dict), [067_d02.nc] has no xyz data and is skipped, and
    [067_d03.nc] yields one chunk of 1 record. *)

Definition ex_chunk (ids heights : list Z) : record_chunk :=
  <["wave_id_local" := ids]> (<["wave_height" := heights]> ∅).

Definition ex_env : env := {|
  cdip_data := unit;
  normpath := λ p, p;
  basename := λ p, if decide (p = "/cdip/067") then "067" else p;
  path_join := λ a b, a +:+ "/" +:+ b;
  isdir := λ p, bool_decide (p = "/cdip/067");
  sorted_glob := λ _, ["067_d01.nc"; "067_d02.nc"; "067_d03.nc"];
  cpu_count := 2;
  get_cdip_data := λ f, if decide (f = "067_d02.nc") then inl InvalidCDIPFile else inr tt;
  wave_quantities := unit;
  extract_quantities := λ _ _, inr tt;
  compute_wave_records := λ _ _ _ _, None;
  read_pickle_outfile_chunks := λ p,
    if decide (p = "/out/067_d01.nc.waves.pkl") then
      [ex_chunk [0; 1] [15; 21]; ∅; ex_chunk [2; 3; 4] [8; 30; 12]]
    else if decide (p = "/out/067_d03.nc.waves.pkl") then
      [ex_chunk [0] [17]]
    else [];
  read_pickle_statefile := λ p,
    if decide (p = "/out/067_d01.nc.state.pkl") then
      {| num_flags_fired := [("a", 1); ("b", 4)] |}
    else {| num_flags_fired := [("a", 2); ("b", 0)] |}
|}.

Definition no_locals : locals := {| result_files := []; num_waves_total := 0 |}.

(** ** What the merge is expected to produce *)

(** The local identifiers of a chunk (none when the field is absent). *)
Definition chunk_ids (record_chunk : record_chunk) : list Z :=
  default [] (record_chunk !! "wave_id_local").

Definition chunk_records (record_chunk : record_chunk) : Z :=
  Z.of_nat (length (chunk_ids record_chunk)).

Definition has_ids (record_chunk : record_chunk) : Prop :=
  is_Some (record_chunk !! "wave_id_local").

(** The non-empty chunks of one store, and of all the stores of
    [result_files], in canonical order. *)
Definition nonempty_chunks (chunks : list record_chunk) : list record_chunk :=
  filter (λ c, chunk_truthy c = true) chunks.

Definition stored_chunks (read : string → list record_chunk)
    (result_files : list (option string)) : list record_chunk :=
  flat_map (λ result_file,
    match result_file with
    | None => []
    | Some path => nonempty_chunks (read path)
    end) result_files.

Definition sumZ (l : list Z) : Z := foldr Z.add 0 l.

Definition total_records (read : string → list record_chunk)
    (result_files : list (option string)) : Z :=
  sumZ (chunk_records <$> stored_chunks read result_files).

(** Following the words of the specification of the merge: every chunk gets
    the contiguous range that starts at [next_id], which then advances by
    the size of the chunk. *)
Fixpoint renumber (next_id : Z) (chunks : list record_chunk) : list record_chunk :=
  match chunks with
  | [] => []
  | c :: chunks =>
      <["wave_id_local" := seqZ next_id (chunk_records c)]> c
        :: renumber (next_id + chunk_records c) chunks
  end.

(** ** What the dispatch is expected to do *)

Definition is_write (ev : event) : bool :=
  match ev with WriteRecords _ _ _ _ => true | _ => false end.

Definition is_pool (ev : event) : bool :=
  match ev with
  | PoolOpen _ | Submit _ _ | Terminate | PoolShutdown => true
  | _ => false
  end.

(** The events of the handling of one unit: neither the pool nor the
    dataset writer. *)
Definition quiet (ev : event) : Prop := is_write ev = false ∧ is_pool ev = false.

(** The flag counts that a run logs, in the order of the log. *)
Definition logged_flags (evs : list event) : list (string * Z) :=
  flat_map (λ ev,
    match ev with Log _ (FlagCount key val) => [(key, val)] | _ => [] end) evs.

(** The files on which the computation is called in this process. *)
Definition calls (evs : list event) : list string :=
  flat_map (λ ev, match ev with Call f => [f] | _ => [] end) evs.

(** The sum of the counts listed for one flag. *)
Definition flag_sum (key : string) (flags : list (string * Z)) : Z :=
  sumZ (flat_map (λ kv, if decide (kv.1 = key) then [kv.2] else []) flags).

Section Units.
Variable E : env.
Variable station_files : list string.
Variable do_work : string → exn + (option string * option string).

(** What the computation and the handling of unit [i] come to: an
    exception (of the computation, or of the counting loop), a skip, or
    the result file, the state file and the number of waves. *)
Definition unit_outcome (i : nat) : exn + option (string * string * Z) :=
  match station_files !! i with
  | None => inl IndexError
  | Some station_file =>
      match do_work station_file with
      | inl e => inl e
      | inr (Some result_file, Some state_file) =>
          match count_waves (read_pickle_outfile_chunks E result_file) 0 with
          | inl e => inl e
          | inr num_waves => inr (Some (result_file, state_file, num_waves))
          end
      | inr _ => inr None
      end
  end.

Definition unit_flags (i : nat) : list (string * Z) :=
  match unit_outcome i with
  | inr (Some (_, state_file, _)) =>
      num_flags_fired (read_pickle_statefile E state_file)
  | _ => []
  end.

Definition unit_store (i : nat) (o : option (string * string * Z))
    (st : locals) : locals :=
  match o with
  | None => st
  | Some (result_file, _, num_waves) =>
      {| result_files := <[i := Some result_file]> (result_files st);
         num_waves_total := num_waves_total st + num_waves |}
  end.

(** The locals after the units of [l] were handled in that order, or the
    first exception. *)
Fixpoint fold_units (l : list nat) (st : locals) : exn + locals :=
  match l with
  | [] => inr st
  | i :: l =>
      match unit_outcome i with
      | inl e => inl e
      | inr o => fold_units l (unit_store i o st)
      end
  end.

Definition unit_ok (i : nat) : Prop := ∃ o, unit_outcome i = inr o.
Definition unit_fails (i : nat) : Prop := ∃ e, unit_outcome i = inl e.

(** [body] computes and handles unit [i], when [result_files] has a slot
    for every station file. *)
Definition handles (body : M unit) (i : nat) : Prop :=
  ∀ st, length (result_files st) = length station_files →
    Forall quiet (events (body st)) ∧
    match unit_outcome i with
    | inl e => outcome (body st) = inl e ∧ final (body st) = st
    | inr o =>
        outcome (body st) = inr tt ∧ final (body st) = unit_store i o st
        ∧ logged_flags (events (body st)) = unit_flags i
    end.
End Units.

(** The station files that [process_cdip_station] discovers, and the
    computation that it dispatches. *)
Definition station_files_of (E : env) (station_folder : string) : list string :=
  let station_folder := normpath E station_folder in
  let station_id := basename E station_folder in
  sorted_glob E (path_join E station_folder (station_id +:+ "_d??.nc")).

Definition do_work_of (E : env) (station_folder out_folder : string)
    (filepath : string) : exn + (option string * option string) :=
  let station_id := basename E (normpath E station_folder) in
  get_cdip_wave_records E filepath out_folder
    (Some (path_join E out_folder ("fowd_cdip_" +:+ station_id +:+ ".qc.json"))).

(** Both runs raise, or both end with the same locals. *)
Definition same_result (a b : exn + locals) : Prop :=
  match a, b with
  | inr x, inr y => x = y
  | inl _, inl _ => True
  | _, _ => False
  end.

Definition flag_events (flags : list (string * Z)) : list event :=
  (λ kv, Log Info (FlagCount kv.1 kv.2)) <$> flags.

Definition submits (station_files : list string) : list event :=
  (λ x, Submit x.1 x.2) <$> enumerate station_files.

(** The body of the loop over the completed futures, and the loop. *)
Definition parallel_body (E : env) (station_files : list string)
    (do_work : string → exn + (option string * option string)) (i : nat) : M unit :=
  station_file ← index station_files i ;
  result ← lift (do_work station_file) ;
  handle_result E station_files i result.

Definition parallel_loop (E : env) (as_completed : list nat)
    (station_files : list string)
    (do_work : string → exn + (option string * option string)) : M unit :=
  for_each as_completed (parallel_body E station_files do_work).

Definition station_id_of (E : env) (station_folder : string) : string :=
  basename E (normpath E station_folder).

Definition out_file_of (E : env) (station_folder out_folder : string) : string :=
  path_join E out_folder ("fowd_cdip_" +:+ station_id_of E station_folder +:+ ".nc").

Definition init_locals (num_inputs : nat) : locals :=
  {| result_files := replicate num_inputs None; num_waves_total := 0 |}.

(** The run of the branch that [process_cdip_station] takes. *)
Definition dispatch (E : env) (as_completed : list nat)
    (station_folder out_folder : string) (nproc : option Z) : run unit :=
  let station_files := station_files_of E station_folder in
  let do_work := do_work_of E station_folder out_folder in
  let nproc := effective_nproc E nproc (length station_files) in
  (if decide (nproc > 1)
   then process_parallel E as_completed station_files nproc do_work
   else process_sequential E station_files do_work)
    (init_locals (length station_files)).

(** The events up to the end of the dispatch. *)
Definition dispatch_events (E : env) (as_completed : list nat)
    (station_folder out_folder : string) (nproc : option Z) : list event :=
  let num_inputs := length (station_files_of E station_folder) in
  let n := effective_nproc E nproc num_inputs in
  [Log Info (StartingStation (station_id_of E station_folder) num_inputs);
   PbarOpen num_inputs n]
  ++ events (dispatch E as_completed station_folder out_folder nproc)
  ++ [PbarClose; StderrNewlines (Z.to_nat (n + 2))].

(** The units in the order in which the branch taken handles them: the
    order of completion under the pool, the canonical order otherwise. *)
Definition handling_order (E : env) (as_completed : list nat)
    (station_folder : string) (nproc : option Z) : list nat :=
  let num_inputs := length (station_files_of E station_folder) in
  if decide (effective_nproc E nproc num_inputs > 1) then as_completed
  else seq 0 num_inputs.

(** The calls of the dataset writer in a run. *)
Definition written (evs : list event) : list event :=
  filter (λ ev, is_write ev = true) evs.

(** What follows a dispatch that ended normally with the locals [st]: the
    call of the dataset writer, if any, and how the call ends. *)
Definition epilogue_written (E : env) (station_folder out_folder : string)
    (st : locals) : list event :=
  if existsb file_truthy (result_files st) then
    [WriteRecords (out_file_of E station_folder out_folder)
       ("CDIP_" +:+ station_id_of E station_folder)
       (num_waves_total st)
       (generate_results (read_pickle_outfile_chunks E) (result_files st))]
  else [].

Definition epilogue_outcome (E : env) (st : locals) : exn + unit :=
  if existsb file_truthy (result_files st) then
    match gen_raised (generate_results (read_pickle_outfile_chunks E)
                        (result_files st)) with
    | Some e => inl e
    | None => inr tt
    end
  else inr tt.

(** How a run ended: by an exception, or normally with its locals. *)
Definition result_of (r : run unit) : exn + locals :=
  match outcome r with
  | inl e => inl e
  | inr _ => inr (final r)
  end.

(** The arithmetic sum, over all the units, of the counts that their state
    summaries give for one flag (a skipped unit has none). *)
Definition batch_flag_total (E : env) (station_files : list string)
    (do_work : string → exn + (option string * option string))
    (key : string) : Z :=
  sumZ ((λ i, flag_sum key (unit_flags E station_files do_work i))
          <$> seq 0 (length station_files)).

(** The progress that a run reports to the progress bar of the files. *)
Definition pbar_progress (evs : list event) : Z :=
  sumZ (flat_map (λ ev, match ev with PbarUpdate k => [k] | _ => [] end) evs).

(** The submissions to the pool in a run. *)
Definition submitted (evs : list event) : list (nat * string) :=
  flat_map (λ ev, match ev with Submit i f => [(i, f)] | _ => [] end) evs.

(** The events of the [with] exit of the progress bar and of the
    [finally] clause. *)
Definition is_cleanup (ev : event) : bool :=
  match ev with PbarClose | StderrNewlines _ => true | _ => false end.

(** The events that the computation and the handling of one unit can
    emit, and those that can follow the dispatch. *)
Definition unit_event (ev : event) : Prop :=
  match ev with
  | Log Info (FinishedFile _ _ _) | Log Info (FoundWaves _) | Log Info FlagsFired
  | Log Info (FlagCount _ _) | Log Warning (SkippedFile _)
  | PbarUpdate _ | ReadChunks _ | ReadState _ | Call _ => True
  | _ => False
  end.

Definition epilogue_event (ev : event) : Prop :=
  match ev with
  | Log Info ProcessingDone | Log Warning NoFilesProcessed
  | Log Info (WritingOutput _) | WriteRecords _ _ _ _ => True
  | _ => False
  end.

(** The slot of [result_files] that a result pair leads to. *)
Definition slot_of (result : exn + (option string * option string))
    : option string :=
  match result with
  | inr (Some result_file, Some _) => Some result_file
  | _ => None
  end.

(** What holds of the generator at every point of its run, from the
    counter value [cur] on. *)
Definition contiguous_from (cur : Z) (g : gen_result) : Prop :=
  cur ≤ current_wave_id g
  ∧ flat_map chunk_ids (yielded g) = seqZ cur (current_wave_id g - cur)
  ∧ Forall (λ c, chunk_truthy c = true ∧ has_ids c) (yielded g)
  ∧ (gen_raised g = None ∨ gen_raised g = Some (KeyError "wave_id_local")).

(** The files that the log reports as finished ([false]) or skipped
    ([true]), in the order of the log. *)
Definition file_reports (evs : list event) : list (string * bool) :=
  flat_map (λ ev,
    match ev with
    | Log _ (FinishedFile filename _ _) => [(filename, false)]
    | Log _ (SkippedFile filename) => [(filename, true)]
    | _ => []
    end) evs.

(** The report expected for unit [i]. *)
Definition unit_report (station_files : list string)
    (do_work : string → exn + (option string * option string)) (i : nat)
    : list (string * bool) :=
  match station_files !! i with
  | Some station_file =>
      [(station_file, bool_decide (slot_of (do_work station_file) = None))]
  | None => []
  end.

(** The events of a unit that raises under the pool: none when its
    computation raised (the exception comes out of [future.result()],
    before [handle_result] is entered) or when the unit has no station
    file, and the progress update and the reading of the store when the
    counting loop of [handle_result] raised. *)
Definition failed_unit_events (station_files : list string)
    (do_work : string → exn + (option string * option string)) (i : nat)
    : list event :=
  match station_files !! i with
  | Some station_file =>
      match do_work station_file with
      | inr (Some result_file, Some _) => [PbarUpdate 1; ReadChunks result_file]
      | _ => []
      end
  | None => []
  end.

(** ** Variants of the station of three deployments *)

(** No deployment file at all. *)
Definition ex_env_empty : env := {|
  cdip_data := unit;
  normpath := normpath ex_env;
  basename := basename ex_env;
  path_join := path_join ex_env;
  isdir := isdir ex_env;
  sorted_glob := λ _, [];
  cpu_count := cpu_count ex_env;
  get_cdip_data := get_cdip_data ex_env;
  wave_quantities := unit;
  extract_quantities := λ _ _, inr tt;
  compute_wave_records := λ _ _ _ _, None;
  read_pickle_outfile_chunks := read_pickle_outfile_chunks ex_env;
  read_pickle_statefile := read_pickle_statefile ex_env
|}.

(** No deployment has xyz data. *)
Definition ex_env_skipped : env := {|
  cdip_data := unit;
  normpath := normpath ex_env;
  basename := basename ex_env;
  path_join := path_join ex_env;
  isdir := isdir ex_env;
  sorted_glob := sorted_glob ex_env;
  cpu_count := cpu_count ex_env;
  get_cdip_data := λ _, inl InvalidCDIPFile;
  wave_quantities := unit;
  extract_quantities := λ _ _, inr tt;
  compute_wave_records := λ _ _ _ _, None;
  read_pickle_outfile_chunks := read_pickle_outfile_chunks ex_env;
  read_pickle_statefile := read_pickle_statefile ex_env
|}.

(** The computation of the third deployment raises. *)
Definition ex_env_failing : env := {|
  cdip_data := unit;
  normpath := normpath ex_env;
  basename := basename ex_env;
  path_join := path_join ex_env;
  isdir := isdir ex_env;
  sorted_glob := sorted_glob ex_env;
  cpu_count := cpu_count ex_env;
  get_cdip_data := get_cdip_data ex_env;
  wave_quantities := unit;
  extract_quantities := λ _ _, inr tt;
  compute_wave_records := λ _ outfile _ _,
    if decide (outfile = "/out/067_d03.nc.waves.pkl")
    then Some (OtherError "singular matrix") else None;
  read_pickle_outfile_chunks := read_pickle_outfile_chunks ex_env;
  read_pickle_statefile := read_pickle_statefile ex_env
|}.

(** A store with a chunk that lacks the local identifiers. *)
Definition ex_env_malformed : env := {|
  cdip_data := unit;
  normpath := normpath ex_env;
  basename := basename ex_env;
  path_join := path_join ex_env;
  isdir := isdir ex_env;
  sorted_glob := sorted_glob ex_env;
  cpu_count := cpu_count ex_env;
  get_cdip_data := get_cdip_data ex_env;
  wave_quantities := unit;
  extract_quantities := λ _ _, inr tt;
  compute_wave_records := λ _ _ _ _, None;
  read_pickle_outfile_chunks := λ _, [ex_chunk [0] [7]; {["wave_height" := [9]]}];
  read_pickle_statefile := read_pickle_statefile ex_env
|}.

(** The computation of the first deployment raises. *)
Definition ex_env_failing_first : env := {|
  cdip_data := unit;
  normpath := normpath ex_env;
  basename := basename ex_env;
  path_join := path_join ex_env;
  isdir := isdir ex_env;
  sorted_glob := sorted_glob ex_env;
  cpu_count := cpu_count ex_env;
  get_cdip_data := get_cdip_data ex_env;
  wave_quantities := unit;
  extract_quantities := λ _ _, inr tt;
  compute_wave_records := λ _ outfile _ _,
    if decide (outfile = "/out/067_d01.nc.waves.pkl")
    then Some (OtherError "singular matrix") else None;
  read_pickle_outfile_chunks := read_pickle_outfile_chunks ex_env;
  read_pickle_statefile := read_pickle_statefile ex_env
|}.

(** ** Masking of flagged data ([mask_invalid])

    The variables of the dataset that [mask_invalid] reads and writes.
    The flags are integers; the measured values are floating point
    numbers, of which the function only needs [nan], and are kept
    abstract. The variables along [xyzCount] are lists over the samples,
    those along [waveTime] lists over the spectra, and the three
    two-dimensional variables are lists (over [waveTime]) of rows (over
    [waveFrequency]). In a dataset the variables along one dimension have
    one length, which [well_shaped] states. *)
Section Masking.
Context {V : Type}.
Variable nan : V.

Record dataset : Type := {
  xyzFlagPrimary : list Z;
  xyzFlagSecondary : list Z;
  xyzZDisplacement : list V;
  waveFlagPrimary : list Z;
  waveFlagSecondary : list Z;
  waveFrequencyFlagPrimary : list Z;
  waveFrequencyFlagSecondary : list Z;
  waveDp : list V;
  waveSpread : list (list V);
  waveMeanDirection : list (list V);
  waveEnergyDensity : list (list V)
}.

(** [(primary > 2) | (secondary > 0)], element by element. *)
Definition invalid_flags (primary secondary : list Z) : list bool :=
  zip_with (λ p s, bool_decide (p > 2) || bool_decide (s > 0)) primary secondary.

(** [xs[mask] = nan] for a boolean mask of the length of [xs], the only
    case in a dataset (numpy refuses a mask of another length; here the
    elements beyond a shorter mask are left as they are). *)
Fixpoint set_where (mask : list bool) (xs : list V) : list V :=
  match mask, xs with
  | m :: mask, x :: xs => (if m then nan else x) :: set_where mask xs
  | _, _ => xs
  end.

(** [rows[mask, :] = nan]. *)
Fixpoint set_rows_where (mask : list bool) (rows : list (list V)) : list (list V) :=
  match mask, rows with
  | m :: mask, row :: rows =>
      (if m then (λ _, nan) <$> row else row) :: set_rows_where mask rows
  | _, _ => rows
  end.

(** [rows[:, mask] = nan]. *)
Definition set_columns_where (mask : list bool) (rows : list (list V))
    : list (list V) :=
  set_where mask <$> rows.

(** The body of the loop over the three two-dimensional variables. *)
Definition mask_spectrum (time_invalid freq_invalid : list bool)
    (rows : list (list V)) : list (list V) :=
  set_columns_where freq_invalid (set_rows_where time_invalid rows).

Definition mask_invalid (data : dataset) : dataset :=
  let xyz_invalid := invalid_flags (xyzFlagPrimary data) (xyzFlagSecondary data) in
  let time_invalid := invalid_flags (waveFlagPrimary data) (waveFlagSecondary data) in
  let freq_invalid :=
    invalid_flags (waveFrequencyFlagPrimary data) (waveFrequencyFlagSecondary data) in
  {| xyzFlagPrimary := xyzFlagPrimary data;
     xyzFlagSecondary := xyzFlagSecondary data;
     xyzZDisplacement := set_where xyz_invalid (xyzZDisplacement data);
     waveFlagPrimary := waveFlagPrimary data;
     waveFlagSecondary := waveFlagSecondary data;
     waveFrequencyFlagPrimary := waveFrequencyFlagPrimary data;
     waveFrequencyFlagSecondary := waveFrequencyFlagSecondary data;
     waveDp := set_where time_invalid (waveDp data);
     waveSpread := mask_spectrum time_invalid freq_invalid (waveSpread data);
     waveMeanDirection :=
       mask_spectrum time_invalid freq_invalid (waveMeanDirection data);
     waveEnergyDensity :=
       mask_spectrum time_invalid freq_invalid (waveEnergyDensity data) |}.

(** A flag pair that marks its sample as good. *)
Definition flags_valid (primary secondary : Z) : Prop := primary ≤ 2 ∧ secondary ≤ 0.

Definition well_shaped (data : dataset) : Prop :=
  length (xyzFlagPrimary data) = length (xyzZDisplacement data)
  ∧ length (xyzFlagSecondary data) = length (xyzZDisplacement data)
  ∧ length (waveFlagPrimary data) = length (waveDp data)
  ∧ length (waveFlagSecondary data) = length (waveDp data)
  ∧ length (waveFrequencyFlagSecondary data)
    = length (waveFrequencyFlagPrimary data)
  ∧ Forall (λ rows,
      length rows = length (waveDp data)
      ∧ Forall (λ row, length row = length (waveFrequencyFlagPrimary data)) rows)
      [waveSpread data; waveMeanDirection data; waveEnergyDensity data].
End Masking.

Arguments dataset : clear implicits.

(** A dataset of three samples and two spectra over two frequencies; the
    second sample, the first spectrum and the second frequency are
    flagged. *)
Definition ex_dataset : dataset (option Z) := {|
  xyzFlagPrimary := [1; 3; 2];
  xyzFlagSecondary := [0; 0; 0];
  xyzZDisplacement := [Some 10; Some 11; Some 12];
  waveFlagPrimary := [1; 1];
  waveFlagSecondary := [1; 0];
  waveFrequencyFlagPrimary := [1; 4];
  waveFrequencyFlagSecondary := [0; 0];
  waveDp := [Some 200; Some 210];
  waveSpread := [[Some 1; Some 2]; [Some 3; Some 4]];
  waveMeanDirection := [[Some 5; Some 6]; [Some 7; Some 8]];
  waveEnergyDensity := [[Some 9; Some 10]; [Some 11; Some 12]]
|}.

(** The same dataset with no flag set. *)
Definition ex_dataset_clean : dataset (option Z) := {|
  xyzFlagPrimary := [1; 2; 2];
  xyzFlagSecondary := [0; 0; 0];
  xyzZDisplacement := xyzZDisplacement ex_dataset;
  waveFlagPrimary := [1; 1];
  waveFlagSecondary := [0; 0];
  waveFrequencyFlagPrimary := [1; 1];
  waveFrequencyFlagSecondary := [0; 0];
  waveDp := waveDp ex_dataset;
  waveSpread := waveSpread ex_dataset;
  waveMeanDirection := waveMeanDirection ex_dataset;
  waveEnergyDensity := waveEnergyDensity ex_dataset
|}.

(** ** Properties of the generator *)

Lemma sumZ_app (l1 l2 : list Z) : sumZ (l1 ++ l2) = sumZ l1 + sumZ l2.
Proof. unfold sumZ. induction l1 as [|x l1 IH]; simpl; lia. Qed.

Lemma chunk_records_nonneg (c : record_chunk) : 0 ≤ chunk_records c.
Proof. unfold chunk_records. lia. Qed.

Lemma sumZ_chunk_records_nonneg (cs : list record_chunk) :
  0 ≤ sumZ (chunk_records <$> cs).
Proof.
  unfold sumZ. induction cs as [|c cs IH]; csimpl; [lia|].
  pose proof (chunk_records_nonneg c). lia.
Qed.

Lemma nonempty_chunks_cons (c : record_chunk) (cs : list record_chunk) :
  nonempty_chunks (c :: cs) =
  if chunk_truthy c then c :: nonempty_chunks cs else nonempty_chunks cs.
Proof.
  unfold nonempty_chunks. rewrite filter_cons.
  destruct (chunk_truthy c); case_decide; congruence.
Qed.

(** The inner loop yields the renumbered non-empty chunks and hands the
    advanced counter to the rest of the outer loop. *)
Lemma generate_chunks_renumber (chunks : list record_chunk) (cur : Z)
    (k : Z → gen_result) :
  Forall has_ids (nonempty_chunks chunks) →
  generate_chunks chunks cur k =
  foldr gen_yield
    (k (cur + sumZ (chunk_records <$> nonempty_chunks chunks)))
    (renumber cur (nonempty_chunks chunks)).
Proof.
  revert cur. induction chunks as [|c chunks IH]; intros cur Hwf.
  - simpl. f_equal. unfold sumZ. simpl. lia.
  - rewrite nonempty_chunks_cons in *. simpl.
    destruct (chunk_truthy c) eqn:Hc; simpl.
    + apply Forall_cons in Hwf as [[ids Hids] Hwf].
      assert (chunk_records c = Z.of_nat (length ids)) as ->
        by (unfold chunk_records, chunk_ids; by rewrite Hids).
      rewrite Hids, IH by done. do 2 f_equal. by rewrite Z.add_assoc.
    + by apply IH.
Qed.

Lemma stored_chunks_cons_Some (read : string → list record_chunk) (path : string)
    (result_files : list (option string)) :
  stored_chunks read (Some path :: result_files) =
  nonempty_chunks (read path) ++ stored_chunks read result_files.
Proof. reflexivity. Qed.

Lemma renumber_app (cur : Z) (cs1 cs2 : list record_chunk) :
  renumber cur (cs1 ++ cs2) =
  renumber cur cs1 ++ renumber (cur + sumZ (chunk_records <$> cs1)) cs2.
Proof.
  revert cur. induction cs1 as [|c cs1 IH]; intros cur; csimpl.
  - f_equal. unfold sumZ. simpl. lia.
  - rewrite IH. do 3 f_equal. unfold sumZ. csimpl. lia.
Qed.

Lemma foldr_gen_yield (cs : list record_chunk) (g : gen_result) :
  foldr gen_yield g cs =
  {| yielded := cs ++ yielded g; current_wave_id := current_wave_id g;
     gen_raised := gen_raised g |}.
Proof.
  induction cs as [|c cs IH]; simpl.
  - by destruct g.
  - rewrite IH. reflexivity.
Qed.

(** The generator as a whole: renumbering of the concatenation. *)
Lemma generate_files_renumber (read : string → list record_chunk)
    (result_files : list (option string)) (cur : Z) :
  Forall has_ids (stored_chunks read result_files) →
  generate_files read result_files cur =
  {| yielded := renumber cur (stored_chunks read result_files);
     current_wave_id := cur + total_records read result_files;
     gen_raised := None |}.
Proof.
  revert cur. induction result_files as [|[path|] result_files IH]; intros cur Hwf.
  - simpl. f_equal. unfold total_records, sumZ. simpl. lia.
  - rewrite stored_chunks_cons_Some in Hwf. apply Forall_app in Hwf as [Hwf1 Hwf2].
    simpl generate_files. rewrite generate_chunks_renumber by done.
    rewrite IH by done. rewrite foldr_gen_yield. simpl.
    unfold total_records. rewrite stored_chunks_cons_Some, renumber_app.
    rewrite fmap_app, sumZ_app. f_equal. lia.
  - simpl. by apply IH.
Qed.

Lemma chunk_ids_insert (ids : list Z) (c : record_chunk) :
  chunk_ids (<["wave_id_local" := ids]> c) = ids.
Proof. unfold chunk_ids. by rewrite lookup_insert_eq. Qed.

Lemma renumber_ids (cur : Z) (cs : list record_chunk) :
  flat_map chunk_ids (renumber cur cs) = seqZ cur (sumZ (chunk_records <$> cs)).
Proof.
  revert cur. induction cs as [|c cs IH]; intros cur; csimpl; [done|].
  rewrite chunk_ids_insert, IH. unfold sumZ at 2. csimpl.
  symmetry. apply seqZ_app.
  - apply chunk_records_nonneg.
  - apply sumZ_chunk_records_nonneg.
Qed.

Lemma renumber_other_fields (cur : Z) (cs : list record_chunk) :
  delete "wave_id_local" <$> renumber cur cs = delete "wave_id_local" <$> cs.
Proof.
  revert cur. induction cs as [|c cs IH]; intros cur; csimpl; [done|].
  by rewrite delete_insert_eq, IH.
Qed.

Lemma renumber_sizes (cur : Z) (cs : list record_chunk) :
  chunk_records <$> renumber cur cs = chunk_records <$> cs.
Proof.
  revert cur. induction cs as [|c cs IH]; intros cur; csimpl; [done|].
  rewrite IH. f_equal. unfold chunk_records at 1.
  rewrite chunk_ids_insert, length_seqZ. pose proof (chunk_records_nonneg c). lia.
Qed.

Lemma generate_chunks_ext (chunks : list record_chunk) (cur : Z)
    (k1 k2 : Z → gen_result) :
  (∀ n, k1 n = k2 n) →
  generate_chunks chunks cur k1 = generate_chunks chunks cur k2.
Proof.
  intros Hk. revert cur. induction chunks as [|c chunks IH]; intros cur; simpl.
  - apply Hk.
  - destruct (chunk_truthy c); simpl; [|apply IH].
    destruct (c !! "wave_id_local"); [|done]. by rewrite IH.
Qed.

Lemma generate_files_skip (read : string → list record_chunk)
    (pre post : list (option string)) (cur : Z) :
  generate_files read (pre ++ None :: post) cur = generate_files read (pre ++ post) cur.
Proof.
  revert cur. induction pre as [|[path|] pre IH]; intros cur; simpl; [done| |done].
  apply generate_chunks_ext. intros n. apply IH.
Qed.

(** ** The claims about the merge *)

(** C1. Whatever the stores of the units hold (any number of chunks of any
    size, empty chunks, skipped units), provided every non-empty chunk
    carries the field [wave_id_local], the generator ends without an
    exception and the identifiers of the chunks it yields are, read in
    order, exactly [0, 1, ..., total_records - 1]: hence unique and
    without gap. The chunks yielded are the non-empty stored chunks in
    canonical order, each with its size and its other fields unchanged. *)
Theorem generate_results_global_ids (read : string → list record_chunk)
    (result_files : list (option string)) :
  Forall has_ids (stored_chunks read result_files) →
  gen_raised (generate_results read result_files) = None
  ∧ current_wave_id (generate_results read result_files)
    = total_records read result_files
  ∧ flat_map chunk_ids (yielded (generate_results read result_files))
    = seqZ 0 (total_records read result_files)
  ∧ NoDup (flat_map chunk_ids (yielded (generate_results read result_files)))
  ∧ delete "wave_id_local" <$> yielded (generate_results read result_files)
    = delete "wave_id_local" <$> stored_chunks read result_files
  ∧ chunk_records <$> yielded (generate_results read result_files)
    = chunk_records <$> stored_chunks read result_files.
Proof.
  intros Hwf. unfold generate_results.
  rewrite generate_files_renumber by done. simpl.
  rewrite renumber_ids, renumber_other_fields, renumber_sizes.
  repeat split; try done. apply NoDup_seqZ.
Qed.

Lemma generate_results_global_ids_witness :
  Forall has_ids
    (stored_chunks (read_pickle_outfile_chunks ex_env)
       [Some "/out/067_d01.nc.waves.pkl"; None; Some "/out/067_d03.nc.waves.pkl"])
  ∧ flat_map chunk_ids
      (yielded (generate_results (read_pickle_outfile_chunks ex_env)
         [Some "/out/067_d01.nc.waves.pkl"; None; Some "/out/067_d03.nc.waves.pkl"]))
    = [0; 1; 2; 3; 4; 5].
Proof.
  assert (Forall has_ids
    (stored_chunks (read_pickle_outfile_chunks ex_env)
       [Some "/out/067_d01.nc.waves.pkl"; None; Some "/out/067_d03.nc.waves.pkl"]))
    as Hwf by (repeat constructor; eexists; reflexivity).
  split; [exact Hwf|].
  destruct (generate_results_global_ids _ _ Hwf) as (_ & _ & -> & _).
  reflexivity.
Defined.

(** C4. A skipped unit ([None] in its slot of [result_files]) contributes
    nothing: the generator yields exactly what it yields when the slot is
    removed, so the identifiers of all the other units, later ones
    included, are those they get without it. *)
Theorem skipped_unit_shifts_nothing (read : string → list record_chunk)
    (pre post : list (option string)) :
  generate_results read (pre ++ None :: post) = generate_results read (pre ++ post).
Proof. apply generate_files_skip. Qed.

(** ** Running the monad *)

Lemma bind_inl {A B : Type} (m : M A) (k : A → M B) (st : locals) (e : exn) :
  outcome (m st) = inl e →
  (m ≫= k) st = Run (inl e) (final (m st)) (events (m st)).
Proof. intros H. unfold mbind, M_bind. simpl. by rewrite H. Qed.

Lemma bind_inr {A B : Type} (m : M A) (k : A → M B) (st : locals) (a : A) :
  outcome (m st) = inr a →
  (m ≫= k) st =
  Run (outcome (k a (final (m st)))) (final (k a (final (m st))))
    (events (m st) ++ events (k a (final (m st)))).
Proof. intros H. unfold mbind, M_bind. simpl. by rewrite H. Qed.

Lemma ret_bind {A B : Type} (a : A) (k : A → M B) (st : locals) :
  (mret a ≫= k) st = k a st.
Proof. unfold mbind, M_bind, mret, M_ret. simpl. by destruct (k a st). Qed.

Lemma lift_inr_bind {A B : Type} (a : A) (k : A → M B) (st : locals) :
  (lift (inr a) ≫= k) st = k a st.
Proof. apply ret_bind. Qed.

Lemma lift_inl_bind {A B : Type} (e : exn) (k : A → M B) (st : locals) :
  (lift (inl e) ≫= k) st = Run (inl e) st [].
Proof. reflexivity. Qed.

Lemma raise_bind {A B : Type} (e : exn) (k : A → M B) (st : locals) :
  (raise e ≫= k) st = Run (inl e) st [].
Proof. reflexivity. Qed.

Lemma emit_bind {B : Type} (ev : event) (k : unit → M B) (st : locals) :
  (emit ev ≫= k) st
  = Run (outcome (k tt st)) (final (k tt st)) (ev :: events (k tt st)).
Proof. reflexivity. Qed.

Lemma put_bind {B : Type} (st' : locals) (k : unit → M B) (st : locals) :
  (put_locals st' ≫= k) st = k tt st'.
Proof. unfold mbind, M_bind. simpl. by destruct (k tt st'). Qed.

Lemma get_bind {B : Type} (k : locals → M B) (st : locals) :
  (get_locals ≫= k) st = k st st.
Proof. unfold mbind, M_bind. simpl. by destruct (k st st). Qed.

Lemma try_finally_emit {A : Type} (body : M A) (ev : event) (st : locals) :
  try_finally body (emit ev) st
  = Run (outcome (body st)) (final (body st)) (events (body st) ++ [ev]).
Proof. reflexivity. Qed.

Lemma add_num_waves_total_bind {B : Type} (n : Z) (k : unit → M B) (st : locals) :
  (add_num_waves_total n ≫= k) st
  = k tt {| result_files := result_files st;
            num_waves_total := num_waves_total st + n |}.
Proof. unfold add_num_waves_total. apply (put_bind _ k st). Qed.

Lemma store_result_file_bind {B : Type} (i : nat) (path : string)
    (k : unit → M B) (st : locals) :
  (i < length (result_files st))%nat →
  (store_result_file i path ≫= k) st
  = k tt {| result_files := <[i := Some path]> (result_files st);
            num_waves_total := num_waves_total st |}.
Proof.
  intros Hi. rewrite <-(put_bind _ k st). unfold mbind, M_bind, store_result_file.
  by rewrite decide_True by done.
Qed.

Lemma index_Some {A : Type} (l : list A) (i : nat) (x : A) :
  l !! i = Some x → index l i = mret x.
Proof. intros H. unfold index. by rewrite H. Qed.

Lemma index_None {A : Type} (l : list A) (i : nat) :
  l !! i = None → index l i = raise IndexError.
Proof. intros H. unfold index. by rewrite H. Qed.

Lemma for_each_cons {A : Type} (x : A) (l : list A) (body : A → M unit) (st : locals) :
  for_each (x :: l) body st = (body x ≫= λ _, for_each l body) st.
Proof. reflexivity. Qed.

(** A loop that only emits one event per element. *)
Lemma for_each_emit {A : Type} (l : list A) (body : A → M unit) (g : A → event)
    (st : locals) :
  (∀ x st, body x st = Run (inr tt) st [g x]) →
  for_each l body st = Run (inr tt) st (g <$> l).
Proof.
  intros Hbody. induction l as [|x l IH]; [done|].
  rewrite for_each_cons, (bind_inr _ _ _ tt) by by rewrite Hbody.
  rewrite Hbody. simpl. by rewrite IH.
Qed.

(** ** The completion handler *)

(** [handle_result] in closed form. *)
Lemma handle_result_run (E : env) (station_files : list string) (i : nat)
    (result : option string * option string) (st : locals) (filename : string) :
  station_files !! i = Some filename →
  (i < length (result_files st))%nat →
  handle_result E station_files i result st =
  match result with
  | (Some result_file, Some state_file) =>
      match count_waves (read_pickle_outfile_chunks E result_file) 0 with
      | inl e => Run (inl e) st [PbarUpdate 1; ReadChunks result_file]
      | inr num_waves =>
          let st' :=
            {| result_files := <[i := Some result_file]> (result_files st);
               num_waves_total := num_waves_total st + num_waves |} in
          Run (inr tt) st'
            ([PbarUpdate 1; ReadChunks result_file; ReadState state_file;
              Log Info (FinishedFile filename
                (length (filter is_Some (result_files st'))) (length station_files));
              Log Info (FoundWaves num_waves); Log Info FlagsFired]
             ++ flag_events (num_flags_fired (read_pickle_statefile E state_file)))
      end
  | _ => Run (inr tt) st [PbarUpdate 1; Log Warning (SkippedFile filename)]
  end.
Proof.
  intros Hfile Hi. unfold handle_result. rewrite emit_bind.
  destruct result as [result_file state_file]. cbv beta iota.
  rewrite (index_Some _ _ _ Hfile), ret_bind.
  destruct result_file as [result_file|]; [|done].
  destruct state_file as [state_file|]; [|done].
  rewrite emit_bind.
  destruct (count_waves _ 0) as [e|num_waves]; [done|].
  rewrite lift_inr_bind, add_num_waves_total_bind.
  rewrite store_result_file_bind by done.
  rewrite emit_bind, get_bind, !emit_bind.
  rewrite (for_each_emit _ _ (λ kv, Log Info (FlagCount kv.1 kv.2)));
    [done | by intros [??] ?].
Qed.

(** C10. A result pair with [None] in either place is a skip: the handler
    updates the progress bar, logs the warning for the file and returns;
    it reads neither the chunks nor the state file, leaves [result_files]
    (hence the slot of the unit) and [num_waves_total] as they are. *)
Theorem handle_result_skips_partial_pair (E : env) (station_files : list string)
    (i : nat) (result_file state_file : option string) (st : locals)
    (filename : string) :
  station_files !! i = Some filename →
  result_file = None ∨ state_file = None →
  handle_result E station_files i (result_file, state_file) st
  = Run (inr tt) st [PbarUpdate 1; Log Warning (SkippedFile filename)].
Proof.
  intros Hfile Hnone. unfold handle_result. rewrite emit_bind. cbv beta iota.
  rewrite (index_Some _ _ _ Hfile), ret_bind.
  destruct Hnone as [-> | ->]; [done|]. by destruct result_file.
Qed.

Lemma handle_result_skips_partial_pair_witness :
  ["067_d01.nc"; "067_d02.nc"] !! 1%nat = Some "067_d02.nc"
  ∧ (Some "/out/067_d02.nc.waves.pkl" = None ∨ @None string = None)
  ∧ handle_result ex_env ["067_d01.nc"; "067_d02.nc"] 1
      (Some "/out/067_d02.nc.waves.pkl", None)
      {| result_files := [Some "/out/067_d01.nc.waves.pkl"; None];
         num_waves_total := 5 |}
    = Run (inr tt)
        {| result_files := [Some "/out/067_d01.nc.waves.pkl"; None];
           num_waves_total := 5 |}
        [PbarUpdate 1; Log Warning (SkippedFile "067_d02.nc")].
Proof.
  split; [reflexivity|]. split; [by right|].
  apply handle_result_skips_partial_pair; [reflexivity | by right].
Defined.

(** ** The dispatch loops *)

Lemma logged_flags_app (evs1 evs2 : list event) :
  logged_flags (evs1 ++ evs2) = logged_flags evs1 ++ logged_flags evs2.
Proof. apply flat_map_app. Qed.

Lemma logged_flags_flag_events (flags : list (string * Z)) :
  logged_flags (flag_events flags) = flags.
Proof.
  induction flags as [|[key val] flags IH]; [done|].
  unfold flag_events, logged_flags in *. csimpl. by rewrite IH.
Qed.

Lemma quiet_flag_events (flags : list (string * Z)) :
  Forall quiet (flag_events flags).
Proof. unfold flag_events. apply Forall_fmap, Forall_true. by intros [??]. Qed.

Section Loops.
Variable E : env.
Variable station_files : list string.
Variable do_work : string → exn + (option string * option string).

#[local] Abbreviation outcome_of := (unit_outcome E station_files do_work).
#[local] Abbreviation flags_of := (unit_flags E station_files do_work).
#[local] Abbreviation fold_of := (fold_units E station_files do_work).
#[local] Abbreviation handles := (handles E station_files do_work).

Lemma handle_result_handles (i : nat) (station_file : string)
    (result : option string * option string) (st : locals) :
  station_files !! i = Some station_file →
  do_work station_file = inr result →
  length (result_files st) = length station_files →
  Forall quiet (events (handle_result E station_files i result st)) ∧
  match outcome_of i with
  | inl e =>
      outcome (handle_result E station_files i result st) = inl e
      ∧ final (handle_result E station_files i result st) = st
  | inr o =>
      outcome (handle_result E station_files i result st) = inr tt
      ∧ final (handle_result E station_files i result st) = unit_store i o st
      ∧ logged_flags (events (handle_result E station_files i result st))
        = flags_of i
  end.
Proof.
  intros Hfile Hwork Hlen.
  assert (i < length (result_files st))%nat as Hi
    by (rewrite Hlen; by eapply lookup_lt_Some).
  rewrite (handle_result_run _ _ _ _ _ _ Hfile Hi).
  unfold unit_flags, unit_outcome. rewrite Hfile, Hwork.
  destruct result as [[result_file|] [state_file|]]; simpl;
    try (split; [repeat constructor | done]).
  destruct (count_waves _ 0) as [e|num_waves]; simpl.
  - split; [repeat constructor | done].
  - split.
    + repeat (apply Forall_cons; split; [done|]). apply quiet_flag_events.
    + repeat split. apply logged_flags_flag_events.
Qed.

Lemma parallel_body_handles (i : nat) :
  handles (parallel_body E station_files do_work i) i.
Proof.
  intros st Hi. unfold parallel_body.
  destruct (station_files !! i) as [station_file|] eqn:Hfile.
  - rewrite (index_Some _ _ _ Hfile), ret_bind.
    destruct (do_work station_file) as [e|result] eqn:Hwork.
    + rewrite lift_inl_bind. simpl.
      unfold unit_outcome. rewrite Hfile, Hwork. by split.
    + rewrite lift_inr_bind.
      by apply (handle_result_handles i station_file).
  - rewrite (index_None _ _ Hfile), raise_bind. simpl.
    unfold unit_outcome. rewrite Hfile. by split.
Qed.

(** The body of the sequential loop. *)
Lemma sequential_body_handles (i : nat) (station_file : string) :
  station_files !! i = Some station_file →
  handles
    (emit (Call station_file) ;;
     result ← lift (do_work station_file) ;
     handle_result E station_files i result) i.
Proof.
  intros Hfile st Hi. rewrite emit_bind. simpl.
  destruct (do_work station_file) as [e|result] eqn:Hwork.
  - rewrite lift_inl_bind. simpl.
    unfold unit_outcome. rewrite Hfile, Hwork. split; [by repeat constructor|done].
  - rewrite lift_inr_bind.
    destruct (handle_result_handles i station_file result st Hfile Hwork Hi)
      as [Hq Hr].
    split; [by apply Forall_cons|].
    destruct (outcome_of i); [done|].
    destruct Hr as (? & ? & Hflags). by rewrite <-Hflags.
Qed.

Lemma unit_store_length (i : nat) (o : option (string * string * Z)) (st : locals) :
  length (result_files (unit_store i o st)) = length (result_files st).
Proof. destruct o as [[[??]?]|]; simpl; [apply length_insert|done]. Qed.

(** A loop whose bodies handle the units [idx <$> l] does what
    [fold_units] says. *)
Lemma for_each_fold {A : Type} (idx : A → nat) (body : A → M unit)
    (l : list A) (st : locals) :
  Forall (λ x, handles (body x) (idx x)) l →
  length (result_files st) = length station_files →
  Forall quiet (events (for_each l body st)) ∧
  match fold_of (idx <$> l) st with
  | inl e => outcome (for_each l body st) = inl e
  | inr st' =>
      outcome (for_each l body st) = inr tt
      ∧ final (for_each l body st) = st'
      ∧ logged_flags (events (for_each l body st)) = flat_map flags_of (idx <$> l)
  end.
Proof.
  revert st. induction l as [|x l IH]; intros st Hbody Hlen; [by split|].
  apply Forall_cons in Hbody as [Hx Hbody].
  destruct (Hx st Hlen) as [Hq Hr]. rewrite for_each_cons. csimpl.
  destruct (outcome_of (idx x)) as [e|o] eqn:Ho.
  - destruct Hr as [Hout _]. by rewrite (bind_inl _ _ _ _ Hout).
  - destruct Hr as (Hout & Hfin & Hflags).
    rewrite (bind_inr _ _ _ _ Hout). simpl. rewrite Hfin.
    destruct (IH (unit_store (idx x) o st) Hbody) as [Hq' Hr'].
    { by rewrite unit_store_length. }
    split; [by apply Forall_app|].
    destruct (fold_of (idx <$> l) _); [done|].
    destruct Hr' as (? & ? & Hflags'). repeat split; try done.
    by rewrite logged_flags_app, Hflags, Hflags'.
Qed.
End Loops.

(** ** Counting and merging agree *)

Lemma count_waves_inr (chunks : list record_chunk) (acc n : Z) :
  count_waves chunks acc = inr n →
  Forall has_ids (nonempty_chunks chunks)
  ∧ n = acc + sumZ (chunk_records <$> nonempty_chunks chunks).
Proof.
  revert acc. induction chunks as [|c chunks IH]; intros acc; simpl.
  - intros [= <-]. split; [constructor|]. unfold sumZ. simpl. lia.
  - rewrite nonempty_chunks_cons. destruct (chunk_truthy c); [|apply IH].
    destruct (c !! "wave_id_local") as [ids|] eqn:Hids; [|done].
    intros [Hwf ->]%IH. split; [apply Forall_cons; split; [by exists ids|done]|].
    assert (chunk_records c = Z.of_nat (length ids)) as Hc
      by (unfold chunk_records, chunk_ids; by rewrite Hids).
    unfold sumZ in *. csimpl. lia.
Qed.

Lemma stored_chunks_app (read : string → list record_chunk)
    (l1 l2 : list (option string)) :
  stored_chunks read (l1 ++ l2) = stored_chunks read l1 ++ stored_chunks read l2.
Proof. apply flat_map_app. Qed.

Lemma stored_chunks_unset (read : string → list record_chunk)
    (result_files : list (option string)) (i : nat) :
  result_files !! i = Some None →
  stored_chunks read result_files =
  stored_chunks read (take i result_files)
    ++ stored_chunks read (drop (S i) result_files).
Proof.
  intros Hi. rewrite <-(take_drop_middle _ _ _ Hi) at 1.
  by rewrite stored_chunks_app.
Qed.

Lemma stored_chunks_insert (read : string → list record_chunk)
    (result_files : list (option string)) (i : nat) (path : string) :
  (i < length result_files)%nat →
  stored_chunks read (<[i := Some path]> result_files) =
  stored_chunks read (take i result_files)
    ++ nonempty_chunks (read path)
    ++ stored_chunks read (drop (S i) result_files).
Proof.
  intros Hi. rewrite insert_take_drop by done.
  by rewrite stored_chunks_app.
Qed.

Section Folds.
Variable E : env.
Variable station_files : list string.
Variable do_work : string → exn + (option string * option string).

#[local] Abbreviation outcome_of := (unit_outcome E station_files do_work).
#[local] Abbreviation fold_of := (fold_units E station_files do_work).
#[local] Abbreviation read := (read_pickle_outfile_chunks E).
#[local] Abbreviation unit_ok := (unit_ok E station_files do_work).
#[local] Abbreviation unit_fails := (unit_fails E station_files do_work).

Lemma unit_outcome_counted (i : nat) (result_file state_file : string) (n : Z) :
  outcome_of i = inr (Some (result_file, state_file, n)) →
  count_waves (read result_file) 0 = inr n.
Proof.
  unfold unit_outcome. destruct (station_files !! i) as [f|]; [|done].
  destruct (do_work f) as [e|[[rf|] [sf|]]]; try done.
  destruct (count_waves (read rf) 0) as [e|m] eqn:Hc; [done|].
  intros [= <- _ <-]. exact Hc.
Qed.

Lemma same_result_refl (a : exn + locals) : same_result a a.
Proof. by destruct a. Qed.

Lemma same_result_trans (a b c : exn + locals) :
  same_result a b → same_result b c → same_result a c.
Proof. destruct a, b, c; simpl; intros; try done; congruence. Qed.

Lemma unit_store_commute (i j : nat) (oi oj : option (string * string * Z))
    (st : locals) :
  outcome_of i = inr oi → outcome_of j = inr oj →
  unit_store i oi (unit_store j oj st) = unit_store j oj (unit_store i oi st).
Proof.
  intros Hi Hj. destruct (decide (i = j)) as [->|Hne]; [congruence|].
  destruct oi as [[[fi si] ni]|], oj as [[[fj sj] nj]|]; simpl; try done.
  f_equal; [by apply list_insert_insert_ne | lia].
Qed.

(** The order in which the units are handled does not matter for the
    locals. *)
Lemma fold_units_perm (l l' : list nat) :
  l ≡ₚ l' → ∀ st, same_result (fold_of l st) (fold_of l' st).
Proof.
  induction 1 as [|x l l' _ IH|x y l|l l' l'' _ IH1 _ IH2]; intros st; simpl.
  - done.
  - destruct (outcome_of x); [done|apply IH].
  - destruct (outcome_of x) as [|ox] eqn:Hx, (outcome_of y) as [|oy] eqn:Hy;
      simpl; try done.
    rewrite (unit_store_commute x y ox oy) by done. apply same_result_refl.
  - eapply same_result_trans; [apply IH1|apply IH2].
Qed.

Lemma fold_units_first_failure (done_before rest : list nat) (i : nat)
    (e : exn) (st : locals) :
  Forall unit_ok done_before →
  outcome_of i = inl e →
  fold_of (done_before ++ i :: rest) st = inl e.
Proof.
  intros Hdone Hi. revert st.
  induction Hdone as [|j l [o Hj] _ IH]; intros st; simpl.
  - by rewrite Hi.
  - rewrite Hj. apply IH.
Qed.

(** Where some unit fails, there is a first one in the order. *)
Lemma first_failure (l : list nat) :
  Exists unit_fails l →
  ∃ done_before i rest e,
    l = done_before ++ i :: rest
    ∧ Forall unit_ok done_before
    ∧ outcome_of i = inl e.
Proof.
  induction l as [|j l IH]; intros Hex; [by apply Exists_nil in Hex|].
  destruct (outcome_of j) as [e|o] eqn:Hj.
  - by exists [], j, l, e.
  - apply Exists_cons in Hex as [[e He]|Hex]; [congruence|].
    destruct (IH Hex) as (d & i & r & e & -> & Hd & Hi).
    exists (j :: d), i, r, e. split; [done|]. split; [|done].
    apply Forall_cons. split; [by exists o|done].
Qed.

Lemma fold_units_all_skipped (l : list nat) (st : locals) :
  Forall (λ j, outcome_of j = inr None) l → fold_of l st = inr st.
Proof. induction 1 as [|j l Hj _ IH]; simpl; [done|]. by rewrite Hj. Qed.

Lemma fold_units_ok (l : list nat) (st : locals) :
  Forall unit_ok l → ∃ st', fold_of l st = inr st'.
Proof.
  intros Hl. revert st.
  induction Hl as [|j l [o Hj] _ IH]; intros st; simpl; [by eexists|].
  rewrite Hj. apply IH.
Qed.

(** Handling distinct units whose slots are unset keeps the total of
    the counting loop equal to the number of records in the stores
    of [result_files], all of whose non-empty chunks have identifiers. *)
Lemma fold_units_totals (l : list nat) (st st' : locals) :
  fold_of l st = inr st' →
  NoDup l →
  Forall (λ i, result_files st !! i = Some None) l →
  Forall has_ids (stored_chunks read (result_files st)) →
  Forall has_ids (stored_chunks read (result_files st'))
  ∧ total_records read (result_files st') - total_records read (result_files st)
    = num_waves_total st' - num_waves_total st.
Proof.
  revert st. induction l as [|i l IH]; intros st Hfold Hnodup Hunset Hwf.
  - injection Hfold as <-. split; [done|lia].
  - simpl in Hfold. apply NoDup_cons in Hnodup as [Hi Hnodup].
    apply Forall_cons in Hunset as [Hslot Hunset].
    destruct (outcome_of i) as [|[[[rf sf] n]|]] eqn:Ho; [done| |by apply IH].
    apply unit_outcome_counted, count_waves_inr in Ho as [Hids ->].
    pose proof (lookup_lt_Some _ _ _ Hslot) as Hlt.
    rewrite (stored_chunks_unset read _ i Hslot) in Hwf.
    apply Forall_app in Hwf as [Hwf1 Hwf2].
    destruct (IH _ Hfold Hnodup) as [Hwf' Htot].
    + simpl. rewrite Forall_forall in Hunset |- *. intros j Hj.
      rewrite list_lookup_insert_ne by (by intros ->). by apply Hunset.
    + simpl. rewrite stored_chunks_insert by done.
      by repeat (apply Forall_app; split).
    + split; [done|]. simpl in Htot. unfold total_records in *.
      rewrite stored_chunks_insert in Htot by done.
      rewrite (stored_chunks_unset read (result_files st) i Hslot).
      rewrite !fmap_app, !sumZ_app in *. lia.
Qed.
End Folds.

(** ** The two dispatch branches and the whole call, in closed form *)

Lemma enumerate_lookup {A : Type} (l : list A) (i : nat) (x : A) :
  (i, x) ∈ enumerate l → l !! i = Some x.
Proof.
  unfold enumerate. intros [j Hj]%list_elem_of_lookup.
  apply lookup_zip_with_Some in Hj as (i' & x' & [= -> ->] & Hseq & Hx).
  apply lookup_seq in Hseq as [-> _]. done.
Qed.

Lemma enumerate_indices {A : Type} (l : list A) :
  (enumerate l).*1 = seq 0 (length l).
Proof. unfold enumerate. apply fst_zip. by rewrite length_seq. Qed.

Lemma enumerate_files {A : Type} (l : list A) : (enumerate l).*2 = l.
Proof. unfold enumerate. apply snd_zip. by rewrite length_seq. Qed.

Lemma process_parallel_run (E : env) (as_completed : list nat)
    (station_files : list string) (nproc : Z)
    (do_work : string → exn + (option string * option string)) (st : locals) :
  process_parallel E as_completed station_files nproc do_work st =
  let loop := parallel_loop E as_completed station_files do_work st in
  Run (outcome loop) (final loop)
    (PoolOpen nproc :: submits station_files ++ events loop
       ++ match outcome loop with inl _ => [Terminate] | inr _ => [] end
       ++ [PoolShutdown]).
Proof.
  unfold process_parallel. rewrite emit_bind.
  unfold try_finally, try_except.
  rewrite (bind_inr _ _ _ tt);
    rewrite (for_each_emit _ _ (λ x, Submit x.1 x.2)); try done;
    try (by intros [??] ?).
  change (for_each as_completed _)
    with (parallel_loop E as_completed station_files do_work).
  fold (submits station_files). simpl.
  destruct (parallel_loop _ _ _ _ st) as [[e|[]] st' evs]; simpl.
  - by rewrite <-!app_assoc.
  - by rewrite <-!app_assoc.
Qed.

Lemma process_cdip_station_run (E : env) (as_completed : list nat)
    (station_folder out_folder : string) (nproc : option Z) (st0 : locals) :
  isdir E (normpath E station_folder) = true →
  station_files_of E station_folder ≠ [] →
  process_cdip_station E as_completed station_folder out_folder nproc st0 =
  let d := dispatch E as_completed station_folder out_folder nproc in
  let pre := dispatch_events E as_completed station_folder out_folder nproc in
  match outcome d with
  | inl e => Run (inl e) (final d) pre
  | inr _ =>
      if existsb file_truthy (result_files (final d)) then
        let g := generate_results (read_pickle_outfile_chunks E)
                   (result_files (final d)) in
        Run (match gen_raised g with Some e => inl e | None => inr tt end)
          (final d)
          (pre ++ [Log Info ProcessingDone;
                   Log Info (WritingOutput (out_file_of E station_folder out_folder));
                   WriteRecords (out_file_of E station_folder out_folder)
                     ("CDIP_" +:+ station_id_of E station_folder)
                     (num_waves_total (final d)) g])
      else
        Run (inr tt) (final d)
          (pre ++ [Log Info ProcessingDone; Log Warning NoFilesProcessed])
  end.
Proof.
  intros Hdir Hfiles. unfold process_cdip_station.
  rewrite Hdir, ret_bind.
  rewrite decide_False by (by intros ?%length_zero_iff_nil).
  unfold dispatch_events, dispatch, out_file_of, do_work_of, station_id_of,
    station_files_of, init_locals.
  cbv zeta.
  set (sf := sorted_glob E _).
  set (n := effective_nproc E nproc (length sf)).
  set (dw := λ filepath : string, get_cdip_wave_records E filepath _ _).
  set (body := if decide (n > 1) then _ else _).
  set (st1 := {| result_files := replicate (length sf) None; num_waves_total := 0 |}).
  rewrite put_bind, emit_bind.
  assert (try_finally
            (emit (PbarOpen (length sf) n) ;; try_finally body (emit PbarClose))
            (emit (StderrNewlines (Z.to_nat (n + 2)))) st1
          = Run (outcome (body st1)) (final (body st1))
              (PbarOpen (length sf) n :: events (body st1)
                 ++ [PbarClose; StderrNewlines (Z.to_nat (n + 2))])) as Hdisp.
  { rewrite try_finally_emit, emit_bind, try_finally_emit. simpl.
    by rewrite <-app_assoc. }
  destruct (outcome (body st1)) as [e|[]] eqn:Hout.
  - rewrite (bind_inl _ _ _ e) by (by rewrite Hdisp).
    rewrite Hdisp. reflexivity.
  - rewrite (bind_inr _ _ _ tt) by (by rewrite Hdisp).
    rewrite Hdisp. cbn [final events outcome].
    rewrite emit_bind, get_bind.
    destruct (existsb file_truthy (result_files (final (body st1)))); cbn [negb].
    + rewrite emit_bind. unfold write_records. rewrite emit_bind.
      destruct (gen_raised _); cbn; by rewrite <-!app_assoc.
    + cbn. by rewrite <-!app_assoc.
Qed.

(** ** The dispatch *)

Lemma logged_flags_submits (station_files : list string) :
  logged_flags (submits station_files) = [].
Proof.
  unfold submits. induction (enumerate station_files) as [|x l IH]; [done|].
  csimpl. exact IH.
Qed.

Lemma quiet_not_write (evs : list event) :
  Forall quiet evs → Forall (λ ev, is_write ev = false) evs.
Proof. intros H. eapply Forall_impl; [exact H|]. by intros ev [??]. Qed.

Lemma submits_not_write (station_files : list string) :
  Forall (λ ev, is_write ev = false) (submits station_files).
Proof. unfold submits. by apply Forall_fmap, Forall_true. Qed.

Lemma init_locals_length (num_inputs : nat) :
  length (result_files (init_locals num_inputs)) = num_inputs.
Proof. apply length_replicate. Qed.

Section Dispatch.
Variable E : env.
Variable as_completed : list nat.
Variables station_folder out_folder : string.
Variable nproc : option Z.

#[local] Abbreviation sf := (station_files_of E station_folder).
#[local] Abbreviation dw := (do_work_of E station_folder out_folder).
#[local] Abbreviation n := (effective_nproc E nproc (length sf)).
#[local] Abbreviation d := (dispatch E as_completed station_folder out_folder nproc).
#[local] Abbreviation order := (handling_order E as_completed station_folder nproc).

Lemma parallel_loop_fold (st : locals) :
  length (result_files st) = length sf →
  Forall quiet (events (parallel_loop E as_completed sf dw st)) ∧
  match fold_units E sf dw as_completed st with
  | inl e => outcome (parallel_loop E as_completed sf dw st) = inl e
  | inr st' =>
      outcome (parallel_loop E as_completed sf dw st) = inr tt
      ∧ final (parallel_loop E as_completed sf dw st) = st'
      ∧ logged_flags (events (parallel_loop E as_completed sf dw st))
        = flat_map (unit_flags E sf dw) as_completed
  end.
Proof.
  intros Hlen. unfold parallel_loop.
  pose proof (for_each_fold E sf dw id (parallel_body E sf dw) as_completed st)
    as Hfold.
  rewrite list_fmap_id in Hfold. apply Hfold; [|done].
  apply Forall_true. intros i. apply parallel_body_handles.
Qed.

Lemma process_sequential_fold (st : locals) :
  length (result_files st) = length sf →
  Forall quiet (events (process_sequential E sf dw st)) ∧
  match fold_units E sf dw (seq 0 (length sf)) st with
  | inl e => outcome (process_sequential E sf dw st) = inl e
  | inr st' =>
      outcome (process_sequential E sf dw st) = inr tt
      ∧ final (process_sequential E sf dw st) = st'
      ∧ logged_flags (events (process_sequential E sf dw st))
        = flat_map (unit_flags E sf dw) (seq 0 (length sf))
  end.
Proof.
  intros Hlen. unfold process_sequential.
  rewrite <-(enumerate_indices sf).
  apply for_each_fold; [|done].
  apply Forall_forall. intros [i f] Hin.
  by apply sequential_body_handles, enumerate_lookup.
Qed.

(** The dispatch does what [fold_units] says, in the order of handling. *)
Lemma dispatch_fold :
  match fold_units E sf dw order (init_locals (length sf)) with
  | inl e => outcome d = inl e
  | inr st' =>
      outcome d = inr tt ∧ final d = st'
      ∧ logged_flags (events d) = flat_map (unit_flags E sf dw) order
  end.
Proof.
  unfold dispatch, handling_order. destruct (decide (n > 1)) as [Hn|Hn].
  - rewrite process_parallel_run. cbn zeta.
    destruct (parallel_loop_fold (init_locals (length sf)))
      as [_ Hloop]; [apply init_locals_length|].
    destruct (fold_units _ _ _ as_completed _) as [e|st']; cbn [outcome final events].
    + done.
    + destruct Hloop as (Hout & Hfin & Hflags). repeat split; try done.
      rewrite Hout. change (PoolOpen n :: ?l) with ([PoolOpen n] ++ l).
      rewrite !logged_flags_app, logged_flags_submits, Hflags. simpl.
      by rewrite app_nil_r.
  - by destruct (process_sequential_fold (init_locals (length sf)))
      as [_ Hloop]; [apply init_locals_length|].
Qed.

Lemma dispatch_no_write : Forall (λ ev, is_write ev = false) (events d).
Proof.
  unfold dispatch. destruct (decide (n > 1)) as [Hn|Hn].
  - rewrite process_parallel_run. cbn zeta. cbn [events].
    destruct (parallel_loop_fold (init_locals (length sf)))
      as [Hq _]; [apply init_locals_length|].
    apply Forall_cons. split; [done|].
    repeat (apply Forall_app; split).
    + apply submits_not_write.
    + by apply quiet_not_write.
    + by destruct (outcome _); repeat constructor.
    + by repeat constructor.
  - destruct (process_sequential_fold (init_locals (length sf)))
      as [Hq _]; [apply init_locals_length|].
    by apply quiet_not_write.
Qed.

(** Without the pool, nothing of the pool shows. *)
Lemma dispatch_sequential_quiet : ¬ n > 1 → Forall quiet (events d).
Proof.
  intros Hn. unfold dispatch. rewrite decide_False by done.
  by destruct (process_sequential_fold (init_locals (length sf)))
    as [Hq _]; [apply init_locals_length|].
Qed.

(** Under the pool, an exception is followed by the termination of the
    workers and by nothing else than leaving the pool. *)
Lemma dispatch_parallel_abort (e : exn) :
  n > 1 → outcome d = inl e →
  ∃ evs, events d = evs ++ [Terminate; PoolShutdown].
Proof.
  intros Hn. unfold dispatch. rewrite decide_True by done.
  rewrite process_parallel_run. cbn zeta. cbn [outcome events].
  intros ->.
  exists (PoolOpen n :: submits sf
            ++ events (parallel_loop E as_completed sf dw (init_locals (length sf)))).
  simpl. by rewrite <-app_assoc.
Qed.

Lemma dispatch_parallel_pool :
  n > 1 → ∃ evs, events d = PoolOpen n :: submits sf ++ evs.
Proof.
  intros Hn. unfold dispatch. rewrite decide_True by done.
  rewrite process_parallel_run. cbn zeta. cbn [events]. by eexists.
Qed.
End Dispatch.

(** ** The whole call *)

Lemma written_app (evs1 evs2 : list event) :
  written (evs1 ++ evs2) = written evs1 ++ written evs2.
Proof. apply filter_app. Qed.

Lemma written_nil (evs : list event) :
  Forall (λ ev, is_write ev = false) evs → written evs = [].
Proof.
  induction 1 as [|ev evs Hev _ IH]; [done|].
  unfold written in *. rewrite filter_cons, decide_False by congruence. exact IH.
Qed.

Lemma existsb_file_truthy_unset (num_inputs : nat) :
  existsb file_truthy (result_files (init_locals num_inputs)) = false.
Proof. induction num_inputs as [|k IH]; [done|exact IH]. Qed.

Lemma stored_chunks_init (read : string → list record_chunk) (num_inputs : nat) :
  stored_chunks read (result_files (init_locals num_inputs)) = [].
Proof. induction num_inputs as [|k IH]; [done|exact IH]. Qed.

Section Process.
Variable E : env.
Variable as_completed : list nat.
Variables station_folder out_folder : string.
Variable nproc : option Z.
Variable st0 : locals.

#[local] Abbreviation sf := (station_files_of E station_folder).
#[local] Abbreviation dw := (do_work_of E station_folder out_folder).
#[local] Abbreviation n := (effective_nproc E nproc (length sf)).
#[local] Abbreviation d := (dispatch E as_completed station_folder out_folder nproc).
#[local] Abbreviation order := (handling_order E as_completed station_folder nproc).
#[local] Abbreviation r :=
  (process_cdip_station E as_completed station_folder out_folder nproc st0).

Lemma handling_order_perm :
  as_completed ≡ₚ seq 0 (length sf) → order ≡ₚ seq 0 (length sf).
Proof. intros Hperm. unfold handling_order. by case_decide. Qed.

Lemma handling_order_lookup (i : nat) :
  as_completed ≡ₚ seq 0 (length sf) →
  i ∈ order → ∃ f, sf !! i = Some f.
Proof.
  intros Hperm Hin. rewrite (handling_order_perm Hperm) in Hin.
  apply elem_of_seq in Hin as [_ Hlt]. by apply lookup_lt_is_Some_2.
Qed.

Lemma written_dispatch_events :
  written (dispatch_events E as_completed station_folder out_folder nproc) = [].
Proof.
  unfold dispatch_events. cbv zeta. rewrite !written_app.
  rewrite (written_nil _ (dispatch_no_write E as_completed station_folder
                            out_folder nproc)).
  reflexivity.
Qed.

Lemma process_cdip_station_not_dir :
  isdir E (normpath E station_folder) = false →
  r = Run (inl AssertionError) st0 [].
Proof. intros Hdir. unfold process_cdip_station. by rewrite Hdir, raise_bind. Qed.

Lemma process_cdip_station_raised (e : exn) :
  isdir E (normpath E station_folder) = true → sf ≠ [] →
  outcome d = inl e →
  r = Run (inl e) (final d)
        (dispatch_events E as_completed station_folder out_folder nproc).
Proof.
  intros Hdir Hfiles Hout. rewrite process_cdip_station_run by done.
  cbv zeta. by rewrite Hout.
Qed.

(** C9. With no station file in the folder, the call raises the
    [RuntimeError] at once: no event precedes it (no log line, no progress
    bar, no pool, no submission, no call of the computation) and the
    locals are untouched. *)
Theorem no_station_files_is_an_error :
  isdir E (normpath E station_folder) = true →
  station_files_of E station_folder = [] →
  process_cdip_station E as_completed station_folder out_folder nproc st0
  = Run (inl (RuntimeError
                "Given input folder does not contain any valid station files"))
      st0 [].
Proof.
  intros Hdir Hfiles. unfold process_cdip_station. rewrite Hdir, ret_bind.
  rewrite decide_True; [done|].
  change (length (station_files_of E station_folder) = 0%nat). by rewrite Hfiles.
Qed.

(** C8. When the computation of every station file returns the pair
    [(None, None)], the call returns normally: it logs the warning that no
    file was processed, never calls the dataset writer, and every slot of
    [result_files] is left unset. *)
Theorem all_units_skipped :
  isdir E (normpath E station_folder) = true →
  station_files_of E station_folder ≠ [] →
  as_completed ≡ₚ seq 0 (length (station_files_of E station_folder)) →
  Forall (λ f, do_work_of E station_folder out_folder f = inr (None, None))
    (station_files_of E station_folder) →
  outcome (process_cdip_station E as_completed station_folder out_folder nproc st0)
  = inr tt
  ∧ Log Warning NoFilesProcessed ∈
      events (process_cdip_station E as_completed station_folder out_folder nproc st0)
  ∧ written
      (events (process_cdip_station E as_completed station_folder out_folder nproc st0))
    = []
  ∧ result_files
      (final (process_cdip_station E as_completed station_folder out_folder nproc st0))
    = replicate (length (station_files_of E station_folder)) None.
Proof.
  intros Hdir Hfiles Hperm Hskip.
  assert (Forall (λ j, unit_outcome E sf dw j = inr None) order) as Hunits.
  { apply Forall_forall. intros i Hi.
    destruct (handling_order_lookup i Hperm Hi) as [f Hf].
    unfold unit_outcome. rewrite Hf.
    rewrite Forall_forall in Hskip. rewrite (Hskip f); [done|].
    by eapply list_elem_of_lookup_2. }
  pose proof (dispatch_fold E as_completed station_folder out_folder nproc) as Hd.
  rewrite (fold_units_all_skipped _ _ _ _ _ Hunits) in Hd.
  destruct Hd as (Hout & Hfin & _).
  rewrite process_cdip_station_run by done. cbv zeta.
  rewrite Hout, Hfin, existsb_file_truthy_unset. cbn [outcome events final].
  split; [done|]. split; [|split].
  - apply elem_of_app. right. apply list_elem_of_In. simpl. tauto.
  - by rewrite written_app, written_dispatch_events.
  - done.
Qed.

(** The end of the call, from the end of the dispatch. *)
Lemma process_cdip_station_summary :
  isdir E (normpath E station_folder) = true → sf ≠ [] →
  final r = final d
  ∧ outcome r
    = match outcome d with
      | inl e => inl e
      | inr _ => epilogue_outcome E (final d)
      end
  ∧ written (events r)
    = match outcome d with
      | inl _ => []
      | inr _ => epilogue_written E station_folder out_folder (final d)
      end.
Proof.
  intros Hdir Hfiles. rewrite process_cdip_station_run by done. cbv zeta.
  unfold epilogue_outcome, epilogue_written.
  destruct (outcome d) as [e|[]]; cbn [outcome final events].
  - by rewrite written_dispatch_events.
  - destruct (existsb file_truthy _); cbn [outcome final events];
      by rewrite written_app, written_dispatch_events.
Qed.

Lemma effective_nproc_le (num_inputs : nat) :
  effective_nproc E nproc num_inputs ≤ Z.of_nat num_inputs.
Proof. unfold effective_nproc. lia. Qed.

Lemma pool_needs_files : n > 1 → sf ≠ [].
Proof.
  intros Hn Hnil. pose proof (effective_nproc_le (length sf)) as Hle.
  rewrite Hnil in *. simpl in *. lia.
Qed.

(** When the dataset writer is called, the total that the counting loops
    of [handle_result] accumulated is the value that [current_wave_id]
    reaches in the generator, which ends without an exception and yields
    the identifiers from 0 up to that total. *)
Lemma writer_total_agrees (out_file station_name : string)
    (total : Z) (g : gen_result) :
  isdir E (normpath E station_folder) = true →
  station_files_of E station_folder ≠ [] →
  as_completed ≡ₚ seq 0 (length (station_files_of E station_folder)) →
  WriteRecords out_file station_name total g ∈
    events (process_cdip_station E as_completed station_folder out_folder nproc st0) →
  gen_raised g = None
  ∧ current_wave_id g = total
  ∧ total = num_waves_total
              (final (process_cdip_station E as_completed station_folder
                        out_folder nproc st0))
  ∧ total = total_records (read_pickle_outfile_chunks E)
              (result_files
                 (final (process_cdip_station E as_completed station_folder
                           out_folder nproc st0)))
  ∧ flat_map chunk_ids (yielded g) = seqZ 0 total.
Proof.
  intros Hdir Hfiles Hperm Hin.
  destruct (process_cdip_station_summary Hdir Hfiles) as (Hfin & _ & Hwr).
  assert (WriteRecords out_file station_name total g ∈ written (events r)) as Hw
    by (by apply list_elem_of_filter).
  rewrite Hwr in Hw. rewrite Hfin. clear Hwr Hfin Hin.
  pose proof (dispatch_fold E as_completed station_folder out_folder nproc) as Hd.
  destruct (outcome d) as [e|[]].
  { by apply elem_of_nil in Hw. }
  destruct (fold_units E sf dw order (init_locals (length sf)))
    as [e|st'] eqn:Hfold; [done|].
  destruct Hd as (_ & <- & _).
  unfold epilogue_written in Hw.
  destruct (existsb file_truthy _); [|by apply elem_of_nil in Hw].
  apply list_elem_of_singleton in Hw. injection Hw as -> -> -> ->.
  destruct (fold_units_totals E sf dw _ _ _ Hfold) as [Hwf Htot].
  - rewrite (handling_order_perm Hperm). apply NoDup_seq.
  - apply Forall_forall. intros i Hi.
    rewrite (handling_order_perm Hperm) in Hi. apply elem_of_seq in Hi as [_ Hi].
    apply lookup_replicate. split; [done|]. simpl in Hi. lia.
  - rewrite stored_chunks_init. constructor.
  - assert (total_records (read_pickle_outfile_chunks E)
              (result_files (init_locals (length sf))) = 0) as Hzero
      by (unfold total_records; by rewrite stored_chunks_init).
    rewrite Hzero in Htot. cbn [init_locals num_waves_total] in Htot.
    unfold generate_results. rewrite generate_files_renumber by done.
    cbn [gen_raised current_wave_id yielded].
    rewrite renumber_ids. fold (total_records (read_pickle_outfile_chunks E)
                                  (result_files (final d))).
    assert (total_records (read_pickle_outfile_chunks E) (result_files (final d))
            = num_waves_total (final d)) as -> by lia.
    repeat split; done.
Qed.
End Process.

Lemma ex_completion_order : [2; 0; 1]%nat ≡ₚ seq 0 3.
Proof. apply (Permutation_cons_append [0; 1]%nat 2%nat). Qed.

Lemma no_station_files_is_an_error_witness :
  isdir ex_env_empty (normpath ex_env_empty "/cdip/067") = true
  ∧ station_files_of ex_env_empty "/cdip/067" = []
  ∧ process_cdip_station ex_env_empty [] "/cdip/067" "/out" None no_locals
    = Run (inl (RuntimeError
                  "Given input folder does not contain any valid station files"))
        no_locals [].
Proof.
  split; [reflexivity|]. split; [reflexivity|].
  apply no_station_files_is_an_error; reflexivity.
Defined.

Lemma all_units_skipped_witness :
  isdir ex_env_skipped (normpath ex_env_skipped "/cdip/067") = true
  ∧ station_files_of ex_env_skipped "/cdip/067" ≠ []
  ∧ [2; 0; 1]%nat ≡ₚ seq 0 (length (station_files_of ex_env_skipped "/cdip/067"))
  ∧ Forall (λ f, do_work_of ex_env_skipped "/cdip/067" "/out" f = inr (None, None))
      (station_files_of ex_env_skipped "/cdip/067")
  ∧ outcome (process_cdip_station ex_env_skipped [2; 0; 1]%nat "/cdip/067" "/out"
               (Some 4) no_locals) = inr tt
  ∧ written (events (process_cdip_station ex_env_skipped [2; 0; 1]%nat "/cdip/067"
                       "/out" (Some 4) no_locals)) = [].
Proof.
  assert (station_files_of ex_env_skipped "/cdip/067" ≠ []) as Hfiles by done.
  assert (Forall (λ f, do_work_of ex_env_skipped "/cdip/067" "/out" f
                       = inr (None, None))
            (station_files_of ex_env_skipped "/cdip/067")) as Hskip
    by (repeat constructor).
  split; [reflexivity|]. split; [exact Hfiles|].
  split; [exact ex_completion_order|]. split; [exact Hskip|].
  destruct (all_units_skipped ex_env_skipped [2; 0; 1]%nat "/cdip/067" "/out"
              (Some 4) no_locals eq_refl Hfiles ex_completion_order Hskip)
    as (Hout & _ & Hwr & _).
  by split.
Defined.

(** C7. Whenever the call reaches the dataset writer, the total of the
    counting loops ([num_waves_total], with which the progress bar of the
    generator is created) equals the number of identifiers that the
    generator assigns (the last value of [current_wave_id]); the generator
    ends without an exception. For the three deployments with chunks of
    2, 0 and 3 records, no data, and a chunk of 1 record, both are 6 and
    the identifiers are 0 to 5, without and with the pool. *)
Theorem counted_total_is_merged_total :
  (∀ (E : env) (as_completed : list nat) (station_folder out_folder : string)
     (nproc : option Z) (st0 : locals) (out_file station_name : string)
     (total : Z) (g : gen_result),
     isdir E (normpath E station_folder) = true →
     station_files_of E station_folder ≠ [] →
     as_completed ≡ₚ seq 0 (length (station_files_of E station_folder)) →
     WriteRecords out_file station_name total g ∈
       events (process_cdip_station E as_completed station_folder out_folder
                 nproc st0) →
     gen_raised g = None
     ∧ current_wave_id g = total
     ∧ total = num_waves_total
                 (final (process_cdip_station E as_completed station_folder
                           out_folder nproc st0)))
  ∧ (∀ nproc, nproc = Some 1 ∨ nproc = Some 4 →
     ∃ g,
       written (events (process_cdip_station ex_env [2; 0; 1]%nat "/cdip/067"
                          "/out" nproc no_locals))
       = [WriteRecords "/out/fowd_cdip_067.nc" "CDIP_067" 6 g]
       ∧ current_wave_id g = 6
       ∧ chunk_ids <$> yielded g = [[0; 1]; [2; 3; 4]; [5]]
       ∧ num_waves_total
           (final (process_cdip_station ex_env [2; 0; 1]%nat "/cdip/067" "/out"
                     nproc no_locals)) = 6).
Proof.
  split.
  - intros E as_completed station_folder out_folder nproc st0 out_file
      station_name total g Hdir Hfiles Hperm Hin.
    destruct (writer_total_agrees E as_completed station_folder
                out_folder nproc st0 out_file station_name total g
                Hdir Hfiles Hperm Hin) as (? & ? & ? & _).
    done.
  - intros nproc [-> | ->]; eexists; (split; [vm_compute; reflexivity|]);
      by vm_compute.
Qed.

Lemma counted_total_is_merged_total_witness :
  isdir ex_env (normpath ex_env "/cdip/067") = true
  ∧ station_files_of ex_env "/cdip/067" ≠ []
  ∧ [2; 0; 1]%nat ≡ₚ seq 0 (length (station_files_of ex_env "/cdip/067"))
  ∧ ∀ out_file station_name total g,
      WriteRecords out_file station_name total g ∈
        events (process_cdip_station ex_env [2; 0; 1]%nat "/cdip/067" "/out"
                  (Some 4) no_locals) →
      current_wave_id g = total
      ∧ total = num_waves_total
                  (final (process_cdip_station ex_env [2; 0; 1]%nat "/cdip/067"
                            "/out" (Some 4) no_locals)).
Proof.
  assert (station_files_of ex_env "/cdip/067" ≠ []) as Hfiles by done.
  split; [reflexivity|]. split; [exact Hfiles|].
  split; [exact ex_completion_order|].
  intros out_file station_name total g Hin.
  destruct (proj1 counted_total_is_merged_total ex_env [2; 0; 1]%nat "/cdip/067"
              "/out" (Some 4) no_locals out_file station_name total g
              eq_refl Hfiles ex_completion_order Hin) as (_ & ? & ?).
  by split.
Defined.

(** C5. The merged output does not depend on the size of the pool nor on
    the order of completion: a call that takes the sequential branch and a
    call that takes the branch of the pool, with any order of completion,
    hand the same stream with the same arguments to the dataset writer (or
    both do not call it), and both raise or both return with the same
    [result_files] and the same [num_waves_total]. *)
Theorem pool_size_invariance (E : env) (order1 order2 : list nat)
    (station_folder out_folder : string) (nproc1 nproc2 : option Z)
    (st1 st2 : locals) :
  ¬ effective_nproc E nproc1 (length (station_files_of E station_folder)) > 1 →
  effective_nproc E nproc2 (length (station_files_of E station_folder)) > 1 →
  order2 ≡ₚ seq 0 (length (station_files_of E station_folder)) →
  written (events (process_cdip_station E order1 station_folder out_folder
                     nproc1 st1))
  = written (events (process_cdip_station E order2 station_folder out_folder
                       nproc2 st2))
  ∧ same_result
      (result_of (process_cdip_station E order1 station_folder out_folder
                    nproc1 st1))
      (result_of (process_cdip_station E order2 station_folder out_folder
                    nproc2 st2)).
Proof.
  intros Hn1 Hn2 Hperm.
  destruct (isdir E (normpath E station_folder)) eqn:Hdir.
  2: { by rewrite !process_cdip_station_not_dir. }
  pose proof (pool_needs_files E station_folder nproc2 Hn2) as Hfiles.
  destruct (process_cdip_station_summary E order1 station_folder out_folder
              nproc1 st1 Hdir Hfiles) as (Hfin1 & Hout1 & Hwr1).
  destruct (process_cdip_station_summary E order2 station_folder out_folder
              nproc2 st2 Hdir Hfiles) as (Hfin2 & Hout2 & Hwr2).
  pose proof (dispatch_fold E order1 station_folder out_folder nproc1) as Hd1.
  pose proof (dispatch_fold E order2 station_folder out_folder nproc2) as Hd2.
  unfold handling_order in Hd1, Hd2.
  rewrite decide_False in Hd1 by done. rewrite decide_True in Hd2 by done.
  pose proof (fold_units_perm E (station_files_of E station_folder)
                (do_work_of E station_folder out_folder) _ _ Hperm
                (init_locals (length (station_files_of E station_folder))))
    as Hsame.
  unfold result_of. rewrite Hwr1, Hwr2, Hout1, Hout2, Hfin1, Hfin2.
  destruct (fold_units _ _ _ (seq _ _) _) as [e1|st'],
           (fold_units _ _ _ order2 _) as [e2|st'']; simpl in Hsame; try done.
  - by rewrite Hd1, Hd2.
  - destruct Hd1 as (-> & -> & _), Hd2 as (-> & -> & _). subst st''.
    split; [done|]. by destruct (epilogue_outcome E st').
Qed.

Lemma pool_size_invariance_witness :
  ¬ effective_nproc ex_env (Some 1)
      (length (station_files_of ex_env "/cdip/067")) > 1
  ∧ effective_nproc ex_env (Some 4)
      (length (station_files_of ex_env "/cdip/067")) > 1
  ∧ [2; 0; 1]%nat ≡ₚ seq 0 (length (station_files_of ex_env "/cdip/067"))
  ∧ written (events (process_cdip_station ex_env [] "/cdip/067" "/out"
                       (Some 1) no_locals))
    = written (events (process_cdip_station ex_env [2; 0; 1]%nat "/cdip/067" "/out"
                         (Some 4) no_locals)).
Proof.
  assert (¬ effective_nproc ex_env (Some 1)
              (length (station_files_of ex_env "/cdip/067")) > 1) as Hn1 by done.
  split; [exact Hn1|]. split; [reflexivity|].
  split; [exact ex_completion_order|].
  exact (proj1 (pool_size_invariance ex_env [] [2; 0; 1]%nat "/cdip/067" "/out"
                  (Some 1) (Some 4) no_locals no_locals Hn1 eq_refl
                  ex_completion_order)).
Defined.

(** ** Calls of the computation and logged flag counts *)

Lemma calls_app (evs1 evs2 : list event) :
  calls (evs1 ++ evs2) = calls evs1 ++ calls evs2.
Proof. apply flat_map_app. Qed.

Lemma calls_flag_events (flags : list (string * Z)) :
  calls (flag_events flags) = [].
Proof. induction flags as [|kv flags IH]; [done|exact IH]. Qed.

Lemma calls_quiet_handler (E : env) (station_files : list string) (i : nat)
    (result : option string * option string) (st : locals) (filename : string) :
  station_files !! i = Some filename →
  length (result_files st) = length station_files →
  calls (events (handle_result E station_files i result st)) = [].
Proof.
  intros Hfile Hlen.
  assert (i < length (result_files st))%nat as Hi
    by (rewrite Hlen; by eapply lookup_lt_Some).
  rewrite (handle_result_run _ _ _ _ _ _ Hfile Hi).
  destruct result as [[result_file|] [state_file|]]; try done.
  destruct (count_waves _ 0); [done|].
  cbn [events]. rewrite calls_app, calls_flag_events. done.
Qed.

Lemma flag_sum_app (key : string) (l1 l2 : list (string * Z)) :
  flag_sum key (l1 ++ l2) = flag_sum key l1 + flag_sum key l2.
Proof. unfold flag_sum. by rewrite flat_map_app, sumZ_app. Qed.

Lemma flag_sum_flat_map {A : Type} (key : string) (f : A → list (string * Z))
    (l : list A) :
  flag_sum key (flat_map f l) = sumZ ((λ x, flag_sum key (f x)) <$> l).
Proof.
  induction l as [|x l IH]; [done|].
  csimpl. rewrite flag_sum_app, IH. done.
Qed.

Lemma sumZ_perm (l1 l2 : list Z) : l1 ≡ₚ l2 → sumZ l1 = sumZ l2.
Proof.
  unfold sumZ. induction 1 as [|x l l' _ IH|x y l|l l' l'' _ IH1 _ IH2]; simpl; lia.
Qed.

Section Sequential.
Variable E : env.
Variable station_files : list string.
Variable do_work : string → exn + (option string * option string).

Lemma sequential_body_calls (i : nat) (station_file : string) (st : locals) :
  station_files !! i = Some station_file →
  length (result_files st) = length station_files →
  calls (events ((emit (Call station_file) ;;
                  result ← lift (do_work station_file) ;
                  handle_result E station_files i result) st))
  = [station_file].
Proof.
  intros Hfile Hlen. rewrite emit_bind. cbn [events].
  destruct (do_work station_file) as [e|result].
  - by rewrite lift_inl_bind.
  - rewrite lift_inr_bind. change (calls (Call station_file :: ?evs))
      with (station_file :: calls evs).
    by rewrite (calls_quiet_handler _ _ _ _ _ station_file).
Qed.

(** The sequential loop calls the computation on the station files in
    their order, up to the first exception. *)
Lemma for_each_calls (l : list (nat * string)) (st : locals) :
  Forall (λ x, station_files !! x.1 = Some x.2) l →
  length (result_files st) = length station_files →
  calls (events (for_each l (λ '(i, station_file),
                   emit (Call station_file) ;;
                   result ← lift (do_work station_file) ;
                   handle_result E station_files i result) st))
    `prefix_of` l.*2
  ∧ (outcome (for_each l (λ '(i, station_file),
                emit (Call station_file) ;;
                result ← lift (do_work station_file) ;
                handle_result E station_files i result) st) = inr tt →
     calls (events (for_each l (λ '(i, station_file),
                      emit (Call station_file) ;;
                      result ← lift (do_work station_file) ;
                      handle_result E station_files i result) st))
     = l.*2).
Proof.
  intros Hl. revert st. induction Hl as [|[i f] l Hf _ IH]; intros st Hlen.
  - split; [done|]. done.
  - rewrite for_each_cons. simpl in Hf.
    pose proof (sequential_body_calls i f st Hf Hlen) as Hcalls.
    destruct (sequential_body_handles E station_files do_work i f Hf st Hlen)
      as [_ Hr].
    destruct (unit_outcome E station_files do_work i) as [e|o].
    + destruct Hr as [Hout _]. rewrite (bind_inl _ _ _ _ Hout).
      cbn [events outcome]. rewrite Hcalls. split; [|done].
      csimpl. apply prefix_cons, prefix_nil.
    + destruct Hr as (Hout & Hfin & _). rewrite (bind_inr _ _ _ _ Hout).
      cbn [events outcome]. rewrite calls_app, Hcalls, Hfin.
      destruct (IH (unit_store i o st)) as [Hpre Heq];
        [by rewrite unit_store_length|].
      csimpl. split; [by apply prefix_cons|].
      intros Hok. by rewrite (Heq Hok).
Qed.

Lemma process_sequential_calls (st : locals) :
  length (result_files st) = length station_files →
  calls (events (process_sequential E station_files do_work st))
    `prefix_of` station_files
  ∧ (outcome (process_sequential E station_files do_work st) = inr tt →
     calls (events (process_sequential E station_files do_work st))
     = station_files).
Proof.
  intros Hlen. unfold process_sequential.
  pose proof (for_each_calls (enumerate station_files) st) as Hcalls.
  rewrite enumerate_files in Hcalls. apply Hcalls; [|done].
  apply Forall_forall. intros [i f] Hin. by apply enumerate_lookup.
Qed.
End Sequential.

Section Reports.
Variable E : env.
Variable as_completed : list nat.
Variables station_folder out_folder : string.
Variable nproc : option Z.
Variable st0 : locals.

#[local] Abbreviation sf := (station_files_of E station_folder).
#[local] Abbreviation dw := (do_work_of E station_folder out_folder).
#[local] Abbreviation n := (effective_nproc E nproc (length sf)).
#[local] Abbreviation d := (dispatch E as_completed station_folder out_folder nproc).
#[local] Abbreviation r :=
  (process_cdip_station E as_completed station_folder out_folder nproc st0).

(** What follows the dispatch adds no call of the computation, no flag
    count and no event of the pool. *)
Lemma process_cdip_station_events :
  isdir E (normpath E station_folder) = true → sf ≠ [] →
  ∃ before after,
    events r = before ++ events d ++ after
    ∧ calls before = [] ∧ calls after = []
    ∧ logged_flags before = [] ∧ logged_flags after = []
    ∧ Forall (λ ev, is_pool ev = false) before
    ∧ Forall (λ ev, is_pool ev = false) after.
Proof.
  intros Hdir Hfiles. rewrite process_cdip_station_run by done. cbv zeta.
  unfold dispatch_events. cbv zeta.
  destruct (outcome d) as [e|[]]; [|destruct (existsb file_truthy _)];
    cbn [events]; rewrite <-?app_assoc;
    do 2 eexists; (split; [reflexivity|]);
    repeat split; cbn; by repeat constructor.
Qed.

(** C2, as the code has it. The number of workers is the minimum of the
    requested count and the number of station files, the requested count
    being the number of cores when none is given; the number of cores
    bounds it in that case only. Above 1, the pool is opened with that many
    workers. Otherwise there is no pool: no event of the pool occurs and
    the computation is called in this process on the station files in their
    order (on all of them when the call returns). *)
Theorem effective_worker_count :
  isdir E (normpath E station_folder) = true →
  station_files_of E station_folder ≠ [] →
  effective_nproc E nproc (length (station_files_of E station_folder))
  = Z.min (default (cpu_count E) nproc)
      (Z.of_nat (length (station_files_of E station_folder)))
  ∧ (effective_nproc E nproc (length (station_files_of E station_folder)) > 1 →
     PoolOpen (effective_nproc E nproc (length (station_files_of E station_folder)))
       ∈ events (process_cdip_station E as_completed station_folder out_folder
                   nproc st0))
  ∧ (¬ effective_nproc E nproc (length (station_files_of E station_folder)) > 1 →
     Forall (λ ev, is_pool ev = false)
       (events (process_cdip_station E as_completed station_folder out_folder
                  nproc st0))
     ∧ calls (events (process_cdip_station E as_completed station_folder
                        out_folder nproc st0))
         `prefix_of` station_files_of E station_folder
     ∧ (outcome (process_cdip_station E as_completed station_folder out_folder
                   nproc st0) = inr tt →
        calls (events (process_cdip_station E as_completed station_folder
                         out_folder nproc st0))
        = station_files_of E station_folder)).
Proof.
  intros Hdir Hfiles. split; [unfold effective_nproc; by destruct nproc|].
  destruct (process_cdip_station_events Hdir Hfiles)
    as (before & after & Hev & Hcb & Hca & _ & _ & Hpb & Hpa).
  split.
  - intros Hn.
    destruct (dispatch_parallel_pool E as_completed station_folder out_folder
                nproc Hn) as [evs Hevs].
    rewrite Hev, Hevs. apply elem_of_app. right. apply list_elem_of_here.
  - intros Hn.
    destruct (process_cdip_station_summary E as_completed station_folder
                out_folder nproc st0 Hdir Hfiles) as (_ & Hout & _).
    rewrite Hev, !calls_app, Hcb, Hca, app_nil_r, Hout. simpl.
    pose proof (dispatch_sequential_quiet E as_completed station_folder
                  out_folder nproc Hn) as Hq.
    assert (d = process_sequential E sf dw (init_locals (length sf))) as Hd
      by (unfold dispatch; by rewrite decide_False).
    destruct (process_sequential_calls E sf dw (init_locals (length sf)))
      as [Hpre Hall]; [apply init_locals_length|].
    rewrite <-Hd in Hpre, Hall. split; [|split].
    + repeat (apply Forall_app; split); try done.
      eapply Forall_impl; [exact Hq|]. by intros ev [??].
    + done.
    + intros Hok. apply Hall. by destruct (outcome d) as [e|[]].
Qed.

(** C6, as the code has it. The handler logs, for every unit that is not
    skipped, the flag counts of the state summary of that unit, one line
    for each flag, and keeps no mapping of cumulative counts: in a call that
    returns, the flag counts logged are those of the units, in the order of
    handling, so that for every flag the sum of the logged counts is the
    arithmetic sum of the counts of the units. *)
Theorem flag_counts_logged_per_unit :
  isdir E (normpath E station_folder) = true →
  station_files_of E station_folder ≠ [] →
  as_completed ≡ₚ seq 0 (length (station_files_of E station_folder)) →
  outcome (process_cdip_station E as_completed station_folder out_folder nproc st0)
  = inr tt →
  logged_flags
    (events (process_cdip_station E as_completed station_folder out_folder
               nproc st0))
  = flat_map
      (unit_flags E (station_files_of E station_folder)
         (do_work_of E station_folder out_folder))
      (handling_order E as_completed station_folder nproc)
  ∧ ∀ key,
      flag_sum key
        (logged_flags
           (events (process_cdip_station E as_completed station_folder
                      out_folder nproc st0)))
      = batch_flag_total E (station_files_of E station_folder)
          (do_work_of E station_folder out_folder) key.
Proof.
  intros Hdir Hfiles Hperm Hok.
  destruct (process_cdip_station_events Hdir Hfiles)
    as (before & after & Hev & _ & _ & Hfb & Hfa & _ & _).
  destruct (process_cdip_station_summary E as_completed station_folder
              out_folder nproc st0 Hdir Hfiles) as (_ & Hout & _).
  rewrite Hok in Hout.
  pose proof (dispatch_fold E as_completed station_folder out_folder nproc) as Hd.
  destruct (fold_units _ _ _ _ _) as [e|st'].
  { rewrite Hd in Hout. done. }
  destruct Hd as (_ & _ & Hflags).
  assert (logged_flags (events r)
          = flat_map (unit_flags E sf dw)
              (handling_order E as_completed station_folder nproc)) as Hlog.
  { rewrite Hev, !logged_flags_app, Hfb, Hfa, app_nil_r. exact Hflags. }
  split; [exact Hlog|].
  intros key. rewrite Hlog, flag_sum_flat_map. unfold batch_flag_total.
  apply sumZ_perm, fmap_Permutation.
  by apply handling_order_perm.
Qed.
End Reports.

Lemma effective_worker_count_witness :
  isdir ex_env (normpath ex_env "/cdip/067") = true
  ∧ station_files_of ex_env "/cdip/067" ≠ []
  ∧ effective_nproc ex_env None (length (station_files_of ex_env "/cdip/067")) = 2
  ∧ PoolOpen 2 ∈ events (process_cdip_station ex_env [2; 0; 1]%nat "/cdip/067"
                           "/out" None no_locals).
Proof.
  assert (station_files_of ex_env "/cdip/067" ≠ []) as Hfiles by done.
  split; [reflexivity|]. split; [exact Hfiles|].
  destruct (effective_worker_count ex_env [2; 0; 1]%nat "/cdip/067" "/out" None
              no_locals eq_refl Hfiles) as (_ & Hpool & _).
  split; [reflexivity|]. by apply Hpool.
Defined.

(** C2 as stated fails: with 3 workers requested for 3 station files on a
    machine of 2 cores, the pool is opened with 3 workers, not with
    [min(3, 3, 2) = 2]. *)
Lemma worker_count_exceeds_cores :
  effective_nproc ex_env (Some 3) (length (station_files_of ex_env "/cdip/067"))
  ≠ Z.min (Z.min 3 (Z.of_nat (length (station_files_of ex_env "/cdip/067"))))
      (cpu_count ex_env)
  ∧ PoolOpen 3 ∈ events (process_cdip_station ex_env [2; 0; 1]%nat "/cdip/067"
                           "/out" (Some 3) no_locals)
  ∧ PoolOpen 2 ∉ events (process_cdip_station ex_env [2; 0; 1]%nat "/cdip/067"
                           "/out" (Some 3) no_locals).
Proof.
  split; [done|]. split.
  - apply (list_elem_of_lookup_2 _ 2%nat). reflexivity.
  - intros Hin%list_elem_of_In. vm_compute in Hin.
    repeat (destruct Hin as [Hin|Hin]; [discriminate Hin|]). exact Hin.
Qed.

Lemma flag_counts_logged_per_unit_witness :
  isdir ex_env (normpath ex_env "/cdip/067") = true
  ∧ station_files_of ex_env "/cdip/067" ≠ []
  ∧ [2; 0; 1]%nat ≡ₚ seq 0 (length (station_files_of ex_env "/cdip/067"))
  ∧ outcome (process_cdip_station ex_env [2; 0; 1]%nat "/cdip/067" "/out" (Some 4)
               no_locals) = inr tt
  ∧ logged_flags (events (process_cdip_station ex_env [2; 0; 1]%nat "/cdip/067"
                            "/out" (Some 4) no_locals))
    = [("a", 2); ("b", 0); ("a", 1); ("b", 4)].
Proof.
  assert (station_files_of ex_env "/cdip/067" ≠ []) as Hfiles by done.
  split; [reflexivity|]. split; [exact Hfiles|].
  split; [exact ex_completion_order|]. split; [reflexivity|].
  destruct (flag_counts_logged_per_unit ex_env [2; 0; 1]%nat "/cdip/067" "/out"
              (Some 4) no_locals eq_refl Hfiles ex_completion_order eq_refl)
    as [-> _].
  reflexivity.
Defined.

(** C6 as stated fails: the two deployments that are not skipped fired the
    flag [a] once and twice, 3 times in all, and the call reports the
    counts 1 and 2 of the units: no count of 3 is ever reported, and the
    locals hold no mapping of flags. *)
Lemma flag_totals_not_accumulated :
  batch_flag_total ex_env (station_files_of ex_env "/cdip/067")
    (do_work_of ex_env "/cdip/067" "/out") "a" = 3
  ∧ logged_flags (events (process_cdip_station ex_env [] "/cdip/067" "/out"
                            (Some 1) no_locals))
    = [("a", 1); ("b", 4); ("a", 2); ("b", 0)]
  ∧ ∀ lvl, Log lvl (FlagCount "a" 3) ∉
      events (process_cdip_station ex_env [] "/cdip/067" "/out" (Some 1) no_locals).
Proof.
  split; [reflexivity|]. split; [reflexivity|].
  intros lvl Hin%list_elem_of_In. vm_compute in Hin.
  repeat (destruct Hin as [Hin|Hin]; [discriminate Hin|]). exact Hin.
Qed.

(** ** More on the generator *)

Lemma chunk_truthy_insert (key : string) (v : list Z) (c : record_chunk) :
  chunk_truthy (<[key := v]> c) = true.
Proof. apply bool_decide_eq_true. apply insert_non_empty. Qed.

Lemma has_ids_insert (v : list Z) (c : record_chunk) :
  has_ids (<["wave_id_local" := v]> c).
Proof. exists v. apply lookup_insert_eq. Qed.

Lemma generate_chunks_contiguous (chunks : list record_chunk) (cur : Z)
    (k : Z → gen_result) :
  (∀ cur', contiguous_from cur' (k cur')) →
  contiguous_from cur (generate_chunks chunks cur k).
Proof.
  intros Hk. revert cur. induction chunks as [|c chunks IH]; intros cur; simpl.
  - apply Hk.
  - destruct (chunk_truthy c); simpl; [|apply IH].
    destruct (c !! "wave_id_local") as [ids|].
    + destruct (IH (cur + Z.of_nat (length ids))) as (Hle & Hids & Hall & Hexn).
      unfold contiguous_from. cbn [gen_yield yielded current_wave_id gen_raised].
      split; [lia|]. split; [|split; [|done]].
      * csimpl. rewrite chunk_ids_insert, Hids.
        replace (current_wave_id (generate_chunks chunks
                   (cur + Z.of_nat (length ids)) k) - cur)
          with (Z.of_nat (length ids)
                + (current_wave_id (generate_chunks chunks
                     (cur + Z.of_nat (length ids)) k)
                   - (cur + Z.of_nat (length ids)))) by lia.
        symmetry. apply seqZ_app; lia.
      * apply Forall_cons. split; [|done].
        split; [apply chunk_truthy_insert|apply has_ids_insert].
    + unfold contiguous_from. cbn [yielded current_wave_id gen_raised].
      rewrite Z.sub_diag. split; [lia|]. split; [done|]. split; [done|by right].
Qed.

Lemma generate_files_contiguous (read : string → list record_chunk)
    (result_files : list (option string)) (cur : Z) :
  contiguous_from cur (generate_files read result_files cur).
Proof.
  revert cur. induction result_files as [|[path|] result_files IH]; intros cur.
  - unfold contiguous_from. simpl. rewrite Z.sub_diag.
    split; [lia|]. split; [done|]. split; [done|by left].
  - simpl. by apply generate_chunks_contiguous.
  - apply IH.
Qed.

(** X1. Whatever the stores hold, malformed chunks included, and whether
    the generator ends normally or by an exception, the identifiers of
    the chunks yielded up to that point are [0, 1, ...] without gap up to
    the value that [current_wave_id] has reached; every yielded chunk is a
    non-empty dict that carries [wave_id_local]; and the only exception
    the generator itself raises is the [KeyError] for that field. *)
Theorem generate_results_always_contiguous (read : string → list record_chunk)
    (result_files : list (option string)) :
  0 ≤ current_wave_id (generate_results read result_files)
  ∧ flat_map chunk_ids (yielded (generate_results read result_files))
    = seqZ 0 (current_wave_id (generate_results read result_files))
  ∧ Forall (λ c, chunk_truthy c = true ∧ has_ids c)
      (yielded (generate_results read result_files))
  ∧ (gen_raised (generate_results read result_files) = None
     ∨ gen_raised (generate_results read result_files)
       = Some (KeyError "wave_id_local")).
Proof.
  destruct (generate_files_contiguous read result_files 0)
    as (Hle & Hids & Hall & Hexn).
  unfold generate_results. rewrite Z.sub_0_r in Hids. done.
Qed.

Lemma generate_chunks_missing_ids (chunks : list record_chunk) (cur : Z)
    (k : Z → gen_result) :
  Exists (λ c, ¬ has_ids c) (nonempty_chunks chunks) →
  gen_raised (generate_chunks chunks cur k) = Some (KeyError "wave_id_local").
Proof.
  revert cur. induction chunks as [|c chunks IH]; intros cur Hex.
  - by apply Exists_nil in Hex.
  - rewrite nonempty_chunks_cons in Hex. simpl.
    destruct (chunk_truthy c); simpl; [|by apply IH].
    destruct (c !! "wave_id_local") as [ids|] eqn:Hids; [|done].
    apply Exists_cons in Hex as [Hc|Hex]; [|by apply IH].
    destruct Hc. by exists ids.
Qed.

Lemma generate_files_missing_ids (read : string → list record_chunk)
    (result_files : list (option string)) (cur : Z) :
  Exists (λ c, ¬ has_ids c) (stored_chunks read result_files) →
  gen_raised (generate_files read result_files cur)
  = Some (KeyError "wave_id_local").
Proof.
  revert cur. induction result_files as [|[path|] result_files IH]; intros cur Hex.
  - by apply Exists_nil in Hex.
  - rewrite stored_chunks_cons_Some in Hex. simpl.
    apply Exists_app in Hex as [Hex|Hex].
    + by apply generate_chunks_missing_ids.
    + destruct (generate_chunks_contiguous (read path) cur
                  (generate_files read result_files)) as (_ & _ & _ & Hexn).
      { intros cur'. apply generate_files_contiguous. }
      destruct Hexn as [Hnone|Hsome]; [|done].
      assert (∀ chunks c0,
                gen_raised (generate_chunks chunks c0
                              (generate_files read result_files)) = None →
                False) as Habs; [|by destruct (Habs _ _ Hnone)].
      clear Hnone. intros chunks. induction chunks as [|c chunks IHc];
        intros c0; simpl.
      * by rewrite IH.
      * destruct (chunk_truthy c); simpl; [|apply IHc].
        destruct (c !! "wave_id_local"); [apply IHc|done].
  - by apply IH.
Qed.

(** X2. The generator raises exactly when some non-empty chunk of a
    stored unit lacks the field [wave_id_local], and then with the
    [KeyError] for that field. *)
Theorem generate_results_raises_iff_missing_ids
    (read : string → list record_chunk) (result_files : list (option string)) :
  (Forall has_ids (stored_chunks read result_files) →
   gen_raised (generate_results read result_files) = None)
  ∧ (Exists (λ c, ¬ has_ids c) (stored_chunks read result_files) →
     gen_raised (generate_results read result_files)
     = Some (KeyError "wave_id_local")).
Proof.
  split.
  - intros Hwf. unfold generate_results. by rewrite generate_files_renumber.
  - apply generate_files_missing_ids.
Qed.

Lemma generate_files_app (read : string → list record_chunk)
    (l1 l2 : list (option string)) (cur : Z) :
  Forall has_ids (stored_chunks read l1) →
  generate_files read (l1 ++ l2) cur
  = foldr gen_yield (generate_files read l2 (cur + total_records read l1))
      (renumber cur (stored_chunks read l1)).
Proof.
  revert cur. induction l1 as [|[path|] l1 IH]; intros cur Hwf.
  - simpl. f_equal. unfold total_records, sumZ. simpl. lia.
  - rewrite stored_chunks_cons_Some in Hwf |- *.
    apply Forall_app in Hwf as [Hwf1 Hwf2].
    simpl generate_files. rewrite generate_chunks_renumber by done.
    rewrite IH by done. rewrite renumber_app, foldr_app.
    unfold total_records. rewrite stored_chunks_cons_Some, fmap_app, sumZ_app.
    do 3 f_equal. lia.
  - simpl. by apply IH.
Qed.

(** X3. Merging composes: when the stores of a first run of units are
    well formed, the generator on the units followed by further units
    yields the chunks of the first run, then what the generator yields on
    the further units when its counter starts at the number of records of
    the first run. *)
Theorem generate_results_app (read : string → list record_chunk)
    (l1 l2 : list (option string)) :
  Forall has_ids (stored_chunks read l1) →
  yielded (generate_results read (l1 ++ l2))
  = yielded (generate_results read l1)
    ++ yielded (generate_files read l2 (total_records read l1))
  ∧ current_wave_id (generate_results read (l1 ++ l2))
    = current_wave_id (generate_files read l2 (total_records read l1))
  ∧ gen_raised (generate_results read (l1 ++ l2))
    = gen_raised (generate_files read l2 (total_records read l1)).
Proof.
  intros Hwf. unfold generate_results.
  rewrite generate_files_app, foldr_gen_yield by done.
  rewrite (generate_files_renumber read l1 0) by done.
  rewrite !Z.add_0_l. done.
Qed.

Lemma generate_results_app_witness :
  Forall has_ids
    (stored_chunks (read_pickle_outfile_chunks ex_env)
       [Some "/out/067_d01.nc.waves.pkl"])
  ∧ chunk_ids <$> yielded (generate_results (read_pickle_outfile_chunks ex_env)
                   ([Some "/out/067_d01.nc.waves.pkl"]
                    ++ [Some "/out/067_d03.nc.waves.pkl"]))
    = [[0; 1]; [2; 3; 4]]
      ++ (chunk_ids <$> yielded (generate_files (read_pickle_outfile_chunks ex_env)
                         [Some "/out/067_d03.nc.waves.pkl"] 5)).
Proof.
  assert (Forall has_ids
    (stored_chunks (read_pickle_outfile_chunks ex_env)
       [Some "/out/067_d01.nc.waves.pkl"])) as Hwf
    by (repeat constructor; eexists; reflexivity).
  split; [exact Hwf|].
  destruct (generate_results_app (read_pickle_outfile_chunks ex_env)
              [Some "/out/067_d01.nc.waves.pkl"]
              [Some "/out/067_d03.nc.waves.pkl"] Hwf) as (-> & _ & _).
  rewrite fmap_app. reflexivity.
Defined.

Lemma generate_results_raises_iff_missing_ids_witness :
  Exists (λ c, ¬ has_ids c)
    (stored_chunks (read_pickle_outfile_chunks ex_env_malformed) [Some "p"])
  ∧ gen_raised (generate_results
                  (read_pickle_outfile_chunks ex_env_malformed) [Some "p"])
    = Some (KeyError "wave_id_local").
Proof.
  assert (Exists (λ c, ¬ has_ids c)
            (stored_chunks (read_pickle_outfile_chunks ex_env_malformed)
               [Some "p"])) as Hex.
  { apply Exists_cons_tl, Exists_cons_hd. by intros [ids Hids]. }
  split; [exact Hex|].
  exact (proj2 (generate_results_raises_iff_missing_ids _ _) Hex).
Defined.

Lemma renumber_renumber (cur cur' : Z) (cs : list record_chunk) :
  renumber cur (renumber cur' cs) = renumber cur cs.
Proof.
  revert cur cur'. induction cs as [|c cs IH]; intros cur cur'; [done|].
  simpl.
  assert (chunk_records (<["wave_id_local" := seqZ cur' (chunk_records c)]> c)
          = chunk_records c) as Hsize.
  { unfold chunk_records at 1. rewrite chunk_ids_insert, length_seqZ.
    pose proof (chunk_records_nonneg c). lia. }
  rewrite Hsize, insert_insert_eq, IH. done.
Qed.

Lemma nonempty_chunks_renumber (cur : Z) (cs : list record_chunk) :
  nonempty_chunks (renumber cur cs) = renumber cur cs.
Proof.
  revert cur. induction cs as [|c cs IH]; intros cur; [done|].
  simpl. rewrite nonempty_chunks_cons, chunk_truthy_insert, IH. done.
Qed.

Lemma has_ids_renumber (cur : Z) (cs : list record_chunk) :
  Forall has_ids (renumber cur cs).
Proof.
  revert cur. induction cs as [|c cs IH]; intros cur; simpl; [constructor|].
  apply Forall_cons. split; [apply has_ids_insert|apply IH].
Qed.

(** X4. Merging is idempotent: the generator looks at the local
    identifiers only for their number. When the chunks it yielded for
    well-formed stores are stored again as one unit, it yields the very
    same chunks, with the same identifiers and the same final counter. *)
Theorem generate_results_idempotent (read : string → list record_chunk)
    (result_files : list (option string)) (path : string) :
  Forall has_ids (stored_chunks read result_files) →
  generate_results (λ _, yielded (generate_results read result_files)) [Some path]
  = generate_results read result_files.
Proof.
  intros Hwf. unfold generate_results.
  rewrite (generate_files_renumber read) by done. cbn [yielded].
  rewrite generate_files_renumber.
  - unfold total_records. simpl. rewrite app_nil_r.
    rewrite nonempty_chunks_renumber, renumber_renumber, renumber_sizes. done.
  - simpl. rewrite app_nil_r, nonempty_chunks_renumber. apply has_ids_renumber.
Qed.

Lemma generate_results_idempotent_witness :
  Forall has_ids
    (stored_chunks (read_pickle_outfile_chunks ex_env)
       [Some "/out/067_d01.nc.waves.pkl"; None; Some "/out/067_d03.nc.waves.pkl"])
  ∧ generate_results
      (λ _, yielded (generate_results (read_pickle_outfile_chunks ex_env)
                       [Some "/out/067_d01.nc.waves.pkl"; None;
                        Some "/out/067_d03.nc.waves.pkl"])) [Some "merged"]
    = generate_results (read_pickle_outfile_chunks ex_env)
        [Some "/out/067_d01.nc.waves.pkl"; None; Some "/out/067_d03.nc.waves.pkl"].
Proof.
  assert (Forall has_ids
    (stored_chunks (read_pickle_outfile_chunks ex_env)
       [Some "/out/067_d01.nc.waves.pkl"; None; Some "/out/067_d03.nc.waves.pkl"]))
    as Hwf by (repeat constructor; eexists; reflexivity).
  split; [exact Hwf|]. by apply generate_results_idempotent.
Defined.

(** ** More on the completion handler *)

Lemma count_waves_missing_ids (chunks : list record_chunk) (acc : Z) :
  Exists (λ c, ¬ has_ids c) (nonempty_chunks chunks) →
  count_waves chunks acc = inl (KeyError "wave_id_local").
Proof.
  revert acc. induction chunks as [|c chunks IH]; intros acc Hex.
  - by apply Exists_nil in Hex.
  - rewrite nonempty_chunks_cons in Hex. simpl.
    destruct (chunk_truthy c); [|by apply IH].
    destruct (c !! "wave_id_local") as [ids|] eqn:Hids; [|done].
    apply Exists_cons in Hex as [Hc|Hex]; [|by apply IH].
    destruct Hc. by exists ids.
Qed.

Lemma count_waves_has_ids (chunks : list record_chunk) (acc : Z) :
  Forall has_ids (nonempty_chunks chunks) →
  count_waves chunks acc
  = inr (acc + sumZ (chunk_records <$> nonempty_chunks chunks)).
Proof.
  revert acc. induction chunks as [|c chunks IH]; intros acc Hwf; simpl.
  - f_equal. unfold sumZ. simpl. lia.
  - rewrite nonempty_chunks_cons in *. destruct (chunk_truthy c); [|by apply IH].
    apply Forall_cons in Hwf as [[ids Hids] Hwf]. rewrite Hids, IH by done.
    assert (chunk_records c = Z.of_nat (length ids)) as Hc
      by (unfold chunk_records, chunk_ids; by rewrite Hids).
    f_equal. unfold sumZ. csimpl. lia.
Qed.

(** X5. The counting loop of the handler and the generator agree on every
    store: when every non-empty chunk carries [wave_id_local], the loop
    returns the number of records of the non-empty chunks, which is by how
    much the generator advances its counter over the store; otherwise the
    loop raises the [KeyError] that the generator would raise. Empty dicts
    count for nothing in both. *)
Theorem count_waves_agrees_with_generator (chunks : list record_chunk) :
  (Forall has_ids (nonempty_chunks chunks) →
   count_waves chunks 0 = inr (sumZ (chunk_records <$> nonempty_chunks chunks))
   ∧ current_wave_id (generate_results (λ _, chunks) [Some "store"])
     = sumZ (chunk_records <$> nonempty_chunks chunks))
  ∧ (Exists (λ c, ¬ has_ids c) (nonempty_chunks chunks) →
     count_waves chunks 0 = inl (KeyError "wave_id_local")
     ∧ gen_raised (generate_results (λ _, chunks) [Some "store"])
       = Some (KeyError "wave_id_local")).
Proof.
  split.
  - intros Hwf. split; [by rewrite count_waves_has_ids|].
    unfold generate_results. rewrite generate_files_renumber.
    + unfold total_records. simpl. by rewrite app_nil_r.
    + simpl. by rewrite app_nil_r.
  - intros Hex. split; [by apply count_waves_missing_ids|].
    apply generate_files_missing_ids. simpl. by rewrite app_nil_r.
Qed.

Lemma count_waves_agrees_with_generator_witness :
  Forall has_ids (nonempty_chunks [ex_chunk [4; 9] [1; 2]; ∅; ex_chunk [] []])
  ∧ count_waves [ex_chunk [4; 9] [1; 2]; ∅; ex_chunk [] []] 0 = inr 2.
Proof.
  assert (Forall has_ids
            (nonempty_chunks [ex_chunk [4; 9] [1; 2]; ∅; ex_chunk [] []])) as Hwf
    by (repeat constructor; eexists; reflexivity).
  split; [exact Hwf|].
  destruct (proj1 (count_waves_agrees_with_generator
                     [ex_chunk [4; 9] [1; 2]; ∅; ex_chunk [] []]) Hwf)
    as [-> _].
  reflexivity.
Defined.

Lemma count_done_insert (result_files : list (option string)) (i : nat)
    (path : string) :
  result_files !! i = Some None →
  length (filter is_Some (<[i := Some path]> result_files))
  = S (length (filter is_Some result_files)).
Proof.
  intros Hi. pose proof (lookup_lt_Some _ _ _ Hi) as Hlt.
  rewrite insert_take_drop by done.
  rewrite <-(take_drop_middle _ _ _ Hi) at 3.
  rewrite !filter_app, !filter_cons.
  rewrite decide_True by by eexists.
  rewrite decide_False by (by intros [??]).
  rewrite !length_app. simpl. lia.
Qed.

(** X6. For a complete result pair whose store is well formed, on a slot
    still unset, the handler returns normally after it has put the result
    file in slot [i] and nowhere else, added the number of records of the
    non-empty chunks to [num_waves_total], read the chunks before the state
    file, and logged the file as finished with a count of done files one
    above the number of slots set before (skipped units never count as
    done), the number of waves found and the flag counts of the unit. *)
Theorem handle_result_stores_unit (E : env) (station_files : list string)
    (i : nat) (result_file state_file filename : string) (st : locals) :
  station_files !! i = Some filename →
  result_files st !! i = Some None →
  Forall has_ids (nonempty_chunks (read_pickle_outfile_chunks E result_file)) →
  handle_result E station_files i (Some result_file, Some state_file) st
  = Run (inr tt)
      {| result_files := <[i := Some result_file]> (result_files st);
         num_waves_total :=
           num_waves_total st
           + sumZ (chunk_records
                     <$> nonempty_chunks (read_pickle_outfile_chunks E result_file)) |}
      ([PbarUpdate 1; ReadChunks result_file; ReadState state_file;
        Log Info (FinishedFile filename
                    (S (length (filter is_Some (result_files st))))
                    (length station_files));
        Log Info (FoundWaves
                    (sumZ (chunk_records
                             <$> nonempty_chunks
                                   (read_pickle_outfile_chunks E result_file))));
        Log Info FlagsFired]
       ++ flag_events (num_flags_fired (read_pickle_statefile E state_file))).
Proof.
  intros Hfile Hslot Hwf.
  rewrite (handle_result_run _ _ _ _ _ _ Hfile (lookup_lt_Some _ _ _ Hslot)).
  rewrite (count_waves_has_ids _ 0 Hwf), Z.add_0_l. cbv zeta.
  cbn [result_files]. by rewrite (count_done_insert _ _ _ Hslot).
Qed.

Lemma handle_result_stores_unit_witness :
  ["067_d01.nc"; "067_d02.nc"; "067_d03.nc"] !! 2%nat = Some "067_d03.nc"
  ∧ [Some "/out/067_d01.nc.waves.pkl"; None; None] !! 2%nat = Some None
  ∧ Forall has_ids
      (nonempty_chunks (read_pickle_outfile_chunks ex_env "/out/067_d03.nc.waves.pkl"))
  ∧ final (handle_result ex_env ["067_d01.nc"; "067_d02.nc"; "067_d03.nc"] 2
             (Some "/out/067_d03.nc.waves.pkl", Some "/out/067_d03.nc.state.pkl")
             {| result_files := [Some "/out/067_d01.nc.waves.pkl"; None; None];
                num_waves_total := 5 |})
    = {| result_files := [Some "/out/067_d01.nc.waves.pkl"; None;
                          Some "/out/067_d03.nc.waves.pkl"];
         num_waves_total := 6 |}.
Proof.
  assert (Forall has_ids
    (nonempty_chunks
       (read_pickle_outfile_chunks ex_env "/out/067_d03.nc.waves.pkl"))) as Hwf
    by (repeat constructor; eexists; reflexivity).
  split; [reflexivity|]. split; [reflexivity|]. split; [exact Hwf|].
  rewrite (handle_result_stores_unit ex_env
             ["067_d01.nc"; "067_d02.nc"; "067_d03.nc"] 2
             "/out/067_d03.nc.waves.pkl" "/out/067_d03.nc.state.pkl" "067_d03.nc"
             {| result_files := [Some "/out/067_d01.nc.waves.pkl"; None; None];
                num_waves_total := 5 |}
             eq_refl eq_refl Hwf).
  reflexivity.
Defined.

(** X7. When a non-empty chunk of the store lacks [wave_id_local], the
    handler raises the [KeyError] from its counting loop and nothing of
    the unit is recorded: [result_files] and [num_waves_total] are as
    before, the state file is not read and nothing is logged; only the
    progress bar has moved. *)
Theorem handle_result_key_error (E : env) (station_files : list string)
    (i : nat) (result_file state_file filename : string) (st : locals) :
  station_files !! i = Some filename →
  Exists (λ c, ¬ has_ids c)
    (nonempty_chunks (read_pickle_outfile_chunks E result_file)) →
  handle_result E station_files i (Some result_file, Some state_file) st
  = Run (inl (KeyError "wave_id_local")) st [PbarUpdate 1; ReadChunks result_file].
Proof.
  intros Hfile Hex. unfold handle_result. rewrite emit_bind. cbv beta iota.
  rewrite (index_Some _ _ _ Hfile), ret_bind, emit_bind.
  by rewrite (count_waves_missing_ids _ 0 Hex), lift_inl_bind.
Qed.

Lemma handle_result_key_error_witness :
  ["067_d01.nc"] !! 0%nat = Some "067_d01.nc"
  ∧ Exists (λ c, ¬ has_ids c)
      (nonempty_chunks (read_pickle_outfile_chunks ex_env_malformed "w.pkl"))
  ∧ outcome (handle_result ex_env_malformed ["067_d01.nc"] 0
               (Some "w.pkl", Some "s.pkl") (init_locals 1))
    = inl (KeyError "wave_id_local").
Proof.
  assert (Exists (λ c, ¬ has_ids c)
            (nonempty_chunks (read_pickle_outfile_chunks ex_env_malformed "w.pkl")))
    as Hex.
  { apply Exists_cons_tl, Exists_cons_hd. by intros [ids Hids]. }
  split; [reflexivity|]. split; [exact Hex|].
  by rewrite (handle_result_key_error ex_env_malformed ["067_d01.nc"] 0 "w.pkl"
                "s.pkl" "067_d01.nc" (init_locals 1) eq_refl Hex).
Defined.

(** ** More on the dispatch *)

Lemma pbar_progress_app (evs1 evs2 : list event) :
  pbar_progress (evs1 ++ evs2) = pbar_progress evs1 + pbar_progress evs2.
Proof. unfold pbar_progress. by rewrite flat_map_app, sumZ_app. Qed.

Lemma pbar_progress_flag_events (flags : list (string * Z)) :
  pbar_progress (flag_events flags) = 0.
Proof. induction flags as [|kv flags IH]; [done|exact IH]. Qed.

Lemma unit_event_flag_events (flags : list (string * Z)) :
  Forall unit_event (flag_events flags).
Proof. unfold flag_events. by apply Forall_fmap, Forall_true. Qed.

Lemma unit_event_not_cleanup (evs : list event) :
  Forall unit_event evs → filter (λ ev, is_cleanup ev = true) evs = [].
Proof.
  induction 1 as [|ev evs Hev _ IH]; [done|].
  rewrite filter_cons, decide_False; [done|]. by destruct ev as [[] []| | | | | | | | | | | |].
Qed.

Lemma unit_event_not_submitted (evs : list event) :
  Forall unit_event evs → submitted evs = [].
Proof.
  induction 1 as [|ev evs Hev _ IH]; [done|].
  unfold submitted in *. csimpl. rewrite IH. by destruct ev.
Qed.

Lemma epilogue_event_measures (evs : list event) :
  Forall epilogue_event evs →
  pbar_progress evs = 0 ∧ submitted evs = []
  ∧ filter (λ ev, is_cleanup ev = true) evs = []
  ∧ Forall (λ ev, is_pool ev = false) evs.
Proof.
  induction 1 as [|ev evs Hev _ (IH1 & IH2 & IH3 & IH4)]; [done|].
  unfold pbar_progress, submitted in *. csimpl.
  rewrite filter_cons, decide_False
    by (by destruct ev as [[] []| | | | | | | | | | | |]).
  destruct ev as [[] []| | | | | | | | | | | |]; try done;
    (split; [done|]); (split; [done|]); (split; [done|]);
    by apply Forall_cons.
Qed.

Section UnitEvents.
Variable E : env.
Variable station_files : list string.
Variable do_work : string → exn + (option string * option string).

Lemma handle_result_unit_events (i : nat) (result : option string * option string)
    (st : locals) (filename : string) :
  station_files !! i = Some filename →
  length (result_files st) = length station_files →
  Forall unit_event (events (handle_result E station_files i result st))
  ∧ pbar_progress (events (handle_result E station_files i result st)) = 1.
Proof.
  intros Hfile Hlen.
  assert (i < length (result_files st))%nat as Hi
    by (rewrite Hlen; by eapply lookup_lt_Some).
  rewrite (handle_result_run _ _ _ _ _ _ Hfile Hi).
  destruct result as [[result_file|] [state_file|]];
    try (split; [by repeat constructor|done]).
  destruct (count_waves _ 0); [split; [by repeat constructor|done]|].
  cbn [events]. split.
  - apply Forall_app. split; [by repeat constructor|apply unit_event_flag_events].
  - by rewrite pbar_progress_app, pbar_progress_flag_events.
Qed.

Lemma parallel_body_unit_events (i : nat) (st : locals) :
  length (result_files st) = length station_files →
  Forall unit_event (events (parallel_body E station_files do_work i st))
  ∧ (outcome (parallel_body E station_files do_work i st) = inr tt →
     pbar_progress (events (parallel_body E station_files do_work i st)) = 1).
Proof.
  intros Hlen. unfold parallel_body.
  destruct (station_files !! i) as [station_file|] eqn:Hfile.
  - rewrite (index_Some _ _ _ Hfile), ret_bind.
    destruct (do_work station_file) as [e|result].
    + rewrite lift_inl_bind. by split.
    + rewrite lift_inr_bind.
      destruct (handle_result_unit_events i result st station_file Hfile Hlen).
      by split.
  - rewrite (index_None _ _ Hfile), raise_bind. by split.
Qed.

Lemma sequential_body_unit_events (i : nat) (station_file : string) (st : locals) :
  station_files !! i = Some station_file →
  length (result_files st) = length station_files →
  Forall unit_event
    (events ((emit (Call station_file) ;;
              result ← lift (do_work station_file) ;
              handle_result E station_files i result) st))
  ∧ (outcome ((emit (Call station_file) ;;
               result ← lift (do_work station_file) ;
               handle_result E station_files i result) st) = inr tt →
     pbar_progress
       (events ((emit (Call station_file) ;;
                 result ← lift (do_work station_file) ;
                 handle_result E station_files i result) st)) = 1).
Proof.
  intros Hfile Hlen. rewrite emit_bind. cbn [events outcome].
  destruct (do_work station_file) as [e|result].
  - rewrite lift_inl_bind. split; [by repeat constructor|done].
  - rewrite lift_inr_bind.
    destruct (handle_result_unit_events i result st station_file Hfile Hlen)
      as [Hall Hone].
    split; [by apply Forall_cons|]. intros _.
    change (Call station_file :: ?evs) with ([Call station_file] ++ evs).
    by rewrite pbar_progress_app, Hone.
Qed.

(** A loop over units emits the events of units only, and in a loop that
    ends normally every unit moves the progress bar by one. *)
Lemma for_each_unit_events {A : Type} (idx : A → nat) (body : A → M unit)
    (l : list A) (st : locals) :
  Forall (λ x, handles E station_files do_work (body x) (idx x)) l →
  Forall (λ x, ∀ st,
            length (result_files st) = length station_files →
            Forall unit_event (events (body x st))
            ∧ (outcome (body x st) = inr tt →
               pbar_progress (events (body x st)) = 1)) l →
  length (result_files st) = length station_files →
  Forall unit_event (events (for_each l body st))
  ∧ (outcome (for_each l body st) = inr tt →
     pbar_progress (events (for_each l body st)) = Z.of_nat (length l)).
Proof.
  intros Hh Hev. revert st.
  induction l as [|x l IH]; intros st Hlen; [by split|].
  apply Forall_cons in Hh as [Hx Hh]. apply Forall_cons in Hev as [Hxe Hev].
  destruct (Hx st Hlen) as [_ Hr]. destruct (Hxe st Hlen) as [Hall Hone].
  rewrite for_each_cons.
  destruct (unit_outcome E station_files do_work (idx x)) as [e|o].
  - destruct Hr as [Hout _]. rewrite (bind_inl _ _ _ _ Hout). by split.
  - destruct Hr as (Hout & Hfin & _). rewrite (bind_inr _ _ _ _ Hout).
    cbn [events outcome].
    destruct (IH Hh Hev (final (body x st))) as [Hall' Hrest].
    { by rewrite Hfin, unit_store_length. }
    split; [by apply Forall_app|]. intros Hok.
    rewrite pbar_progress_app, (Hone Hout), (Hrest Hok). simpl length. lia.
Qed.
End UnitEvents.

Section DispatchEvents.
Variable E : env.
Variable as_completed : list nat.
Variables station_folder out_folder : string.
Variable nproc : option Z.

#[local] Abbreviation sf := (station_files_of E station_folder).
#[local] Abbreviation dw := (do_work_of E station_folder out_folder).
#[local] Abbreviation n := (effective_nproc E nproc (length sf)).
#[local] Abbreviation d := (dispatch E as_completed station_folder out_folder nproc).

Lemma parallel_loop_unit_events :
  Forall unit_event
    (events (parallel_loop E as_completed sf dw (init_locals (length sf))))
  ∧ (outcome (parallel_loop E as_completed sf dw (init_locals (length sf)))
     = inr tt →
     pbar_progress
       (events (parallel_loop E as_completed sf dw (init_locals (length sf))))
     = Z.of_nat (length as_completed)).
Proof.
  unfold parallel_loop. apply (for_each_unit_events E sf dw id).
  - apply Forall_true. intros i. apply parallel_body_handles.
  - apply Forall_true. intros i st. apply parallel_body_unit_events.
  - apply init_locals_length.
Qed.

Lemma process_sequential_unit_events :
  Forall unit_event
    (events (process_sequential E sf dw (init_locals (length sf))))
  ∧ (outcome (process_sequential E sf dw (init_locals (length sf))) = inr tt →
     pbar_progress (events (process_sequential E sf dw (init_locals (length sf))))
     = Z.of_nat (length sf)).
Proof.
  unfold process_sequential.
  pose proof (for_each_unit_events E sf dw fst
                (λ '(i, station_file),
                   emit (Call station_file) ;;
                   result ← lift (dw station_file) ;
                   handle_result E sf i result)
                (enumerate sf) (init_locals (length sf))) as Hloop.
  assert (length (enumerate sf) = length sf) as Hlen
    by (by rewrite <-(length_fmap snd), enumerate_files).
  rewrite Hlen in Hloop. apply Hloop.
  - apply Forall_forall. intros [i f] Hin.
    by apply sequential_body_handles, enumerate_lookup.
  - apply Forall_forall. intros [i f] Hin st.
    by apply sequential_body_unit_events, enumerate_lookup.
  - apply init_locals_length.
Qed.

(** The events of the dispatch: those of the units, inside those of the
    pool when there is one. *)
Lemma dispatch_shape :
  ∃ units,
    Forall unit_event units
    ∧ events d
      = (if decide (n > 1) then PoolOpen n :: submits sf else [])
        ++ units
        ++ (if decide (n > 1)
            then match outcome d with
                 | inl _ => [Terminate; PoolShutdown]
                 | inr _ => [PoolShutdown]
                 end
            else [])
    ∧ (outcome d = inr tt →
       pbar_progress units
       = Z.of_nat (length (if decide (n > 1) then as_completed
                           else seq 0 (length sf)))).
Proof.
  unfold dispatch. destruct (decide (n > 1)) as [Hn|Hn].
  - rewrite process_parallel_run. cbv zeta. cbn [events outcome].
    destruct parallel_loop_unit_events as [Hall Hprog].
    exists (events (parallel_loop E as_completed sf dw (init_locals (length sf)))).
    split; [done|]. split; [|done].
    destruct (outcome _); simpl; by rewrite <-?app_assoc.
  - destruct process_sequential_unit_events as [Hall Hprog].
    exists (events (process_sequential E sf dw (init_locals (length sf)))).
    split; [done|]. split; [by rewrite app_nil_r|].
    by rewrite length_seq.
Qed.
End DispatchEvents.

Lemma submitted_app (evs1 evs2 : list event) :
  submitted (evs1 ++ evs2) = submitted evs1 ++ submitted evs2.
Proof. apply flat_map_app. Qed.

Lemma submitted_submits (station_files : list string) :
  submitted (submits station_files) = enumerate station_files.
Proof.
  unfold submits. induction (enumerate station_files) as [|[i f] l IH]; [done|].
  csimpl. unfold submitted in *. csimpl. by rewrite IH.
Qed.

Lemma pbar_progress_submits (station_files : list string) :
  pbar_progress (submits station_files) = 0.
Proof.
  unfold submits. induction (enumerate station_files) as [|[i f] l IH]; [done|].
  exact IH.
Qed.

Lemma cleanup_submits (station_files : list string) :
  filter (λ ev, is_cleanup ev = true) (submits station_files) = [].
Proof.
  unfold submits. induction (enumerate station_files) as [|[i f] l IH]; [done|].
  csimpl. by rewrite filter_cons, decide_False.
Qed.

Lemma cleanup_pool_open (k : Z) (station_files : list string) :
  filter (λ ev, is_cleanup ev = true) (PoolOpen k :: submits station_files) = [].
Proof. rewrite filter_cons, decide_False by done. apply cleanup_submits. Qed.

Section Shape.
Variable E : env.
Variable as_completed : list nat.
Variables station_folder out_folder : string.
Variable nproc : option Z.
Variable st0 : locals.

#[local] Abbreviation sf := (station_files_of E station_folder).
#[local] Abbreviation dw := (do_work_of E station_folder out_folder).
#[local] Abbreviation n := (effective_nproc E nproc (length sf)).
#[local] Abbreviation d := (dispatch E as_completed station_folder out_folder nproc).
#[local] Abbreviation r :=
  (process_cdip_station E as_completed station_folder out_folder nproc st0).

(** The events of a call that reaches the dispatch. *)
Lemma process_cdip_station_shape :
  isdir E (normpath E station_folder) = true → sf ≠ [] →
  ∃ after,
    events r
    = [Log Info (StartingStation (station_id_of E station_folder) (length sf));
       PbarOpen (length sf) n]
      ++ events d ++ [PbarClose; StderrNewlines (Z.to_nat (n + 2))] ++ after
    ∧ Forall epilogue_event after.
Proof.
  intros Hdir Hfiles. rewrite process_cdip_station_run by done. cbv zeta.
  unfold dispatch_events. cbv zeta.
  destruct (outcome d) as [e|[]]; [|destruct (existsb file_truthy _)];
    cbn [events]; rewrite <-?app_assoc; eexists;
    (split; [reflexivity|]); by repeat constructor.
Qed.

(** X9. In a call that returns, the progress bar of the files, opened
    with the number of station files as its total, has been moved by
    exactly that number: once for every file, skipped or not, whatever the
    order of completion. *)
Theorem progress_reaches_total :
  isdir E (normpath E station_folder) = true →
  station_files_of E station_folder ≠ [] →
  as_completed ≡ₚ seq 0 (length (station_files_of E station_folder)) →
  outcome (process_cdip_station E as_completed station_folder out_folder nproc st0)
  = inr tt →
  PbarOpen (length (station_files_of E station_folder))
    (effective_nproc E nproc (length (station_files_of E station_folder)))
    ∈ events (process_cdip_station E as_completed station_folder out_folder
                nproc st0)
  ∧ pbar_progress
      (events (process_cdip_station E as_completed station_folder out_folder
                 nproc st0))
    = Z.of_nat (length (station_files_of E station_folder)).
Proof.
  intros Hdir Hfiles Hperm Hok.
  destruct (process_cdip_station_shape Hdir Hfiles) as (after & Hev & Hafter).
  destruct (process_cdip_station_summary E as_completed station_folder
              out_folder nproc st0 Hdir Hfiles) as (_ & Hout & _).
  rewrite Hok in Hout.
  assert (outcome d = inr tt) as Hd by (by destruct (outcome d) as [e|[]]).
  destruct (dispatch_shape E as_completed station_folder out_folder nproc)
    as (units & Hunits & Hdev & Hprog).
  rewrite Hev. split.
  - apply list_elem_of_further, list_elem_of_here.
  - rewrite Hdev, Hd, !pbar_progress_app.
    destruct (epilogue_event_measures after Hafter) as (-> & _).
    rewrite (Hprog Hd).
    destruct (decide (n > 1)).
    + change (PoolOpen n :: ?l) with ([PoolOpen n] ++ l).
      rewrite pbar_progress_app, pbar_progress_submits.
      rewrite Hperm, length_seq. unfold pbar_progress, sumZ. simpl. lia.
    + rewrite length_seq. unfold pbar_progress, sumZ. simpl. lia.
Qed.

(** X10. Whether the dispatch raises or not, the progress bar is closed
    and the cursor reset is written to the error stream, each once and in
    that order. The string written is ['\n' * (nproc + 2)] for the
    effective number of workers: that many new lines when the number is
    positive, and the empty string otherwise (a requested [nproc] below
    -1 is not rejected, and a string times a non-positive integer is
    empty). *)
Theorem cleanup_always_runs :
  isdir E (normpath E station_folder) = true →
  station_files_of E station_folder ≠ [] →
  filter (λ ev, is_cleanup ev = true)
    (events (process_cdip_station E as_completed station_folder out_folder
               nproc st0))
  = [PbarClose;
     StderrNewlines
       (Z.to_nat
          (effective_nproc E nproc (length (station_files_of E station_folder))
           + 2))].
Proof.
  intros Hdir Hfiles.
  destruct (process_cdip_station_shape Hdir Hfiles) as (after & Hev & Hafter).
  destruct (dispatch_shape E as_completed station_folder out_folder nproc)
    as (units & Hunits & Hdev & _).
  destruct (epilogue_event_measures after Hafter) as (_ & _ & Hca & _).
  rewrite Hev, Hdev, !filter_app, Hca, (unit_event_not_cleanup units Hunits).
  destruct (decide (n > 1)).
  - rewrite cleanup_pool_open. by destruct (outcome d).
  - done.
Qed.

(** X11. Under the pool, every station file is submitted exactly once, in
    the canonical order and with its index, before the result of any unit
    is handled, whatever the order of completion and whether the call then
    raises or returns. *)
Theorem pool_submits_all_in_order :
  isdir E (normpath E station_folder) = true →
  effective_nproc E nproc (length (station_files_of E station_folder)) > 1 →
  submitted
    (events (process_cdip_station E as_completed station_folder out_folder
               nproc st0))
  = enumerate (station_files_of E station_folder)
  ∧ ∃ rest,
      events (process_cdip_station E as_completed station_folder out_folder
                nproc st0)
      = [Log Info (StartingStation (station_id_of E station_folder)
                     (length (station_files_of E station_folder)));
         PbarOpen (length (station_files_of E station_folder))
           (effective_nproc E nproc (length (station_files_of E station_folder)));
         PoolOpen
           (effective_nproc E nproc (length (station_files_of E station_folder)))]
        ++ submits (station_files_of E station_folder) ++ rest
      ∧ submitted rest = [].
Proof.
  intros Hdir Hn.
  pose proof (pool_needs_files E station_folder nproc Hn) as Hfiles.
  destruct (process_cdip_station_shape Hdir Hfiles) as (after & Hev & Hafter).
  destruct (dispatch_shape E as_completed station_folder out_folder nproc)
    as (units & Hunits & Hdev & _).
  destruct (epilogue_event_measures after Hafter) as (_ & Hsa & _).
  rewrite !decide_True in Hdev by done.
  assert (submitted
            (units ++ match outcome d with
                      | inl _ => [Terminate; PoolShutdown]
                      | inr _ => [PoolShutdown]
                      end ++ [PbarClose; StderrNewlines (Z.to_nat (n + 2))] ++ after) = [])
    as Hrest.
  { rewrite !submitted_app, (unit_event_not_submitted units Hunits), Hsa.
    by destruct (outcome d). }
  assert (events r
          = [Log Info (StartingStation (station_id_of E station_folder) (length sf));
             PbarOpen (length sf) n; PoolOpen n]
            ++ submits sf
            ++ (units ++ match outcome d with
                         | inl _ => [Terminate; PoolShutdown]
                         | inr _ => [PoolShutdown]
                         end ++ [PbarClose; StderrNewlines (Z.to_nat (n + 2))] ++ after))
    as Hshape.
  { rewrite Hev, Hdev. simpl. by rewrite <-!app_assoc. }
  split.
  - rewrite Hshape. rewrite 2!submitted_app, Hrest, submitted_submits. simpl.
    by rewrite app_nil_r.
  - eexists. split; [exact Hshape|exact Hrest].
Qed.
End Shape.

(** X12. A station with a single file, and a requested number of workers
    of 1 or less (0 and negative numbers included), never use the pool:
    the call has no event of the pool and does not depend on the order of
    completion at all. *)
Theorem small_batches_are_sequential (E : env) (order1 order2 : list nat)
    (station_folder out_folder : string) (nproc : option Z) (st0 : locals) :
  length (station_files_of E station_folder) = 1%nat
  ∨ (∃ p, nproc = Some p ∧ p ≤ 1) →
  process_cdip_station E order1 station_folder out_folder nproc st0
  = process_cdip_station E order2 station_folder out_folder nproc st0
  ∧ Forall (λ ev, is_pool ev = false)
      (events (process_cdip_station E order1 station_folder out_folder nproc st0)).
Proof.
  intros Hsmall.
  assert (¬ effective_nproc E nproc (length (station_files_of E station_folder)) > 1)
    as Hn.
  { unfold effective_nproc. destruct Hsmall as [-> | (p & -> & Hp)]; simpl; lia. }
  destruct (isdir E (normpath E station_folder)) eqn:Hdir.
  2: { rewrite !process_cdip_station_not_dir by done. by split. }
  destruct (decide (station_files_of E station_folder = [])) as [Hnil|Hfiles].
  { assert (∀ order,
              process_cdip_station E order station_folder out_folder nproc st0
              = Run (inl (RuntimeError
                   "Given input folder does not contain any valid station files"))
                  st0 []) as Hraise.
    { intros order. unfold process_cdip_station. rewrite Hdir, ret_bind.
      rewrite decide_True; [done|].
      change (length (station_files_of E station_folder) = 0%nat).
      by rewrite Hnil. }
    rewrite !Hraise. by split. }
  assert (dispatch E order1 station_folder out_folder nproc
          = dispatch E order2 station_folder out_folder nproc) as Hd
    by (unfold dispatch; by rewrite !decide_False).
  split.
  - rewrite !process_cdip_station_run by done. cbv zeta.
    unfold dispatch_events. by rewrite Hd.
  - destruct (process_cdip_station_events E order1 station_folder out_folder
                nproc st0 Hdir Hfiles)
      as (before & after & -> & _ & _ & _ & _ & Hpb & Hpa).
    repeat (apply Forall_app; split); try done.
    eapply Forall_impl;
      [exact (dispatch_sequential_quiet E order1 station_folder out_folder
                nproc Hn)|].
    by intros ev [??].
Qed.

(** ** The slots of [result_files] after the dispatch *)

Section Slots.
Variable E : env.
Variable station_files : list string.
Variable do_work : string → exn + (option string * option string).

Lemma fold_units_all_ok (l : list nat) (st st' : locals) :
  fold_units E station_files do_work l st = inr st' →
  Forall (unit_ok E station_files do_work) l.
Proof.
  revert st. induction l as [|i l IH]; intros st Hfold; [constructor|].
  simpl in Hfold.
  destruct (unit_outcome E station_files do_work i) as [e|o] eqn:Ho; [done|].
  apply Forall_cons. split; [by exists o|by eapply IH].
Qed.

(** Handling the units of [l] sets the slots of those that are not
    skipped and leaves every other slot as it was. *)
Lemma fold_units_lookup (l : list nat) (st st' : locals) (j : nat)
    (x : option string) :
  fold_units E station_files do_work l st = inr st' →
  result_files st !! j = Some x →
  result_files st' !! j
  = Some (match unit_outcome E station_files do_work j with
          | inr (Some (result_file, _, _)) =>
              if decide (j ∈ l) then Some result_file else x
          | _ => x
          end).
Proof.
  revert st x. induction l as [|i l IH]; intros st x Hfold Hx.
  - injection Hfold as <-. rewrite Hx.
    by destruct (unit_outcome _ _ _ j) as [|[[[??]?]|]].
  - simpl in Hfold.
    destruct (unit_outcome E station_files do_work i) as [e|o] eqn:Ho; [done|].
    destruct (decide (i = j)) as [->|Hne].
    + rewrite Ho. destruct o as [[[rf sf] k]|]; simpl in Hfold.
      * rewrite (IH _ (Some rf) Hfold).
        2: { simpl. apply list_lookup_insert_eq. by eapply lookup_lt_Some. }
        rewrite Ho. rewrite (decide_True (P := j ∈ j :: l)) by left.
        by case_decide.
      * rewrite (IH _ x Hfold Hx). by rewrite Ho.
    + assert (result_files (unit_store i o st) !! j = Some x) as Hx'.
      { destruct o as [[[rf sf] k]|]; simpl; [|done].
        by rewrite list_lookup_insert_ne. }
      rewrite (IH _ x Hfold Hx').
      destruct (unit_outcome _ _ _ j) as [|[[[??]?]|]]; try done.
      destruct (decide (j ∈ l)) as [Hin|Hnin].
      * by rewrite decide_True by (by right).
      * rewrite decide_False; [done|]. intros [?|?]%elem_of_cons; congruence.
Qed.

Lemma unit_outcome_slot (i : nat) (station_file : string)
    (o : option (string * string * Z)) :
  station_files !! i = Some station_file →
  unit_outcome E station_files do_work i = inr o →
  slot_of (do_work station_file)
  = match o with Some (result_file, _, _) => Some result_file | None => None end.
Proof.
  intros Hfile. unfold unit_outcome. rewrite Hfile.
  destruct (do_work station_file) as [e|[[rf|] [sf|]]]; simpl; try done;
    try (by intros [= <-]).
  destruct (count_waves _ 0); [done|]. by intros [= <-].
Qed.
End Slots.


Section Storage.
Variable E : env.
Variable as_completed : list nat.
Variables station_folder out_folder : string.
Variable nproc : option Z.
Variable st0 : locals.

#[local] Abbreviation sf := (station_files_of E station_folder).
#[local] Abbreviation dw := (do_work_of E station_folder out_folder).
#[local] Abbreviation n := (effective_nproc E nproc (length sf)).
#[local] Abbreviation d := (dispatch E as_completed station_folder out_folder nproc).
#[local] Abbreviation order := (handling_order E as_completed station_folder nproc).
#[local] Abbreviation r :=
  (process_cdip_station E as_completed station_folder out_folder nproc st0).

(** After a dispatch that ended normally, every slot is that of its unit. *)
Lemma dispatch_slots (i : nat) (station_file : string) :
  as_completed ≡ₚ seq 0 (length sf) →
  outcome d = inr tt →
  sf !! i = Some station_file →
  result_files (final d) !! i = Some (slot_of (dw station_file)).
Proof.
  intros Hperm Hd Hfile.
  pose proof (dispatch_fold E as_completed station_folder out_folder nproc) as Hf.
  destruct (fold_units E sf dw order (init_locals (length sf)))
    as [e|st'] eqn:Hfold; [congruence|].
  destruct Hf as (_ & -> & _).
  assert (i ∈ order) as Hin.
  { rewrite (handling_order_perm E as_completed station_folder nproc Hperm).
    apply elem_of_seq. split; [lia|]. simpl. by eapply lookup_lt_Some. }
  pose proof (fold_units_all_ok E sf dw _ _ _ Hfold) as Hok.
  rewrite Forall_forall in Hok. destruct (Hok i Hin) as [o Ho].
  rewrite (fold_units_lookup E sf dw _ _ _ i None Hfold).
  2: { apply lookup_replicate. split; [done|]. by eapply lookup_lt_Some. }
  rewrite Ho, (unit_outcome_slot E sf dw i station_file o Hfile Ho).
  destruct o as [[[??]?]|]; [|done]. by rewrite decide_True.
Qed.

(** X13. In a call that returns, [result_files] is in the canonical order
    whatever the order of completion: slot [i] holds the result file of
    station file [i] when its computation returned a complete pair, and
    [None] when the unit was skipped. *)
Theorem result_files_canonical (i : nat) (station_file : string) :
  isdir E (normpath E station_folder) = true →
  as_completed ≡ₚ seq 0 (length (station_files_of E station_folder)) →
  outcome (process_cdip_station E as_completed station_folder out_folder nproc st0)
  = inr tt →
  station_files_of E station_folder !! i = Some station_file →
  result_files
    (final (process_cdip_station E as_completed station_folder out_folder
              nproc st0)) !! i
  = Some (slot_of (do_work_of E station_folder out_folder station_file)).
Proof.
  intros Hdir Hperm Hok Hfile.
  assert (sf ≠ []) as Hfiles by (intros Hnil; by rewrite Hnil in Hfile).
  destruct (process_cdip_station_summary E as_completed station_folder
              out_folder nproc st0 Hdir Hfiles) as (-> & Hout & _).
  rewrite Hok in Hout. apply dispatch_slots; [done| |done].
  by destruct (outcome d) as [e|[]].
Qed.

(** After a dispatch that ended normally, the computation of every station
    file returned. *)
Lemma dispatch_computed (i : nat) (station_file : string) :
  as_completed ≡ₚ seq 0 (length sf) →
  outcome d = inr tt →
  sf !! i = Some station_file →
  ∃ result, dw station_file = inr result.
Proof.
  intros Hperm Hd Hfile.
  pose proof (dispatch_fold E as_completed station_folder out_folder nproc) as Hf.
  destruct (fold_units E sf dw order (init_locals (length sf)))
    as [e|st'] eqn:Hfold; [congruence|].
  assert (i ∈ order) as Hin.
  { rewrite (handling_order_perm E as_completed station_folder nproc Hperm).
    apply elem_of_seq. split; [lia|]. simpl. by eapply lookup_lt_Some. }
  pose proof (fold_units_all_ok E sf dw _ _ _ Hfold) as Hok.
  rewrite Forall_forall in Hok. destruct (Hok i Hin) as [o Ho].
  unfold unit_outcome in Ho. rewrite Hfile in Ho.
  destruct (dw station_file) as [e|result]; [done|]. by exists result.
Qed.

(** X8. In a call that returns, every station file was either rejected by
    the parser with [InvalidCDIPFile], and its slot of [result_files] is
    [None], or it went through the whole of [get_cdip_wave_records]: the
    parser returned a dataset, the quantities were extracted from it,
    [compute_wave_records] was called with the two pickle paths
    [<out_folder>/<basename>.waves.pkl] and
    [<out_folder>/<basename>.state.pkl] and with the QC file of the
    station, it returned, and the slot holds the first of the two paths.
    Nothing else lets the call return: any other exception of the parser,
    and any exception of the extraction or of the computation, ends it. *)
Theorem returned_call_parsed_or_computed (i : nat) (station_file : string) :
  isdir E (normpath E station_folder) = true →
  as_completed ≡ₚ seq 0 (length (station_files_of E station_folder)) →
  outcome (process_cdip_station E as_completed station_folder out_folder nproc st0)
  = inr tt →
  station_files_of E station_folder !! i = Some station_file →
  let outfile :=
    path_join E out_folder (basename E station_file +:+ ".waves.pkl") in
  let statefile :=
    path_join E out_folder (basename E station_file +:+ ".state.pkl") in
  let qc_outfile :=
    path_join E out_folder
      ("fowd_cdip_" +:+ station_id_of E station_folder +:+ ".qc.json") in
  (get_cdip_data E station_file = inl InvalidCDIPFile
   ∧ result_files
       (final (process_cdip_station E as_completed station_folder out_folder
                 nproc st0)) !! i = Some None)
  ∨ (∃ data quantities,
       get_cdip_data E station_file = inr data
       ∧ extract_quantities E station_file data = inr quantities
       ∧ compute_wave_records E quantities outfile statefile (Some qc_outfile)
         = None
       ∧ result_files
           (final (process_cdip_station E as_completed station_folder out_folder
                     nproc st0)) !! i = Some (Some outfile)).
Proof.
  intros Hdir Hperm Hok Hfile outfile statefile qc_outfile.
  assert (sf ≠ []) as Hfiles by (intros Hnil; by rewrite Hnil in Hfile).
  destruct (process_cdip_station_summary E as_completed station_folder
              out_folder nproc st0 Hdir Hfiles) as (-> & Hout & _).
  rewrite Hok in Hout.
  assert (outcome d = inr tt) as Hd by (by destruct (outcome d) as [e|[]]).
  rewrite (dispatch_slots i station_file Hperm Hd Hfile).
  destruct (dispatch_computed i station_file Hperm Hd Hfile) as [result Hres].
  revert Hres. unfold do_work_of, get_cdip_wave_records. cbv zeta.
  fold (station_id_of E station_folder). fold outfile statefile qc_outfile.
  destruct (get_cdip_data E station_file) as [e|data].
  { destruct e; try done. intros _. by left. }
  destruct (extract_quantities E station_file data) as [e|quantities] eqn:Hq;
    [done|].
  destruct (compute_wave_records E quantities outfile statefile (Some qc_outfile))
    as [e|] eqn:Hcomp; [done|].
  intros _. right. by exists data, quantities.
Qed.
End Storage.

(** ** The sequential branch and a failing unit *)

Lemma enumerate_lookup_index {A : Type} (l : list A) (j : nat) (y : nat * A) :
  enumerate l !! j = Some y → y.1 = j ∧ l !! j = Some y.2.
Proof.
  unfold enumerate. intros Hj.
  apply lookup_zip_with_Some in Hj as (i' & x' & -> & Hseq & Hx).
  apply lookup_seq in Hseq as [-> _]. done.
Qed.

Lemma enumerate_lookup_Some {A : Type} (l : list A) (k : nat) (x : A) :
  l !! k = Some x → enumerate l !! k = Some (k, x).
Proof.
  intros Hk. unfold enumerate. apply lookup_zip_with_Some.
  exists k, x. split; [done|]. split; [|done].
  apply lookup_seq. split; [done|]. by eapply lookup_lt_Some.
Qed.

Section SequentialFailure.
Variable E : env.
Variable station_files : list string.
Variable do_work : string → exn + (option string * option string).

Lemma for_each_calls_until (l : list (nat * string)) (k : nat)
    (x : nat * string) (e : exn) (st : locals) :
  Forall (λ y, station_files !! y.1 = Some y.2) l →
  length (result_files st) = length station_files →
  l !! k = Some x →
  (∀ j y, (j < k)%nat → l !! j = Some y →
          unit_ok E station_files do_work y.1) →
  unit_outcome E station_files do_work x.1 = inl e →
  outcome (for_each l (λ '(i, station_file),
             emit (Call station_file) ;;
             result ← lift (do_work station_file) ;
             handle_result E station_files i result) st) = inl e
  ∧ calls (events (for_each l (λ '(i, station_file),
                     emit (Call station_file) ;;
                     result ← lift (do_work station_file) ;
                     handle_result E station_files i result) st))
    = take (S k) l.*2.
Proof.
  intros Hl. revert k st.
  induction Hl as [|[i f] l Hf _ IH]; intros k st Hlen Hk Hbefore Hfail.
  - done.
  - rewrite for_each_cons. simpl in Hf.
    pose proof (sequential_body_calls E station_files do_work i f st Hf Hlen)
      as Hcalls.
    destruct (sequential_body_handles E station_files do_work i f Hf st Hlen)
      as [_ Hr].
    destruct k as [|k].
    + injection Hk as <-. simpl in Hfail. rewrite Hfail in Hr.
      destruct Hr as [Hout _]. rewrite (bind_inl _ _ _ _ Hout).
      cbn [outcome events]. by rewrite Hcalls.
    + destruct (Hbefore 0%nat (i, f)) as [o Ho]; [lia|done|].
      simpl in Ho. rewrite Ho in Hr. destruct Hr as (Hout & Hfin & _).
      rewrite (bind_inr _ _ _ _ Hout). cbn [outcome events].
      destruct (IH k (final ((emit (Call f) ;;
                              result ← lift (do_work f) ;
                              handle_result E station_files i result) st)))
        as [Hout' Hcalls'].
      * by rewrite Hfin, unit_store_length.
      * exact Hk.
      * intros j y Hj Hy. apply (Hbefore (S j) y); [lia|done].
      * exact Hfail.
      * split; [done|]. rewrite calls_app, Hcalls, Hcalls'. done.
Qed.

Lemma process_sequential_until (k : nat) (station_file : string) (e : exn)
    (st : locals) :
  length (result_files st) = length station_files →
  station_files !! k = Some station_file →
  (∀ j, (j < k)%nat → unit_ok E station_files do_work j) →
  unit_outcome E station_files do_work k = inl e →
  outcome (process_sequential E station_files do_work st) = inl e
  ∧ calls (events (process_sequential E station_files do_work st))
    = take (S k) station_files.
Proof.
  intros Hlen Hk Hbefore Hfail. unfold process_sequential.
  pose proof (for_each_calls_until (enumerate station_files) k (k, station_file)
                e st) as Hloop.
  rewrite enumerate_files in Hloop. apply Hloop; try done.
  - apply Forall_forall. intros [i f] Hin. by apply enumerate_lookup.
  - by apply enumerate_lookup_Some.
  - intros j y Hj Hy. apply enumerate_lookup_index in Hy as [-> _].
    by apply Hbefore.
Qed.
End SequentialFailure.

(** X15. Without the pool, the units are computed one after the other and
    the first exception ends the call: the computation has been called on
    the station files up to the failing one and on no later file, the
    exception of that unit reaches the caller, no worker is terminated (no
    event of the pool occurs) and the dataset writer is not called. *)
Theorem sequential_stops_at_first_failure (E : env) (as_completed : list nat)
    (station_folder out_folder : string) (nproc : option Z) (st0 : locals)
    (k : nat) (station_file : string) (e : exn) :
  isdir E (normpath E station_folder) = true →
  ¬ effective_nproc E nproc (length (station_files_of E station_folder)) > 1 →
  station_files_of E station_folder !! k = Some station_file →
  (∀ j, (j < k)%nat →
        unit_ok E (station_files_of E station_folder)
          (do_work_of E station_folder out_folder) j) →
  unit_outcome E (station_files_of E station_folder)
    (do_work_of E station_folder out_folder) k = inl e →
  outcome (process_cdip_station E as_completed station_folder out_folder nproc st0)
  = inl e
  ∧ calls (events (process_cdip_station E as_completed station_folder out_folder
                     nproc st0))
    = take (S k) (station_files_of E station_folder)
  ∧ Forall (λ ev, is_pool ev = false)
      (events (process_cdip_station E as_completed station_folder out_folder
                 nproc st0))
  ∧ written (events (process_cdip_station E as_completed station_folder
                       out_folder nproc st0)) = [].
Proof.
  intros Hdir Hn Hk Hbefore Hfail.
  assert (station_files_of E station_folder ≠ []) as Hfiles
    by (intros Hnil; by rewrite Hnil in Hk).
  assert (dispatch E as_completed station_folder out_folder nproc
          = process_sequential E (station_files_of E station_folder)
              (do_work_of E station_folder out_folder)
              (init_locals (length (station_files_of E station_folder)))) as Hd
    by (unfold dispatch; by rewrite decide_False).
  destruct (process_sequential_until E _ _ k station_file e
              (init_locals (length (station_files_of E station_folder)))
              (init_locals_length _) Hk Hbefore Hfail) as [Hout Hcalls].
  rewrite <-Hd in Hout, Hcalls.
  destruct (process_cdip_station_events E as_completed station_folder out_folder
              nproc st0 Hdir Hfiles)
    as (before & after & Hev & Hcb & Hca & _ & _ & Hpb & Hpa).
  destruct (process_cdip_station_summary E as_completed station_folder
              out_folder nproc st0 Hdir Hfiles) as (_ & Hor & Hwr).
  rewrite Hout in Hor, Hwr. split; [done|]. split; [|split; [|done]].
  - by rewrite Hev, !calls_app, Hcb, Hca, app_nil_r, Hcalls.
  - rewrite Hev. repeat (apply Forall_app; split); try done.
    eapply Forall_impl;
      [exact (dispatch_sequential_quiet E as_completed station_folder out_folder
                nproc Hn)|].
    by intros ev [??].
Qed.

(** ** The station of three deployments, once more *)

Lemma progress_reaches_total_witness :
  isdir ex_env (normpath ex_env "/cdip/067") = true
  ∧ station_files_of ex_env "/cdip/067" ≠ []
  ∧ [2; 0; 1]%nat ≡ₚ seq 0 (length (station_files_of ex_env "/cdip/067"))
  ∧ outcome (process_cdip_station ex_env [2; 0; 1]%nat "/cdip/067" "/out" (Some 4)
               no_locals) = inr tt
  ∧ pbar_progress (events (process_cdip_station ex_env [2; 0; 1]%nat "/cdip/067"
                             "/out" (Some 4) no_locals)) = 3.
Proof.
  assert (station_files_of ex_env "/cdip/067" ≠ []) as Hfiles by done.
  split; [reflexivity|]. split; [exact Hfiles|].
  split; [exact ex_completion_order|]. split; [reflexivity|].
  exact (proj2 (progress_reaches_total ex_env [2; 0; 1]%nat "/cdip/067" "/out"
                  (Some 4) no_locals eq_refl Hfiles ex_completion_order eq_refl)).
Defined.

Lemma cleanup_always_runs_witness :
  isdir ex_env_failing (normpath ex_env_failing "/cdip/067") = true
  ∧ station_files_of ex_env_failing "/cdip/067" ≠ []
  ∧ filter (λ ev, is_cleanup ev = true)
      (events (process_cdip_station ex_env_failing [2; 0; 1]%nat "/cdip/067" "/out"
                 (Some 4) no_locals))
    = [PbarClose; StderrNewlines 5]
  ∧ filter (λ ev, is_cleanup ev = true)
      (events (process_cdip_station ex_env_failing [2; 0; 1]%nat "/cdip/067" "/out"
                 (Some (-5)) no_locals))
    = [PbarClose; StderrNewlines 0].
Proof.
  assert (station_files_of ex_env_failing "/cdip/067" ≠ []) as Hfiles by done.
  split; [reflexivity|]. split; [exact Hfiles|]. split.
  - exact (cleanup_always_runs ex_env_failing [2; 0; 1]%nat "/cdip/067" "/out"
             (Some 4) no_locals eq_refl Hfiles).
  - exact (cleanup_always_runs ex_env_failing [2; 0; 1]%nat "/cdip/067" "/out"
             (Some (-5)) no_locals eq_refl Hfiles).
Defined.

Lemma pool_submits_all_in_order_witness :
  isdir ex_env_failing (normpath ex_env_failing "/cdip/067") = true
  ∧ effective_nproc ex_env_failing (Some 4)
      (length (station_files_of ex_env_failing "/cdip/067")) > 1
  ∧ submitted (events (process_cdip_station ex_env_failing [2; 0; 1]%nat
                         "/cdip/067" "/out" (Some 4) no_locals))
    = [(0%nat, "067_d01.nc"); (1%nat, "067_d02.nc"); (2%nat, "067_d03.nc")].
Proof.
  split; [reflexivity|]. split; [reflexivity|].
  exact (proj1 (pool_submits_all_in_order ex_env_failing [2; 0; 1]%nat "/cdip/067"
                  "/out" (Some 4) no_locals eq_refl eq_refl)).
Defined.

Lemma small_batches_are_sequential_witness :
  (length (station_files_of ex_env "/cdip/067") = 1%nat
   ∨ ∃ p, Some 0 = Some p ∧ p ≤ 1)
  ∧ process_cdip_station ex_env [2; 0; 1]%nat "/cdip/067" "/out" (Some 0) no_locals
    = process_cdip_station ex_env [] "/cdip/067" "/out" (Some 0) no_locals.
Proof.
  assert (length (station_files_of ex_env "/cdip/067") = 1%nat
          ∨ ∃ p, Some 0 = Some p ∧ p ≤ 1) as Hsmall
    by (right; exists 0; split; [reflexivity|lia]).
  split; [exact Hsmall|].
  exact (proj1 (small_batches_are_sequential ex_env [2; 0; 1]%nat [] "/cdip/067"
                  "/out" (Some 0) no_locals Hsmall)).
Defined.

Lemma result_files_canonical_witness :
  isdir ex_env (normpath ex_env "/cdip/067") = true
  ∧ [2; 0; 1]%nat ≡ₚ seq 0 (length (station_files_of ex_env "/cdip/067"))
  ∧ outcome (process_cdip_station ex_env [2; 0; 1]%nat "/cdip/067" "/out" (Some 4)
               no_locals) = inr tt
  ∧ station_files_of ex_env "/cdip/067" !! 2%nat = Some "067_d03.nc"
  ∧ result_files (final (process_cdip_station ex_env [2; 0; 1]%nat "/cdip/067"
                           "/out" (Some 4) no_locals)) !! 2%nat
    = Some (Some "/out/067_d03.nc.waves.pkl").
Proof.
  split; [reflexivity|]. split; [exact ex_completion_order|].
  split; [reflexivity|]. split; [reflexivity|].
  exact (result_files_canonical ex_env [2; 0; 1]%nat "/cdip/067" "/out" (Some 4)
           no_locals 2 "067_d03.nc" eq_refl ex_completion_order eq_refl eq_refl).
Defined.



Lemma sequential_stops_at_first_failure_witness :
  isdir ex_env_failing_first (normpath ex_env_failing_first "/cdip/067") = true
  ∧ ¬ effective_nproc ex_env_failing_first (Some 1)
        (length (station_files_of ex_env_failing_first "/cdip/067")) > 1
  ∧ station_files_of ex_env_failing_first "/cdip/067" !! 0%nat = Some "067_d01.nc"
  ∧ unit_outcome ex_env_failing_first
      (station_files_of ex_env_failing_first "/cdip/067")
      (do_work_of ex_env_failing_first "/cdip/067" "/out") 0
    = inl (OtherError "singular matrix")
  ∧ outcome (process_cdip_station ex_env_failing_first [] "/cdip/067" "/out"
               (Some 1) no_locals) = inl (OtherError "singular matrix")
  ∧ calls (events (process_cdip_station ex_env_failing_first [] "/cdip/067" "/out"
                     (Some 1) no_locals))
    = ["067_d01.nc"].
Proof.
  assert (¬ effective_nproc ex_env_failing_first (Some 1)
              (length (station_files_of ex_env_failing_first "/cdip/067")) > 1)
    as Hn by done.
  split; [reflexivity|]. split; [exact Hn|]. split; [reflexivity|].
  split; [reflexivity|].
  destruct (sequential_stops_at_first_failure ex_env_failing_first [] "/cdip/067"
              "/out" (Some 1) no_locals 0 "067_d01.nc"
              (OtherError "singular matrix") eq_refl Hn eq_refl
              ltac:(intros j Hj; lia) eq_refl)
    as (Hout & Hcalls & _).
  split; [exact Hout|exact Hcalls].
Defined.

(** ** Masking of flagged data *)

Section MaskingFacts.
Context {V : Type}.
Variable nan : V.

Lemma set_where_lookup (mask : list bool) (xs : list V) (i : nat) :
  set_where nan mask xs !! i
  = match mask !! i with
    | Some true => (λ _, nan) <$> xs !! i
    | _ => xs !! i
    end.
Proof.
  revert xs i. induction mask as [|m mask IH]; intros [|x xs] [|i]; simpl;
    try done; try (by destruct m); try (by destruct (mask !! i) as [[]|]).
Qed.

Lemma set_rows_where_lookup (mask : list bool) (rows : list (list V)) (t : nat) :
  set_rows_where nan mask rows !! t
  = match mask !! t with
    | Some true => (λ row, (λ _, nan) <$> row) <$> rows !! t
    | _ => rows !! t
    end.
Proof.
  revert rows t. induction mask as [|m mask IH]; intros [|row rows] [|t]; simpl;
    try done; try (by destruct m); try (by destruct (mask !! t) as [[]|]).
Qed.

Lemma invalid_flags_lookup (primary secondary : list Z) (i : nat) (p s : Z) :
  primary !! i = Some p → secondary !! i = Some s →
  invalid_flags primary secondary !! i
  = Some (bool_decide (p > 2) || bool_decide (s > 0)).
Proof.
  intros Hp Hs. unfold invalid_flags. rewrite lookup_zip_with, Hp. simpl.
  by rewrite Hs.
Qed.

Lemma set_where_sample (primary secondary : list Z) (xs : list V) (i : nat)
    (p s : Z) (x : V) :
  primary !! i = Some p → secondary !! i = Some s → xs !! i = Some x →
  set_where nan (invalid_flags primary secondary) xs !! i
  = Some (if decide (p > 2 ∨ s > 0) then nan else x).
Proof.
  intros Hp Hs Hx.
  rewrite set_where_lookup, (invalid_flags_lookup _ _ _ _ _ Hp Hs), Hx.
  destruct (decide (p > 2 ∨ s > 0)) as [Hbad|Hgood].
  - destruct Hbad; [rewrite (bool_decide_eq_true_2 (p > 2)) by done|
                    rewrite (bool_decide_eq_true_2 (s > 0)), orb_true_r by done];
      done.
  - rewrite !bool_decide_eq_false_2 by tauto. done.
Qed.

Lemma mask_spectrum_cell (tp ts fp fs : list Z) (rows : list (list V))
    (t f : nat) (p s p' s' : Z) (row : list V) (v : V) :
  tp !! t = Some p → ts !! t = Some s → fp !! f = Some p' → fs !! f = Some s' →
  rows !! t = Some row → row !! f = Some v →
  ∃ row', mask_spectrum nan (invalid_flags tp ts) (invalid_flags fp fs) rows !! t
          = Some row'
          ∧ row' !! f
            = Some (if decide ((p > 2 ∨ s > 0) ∨ (p' > 2 ∨ s' > 0))
                    then nan else v).
Proof.
  intros Htp Hts Hfp Hfs Hrow Hv. unfold mask_spectrum, set_columns_where.
  rewrite list_lookup_fmap, set_rows_where_lookup.
  rewrite (invalid_flags_lookup _ _ _ _ _ Htp Hts), Hrow.
  destruct (decide (p > 2 ∨ s > 0)) as [Hbad|Hgood].
  - assert (bool_decide (p > 2) || bool_decide (s > 0) = true) as ->.
    { destruct Hbad; [rewrite (bool_decide_eq_true_2 (p > 2)) by done|
                      rewrite (bool_decide_eq_true_2 (s > 0)), orb_true_r by done];
        done. }
    simpl. eexists. split; [done|].
    rewrite (set_where_sample fp fs _ f p' s' nan Hfp Hfs).
    + repeat case_decide; try done; tauto.
    + by rewrite list_lookup_fmap, Hv.
  - rewrite !bool_decide_eq_false_2 by tauto. simpl. eexists. split; [done|].
    rewrite (set_where_sample fp fs _ f p' s' v Hfp Hfs Hv).
    repeat case_decide; try done; tauto.
Qed.

Lemma length_set_where (mask : list bool) (xs : list V) :
  length (set_where nan mask xs) = length xs.
Proof.
  revert xs. induction mask as [|m mask IH]; intros [|x xs]; simpl; try done.
  by rewrite IH.
Qed.

Lemma length_set_rows_where (mask : list bool) (rows : list (list V)) :
  length (set_rows_where nan mask rows) = length rows.
Proof.
  revert rows. induction mask as [|m mask IH]; intros [|row rows]; simpl; try done.
  by rewrite IH.
Qed.

Lemma set_where_idem (mask : list bool) (xs : list V) :
  set_where nan mask (set_where nan mask xs) = set_where nan mask xs.
Proof.
  revert xs. induction mask as [|m mask IH]; intros [|x xs]; simpl; try done.
  rewrite IH. by destruct m.
Qed.

Lemma fmap_nan_set_where (mask : list bool) (xs : list V) :
  (λ _, nan) <$> set_where nan mask xs = (λ _, nan) <$> xs.
Proof.
  revert xs. induction mask as [|m mask IH]; intros [|x xs]; simpl; try done.
  csimpl. by rewrite IH.
Qed.

Lemma fmap_nan_nan (xs : list V) :
  (λ _, nan) <$> ((λ _ : V, nan) <$> xs) = (λ _, nan) <$> xs.
Proof. induction xs as [|x xs IH]; [done|]. csimpl. by rewrite IH. Qed.

Lemma set_columns_where_idem (mask : list bool) (rows : list (list V)) :
  set_where nan mask <$> (set_where nan mask <$> rows)
  = set_where nan mask <$> rows.
Proof.
  induction rows as [|row rows IH]; [done|]. csimpl.
  by rewrite set_where_idem, IH.
Qed.

Lemma mask_spectrum_idem (time_invalid freq_invalid : list bool)
    (rows : list (list V)) :
  mask_spectrum nan time_invalid freq_invalid
    (mask_spectrum nan time_invalid freq_invalid rows)
  = mask_spectrum nan time_invalid freq_invalid rows.
Proof.
  unfold mask_spectrum, set_columns_where. revert rows.
  induction time_invalid as [|m mask IH]; intros [|row rows]; csimpl; try done.
  - by rewrite set_where_idem, set_columns_where_idem.
  - rewrite IH. f_equal. destruct m.
    + by rewrite fmap_nan_set_where, fmap_nan_nan.
    + apply set_where_idem.
Qed.

Lemma invalid_flags_valid (primary secondary : list Z) :
  Forall2 flags_valid primary secondary →
  Forall (λ m, m = false) (invalid_flags primary secondary).
Proof.
  unfold invalid_flags. induction 1 as [|p s ps ss [Hp Hs] _ IH]; csimpl;
    [constructor|].
  apply Forall_cons. split; [|done].
  rewrite !bool_decide_eq_false_2 by lia. done.
Qed.

Lemma set_where_none (mask : list bool) (xs : list V) :
  Forall (λ m, m = false) mask → set_where nan mask xs = xs.
Proof.
  intros Hmask. revert xs. induction Hmask as [|m mask -> _ IH]; intros [|x xs];
    simpl; try done.
  by rewrite IH.
Qed.

Lemma set_rows_where_none (mask : list bool) (rows : list (list V)) :
  Forall (λ m, m = false) mask → set_rows_where nan mask rows = rows.
Proof.
  intros Hmask. revert rows.
  induction Hmask as [|m mask -> _ IH]; intros [|row rows]; simpl; try done.
  by rewrite IH.
Qed.

Lemma mask_spectrum_none (time_invalid freq_invalid : list bool)
    (rows : list (list V)) :
  Forall (λ m, m = false) time_invalid → Forall (λ m, m = false) freq_invalid →
  mask_spectrum nan time_invalid freq_invalid rows = rows.
Proof.
  intros Ht Hf. unfold mask_spectrum, set_columns_where.
  rewrite set_rows_where_none by done.
  rewrite <-(list_fmap_id rows) at 2. apply list_fmap_ext. intros _ row _.
  by apply set_where_none.
Qed.

Lemma set_rows_where_row_lengths (mask : list bool) (rows : list (list V))
    (k : nat) :
  Forall (λ row, length row = k) rows →
  Forall (λ row, length row = k) (set_rows_where nan mask rows).
Proof.
  revert rows. induction mask as [|m mask IH]; intros [|row rows] Hall; simpl;
    try done.
  apply Forall_cons in Hall as [Hrow Hall]. apply Forall_cons. split; [|by apply IH].
  destruct m; [by rewrite length_fmap|done].
Qed.

(** X16. After the masking, a displacement sample is [nan] when its
    primary flag is above 2 or its secondary flag is above 0, and is the
    sample as it was otherwise; the same holds of the peak direction of a
    spectrum with the flags of the spectrum. *)
Theorem mask_invalid_samples (data : dataset V) (i : nat) (p s : Z) (x : V) :
  (xyzFlagPrimary data !! i = Some p → xyzFlagSecondary data !! i = Some s →
   xyzZDisplacement data !! i = Some x →
   xyzZDisplacement (mask_invalid nan data) !! i
   = Some (if decide (p > 2 ∨ s > 0) then nan else x))
  ∧ (waveFlagPrimary data !! i = Some p → waveFlagSecondary data !! i = Some s →
     waveDp data !! i = Some x →
     waveDp (mask_invalid nan data) !! i
     = Some (if decide (p > 2 ∨ s > 0) then nan else x)).
Proof. split; intros Hp Hs Hx; by apply set_where_sample. Qed.

(** X17. After the masking, the value of each two-dimensional variable
    (spread, mean direction, energy density) at a spectrum and a frequency
    is [nan] when the spectrum is flagged or the frequency is flagged
    (primary flag above 2 or secondary flag above 0), and is the value as
    it was otherwise. *)
Theorem mask_invalid_spectra (data : dataset V) (t f : nat) (p s p' s' : Z) :
  waveFlagPrimary data !! t = Some p → waveFlagSecondary data !! t = Some s →
  waveFrequencyFlagPrimary data !! f = Some p' →
  waveFrequencyFlagSecondary data !! f = Some s' →
  Forall (λ var : dataset V → list (list V),
    ∀ row v, var data !! t = Some row → row !! f = Some v →
      ∃ row', var (mask_invalid nan data) !! t = Some row'
              ∧ row' !! f
                = Some (if decide ((p > 2 ∨ s > 0) ∨ (p' > 2 ∨ s' > 0))
                        then nan else v))
    [waveSpread; waveMeanDirection; waveEnergyDensity].
Proof.
  intros Htp Hts Hfp Hfs.
  repeat (apply Forall_cons; split; [intros row v Hrow Hv;
    by apply (mask_spectrum_cell _ _ _ _ _ t f p s p' s' row v)|]).
  constructor.
Qed.

(** X18. The masking is idempotent, it leaves every flag as it is, and it
    keeps the shape of the dataset. *)
Theorem mask_invalid_idempotent (data : dataset V) :
  mask_invalid nan (mask_invalid nan data) = mask_invalid nan data
  ∧ xyzFlagPrimary (mask_invalid nan data) = xyzFlagPrimary data
  ∧ xyzFlagSecondary (mask_invalid nan data) = xyzFlagSecondary data
  ∧ waveFlagPrimary (mask_invalid nan data) = waveFlagPrimary data
  ∧ waveFlagSecondary (mask_invalid nan data) = waveFlagSecondary data
  ∧ waveFrequencyFlagPrimary (mask_invalid nan data) = waveFrequencyFlagPrimary data
  ∧ waveFrequencyFlagSecondary (mask_invalid nan data)
    = waveFrequencyFlagSecondary data
  ∧ (well_shaped data → well_shaped (mask_invalid nan data)).
Proof.
  split; [|repeat (split; [done|])].
  - unfold mask_invalid. cbn [xyzFlagPrimary xyzFlagSecondary xyzZDisplacement
      waveFlagPrimary waveFlagSecondary waveFrequencyFlagPrimary
      waveFrequencyFlagSecondary waveDp waveSpread waveMeanDirection
      waveEnergyDensity].
    by rewrite !set_where_idem, !mask_spectrum_idem.
  - intros (H1 & H2 & H3 & H4 & H5 & Hrows).
    unfold well_shaped, mask_invalid. cbn [xyzFlagPrimary xyzFlagSecondary
      xyzZDisplacement waveFlagPrimary waveFlagSecondary waveFrequencyFlagPrimary
      waveFrequencyFlagSecondary waveDp waveSpread waveMeanDirection
      waveEnergyDensity].
    rewrite !length_set_where. do 5 (split; [done|]).
    assert (∀ rows ti fi,
              length rows = length (waveDp data)
              ∧ Forall (λ row, length row = length (waveFrequencyFlagPrimary data))
                  rows →
              length (mask_spectrum nan ti fi rows) = length (waveDp data)
              ∧ Forall (λ row, length row = length (waveFrequencyFlagPrimary data))
                  (mask_spectrum nan ti fi rows)) as Hshape.
    { intros rows ti fi [Hlen Hall]. unfold mask_spectrum, set_columns_where.
      rewrite length_fmap, length_set_rows_where. split; [done|].
      apply Forall_fmap. eapply Forall_impl;
        [exact (set_rows_where_row_lengths ti rows _ Hall)|].
      intros row Hrow. simpl. by rewrite length_set_where. }
    apply Forall_cons in Hrows as [Ha Hrows].
    apply Forall_cons in Hrows as [Hb Hrows].
    apply Forall_cons in Hrows as [Hc _].
    repeat (apply Forall_cons; split; [by apply Hshape|]). constructor.
Qed.

(** X19. Data without any flag set (every primary flag at most 2 and every
    secondary flag at most 0, for the samples, the spectra and the
    frequencies) pass the masking unchanged. *)
Theorem mask_invalid_clean (data : dataset V) :
  Forall2 flags_valid (xyzFlagPrimary data) (xyzFlagSecondary data) →
  Forall2 flags_valid (waveFlagPrimary data) (waveFlagSecondary data) →
  Forall2 flags_valid (waveFrequencyFlagPrimary data)
    (waveFrequencyFlagSecondary data) →
  mask_invalid nan data = data.
Proof.
  intros Hxyz Htime Hfreq. unfold mask_invalid.
  apply invalid_flags_valid in Hxyz, Htime, Hfreq.
  rewrite !set_where_none, !mask_spectrum_none by done. by destruct data.
Qed.
End MaskingFacts.

Lemma mask_invalid_samples_witness :
  xyzFlagPrimary ex_dataset !! 1%nat = Some 3
  ∧ xyzFlagSecondary ex_dataset !! 1%nat = Some 0
  ∧ xyzZDisplacement ex_dataset !! 1%nat = Some (Some 11)
  ∧ xyzZDisplacement (mask_invalid None ex_dataset) !! 1%nat = Some None.
Proof.
  split; [reflexivity|]. split; [reflexivity|]. split; [reflexivity|].
  rewrite (proj1 (mask_invalid_samples None ex_dataset 1 3 0 (Some 11))
             eq_refl eq_refl eq_refl).
  reflexivity.
Defined.

Lemma mask_invalid_spectra_witness :
  waveFlagPrimary ex_dataset !! 1%nat = Some 1
  ∧ waveFlagSecondary ex_dataset !! 1%nat = Some 0
  ∧ waveFrequencyFlagPrimary ex_dataset !! 1%nat = Some 4
  ∧ waveFrequencyFlagSecondary ex_dataset !! 1%nat = Some 0
  ∧ ∃ row', waveSpread (mask_invalid None ex_dataset) !! 1%nat = Some row'
            ∧ row' !! 1%nat = Some None.
Proof.
  split; [reflexivity|]. split; [reflexivity|]. split; [reflexivity|].
  split; [reflexivity|].
  pose proof (mask_invalid_spectra None ex_dataset 1 1 1 0 4 0
                eq_refl eq_refl eq_refl eq_refl) as Hall.
  apply Forall_cons in Hall as [Hspread _].
  exact (Hspread [Some 3; Some 4] (Some 4) eq_refl eq_refl).
Defined.

Lemma ex_dataset_well_shaped : well_shaped ex_dataset.
Proof.
  unfold well_shaped. simpl. repeat split; try reflexivity.
  repeat constructor.
Qed.

Lemma mask_invalid_idempotent_witness :
  well_shaped ex_dataset
  ∧ well_shaped (mask_invalid None ex_dataset)
  ∧ mask_invalid None (mask_invalid None ex_dataset) = mask_invalid None ex_dataset.
Proof.
  split; [exact ex_dataset_well_shaped|].
  destruct (mask_invalid_idempotent None ex_dataset)
    as (Hidem & _ & _ & _ & _ & _ & _ & Hshape).
  split; [exact (Hshape ex_dataset_well_shaped)|exact Hidem].
Defined.

Lemma ex_dataset_clean_flags :
  Forall2 flags_valid (xyzFlagPrimary ex_dataset_clean)
    (xyzFlagSecondary ex_dataset_clean)
  ∧ Forall2 flags_valid (waveFlagPrimary ex_dataset_clean)
      (waveFlagSecondary ex_dataset_clean)
  ∧ Forall2 flags_valid (waveFrequencyFlagPrimary ex_dataset_clean)
      (waveFrequencyFlagSecondary ex_dataset_clean).
Proof. repeat split; repeat constructor; done. Qed.

Lemma mask_invalid_clean_witness :
  Forall2 flags_valid (xyzFlagPrimary ex_dataset_clean)
    (xyzFlagSecondary ex_dataset_clean)
  ∧ Forall2 flags_valid (waveFlagPrimary ex_dataset_clean)
      (waveFlagSecondary ex_dataset_clean)
  ∧ Forall2 flags_valid (waveFrequencyFlagPrimary ex_dataset_clean)
      (waveFrequencyFlagSecondary ex_dataset_clean)
  ∧ mask_invalid None ex_dataset_clean = ex_dataset_clean.
Proof.
  destruct ex_dataset_clean_flags as (Hxyz & Htime & Hfreq).
  split; [exact Hxyz|]. split; [exact Htime|]. split; [exact Hfreq|].
  exact (mask_invalid_clean None ex_dataset_clean Hxyz Htime Hfreq).
Defined.

(** ** The log lines about the files *)

Lemma file_reports_app (evs1 evs2 : list event) :
  file_reports (evs1 ++ evs2) = file_reports evs1 ++ file_reports evs2.
Proof. apply flat_map_app. Qed.

Lemma file_reports_flag_events (flags : list (string * Z)) :
  file_reports (flag_events flags) = [].
Proof. induction flags as [|kv flags IH]; [done|exact IH]. Qed.

Lemma file_reports_submits (station_files : list string) :
  file_reports (submits station_files) = [].
Proof.
  unfold submits. induction (enumerate station_files) as [|x l IH]; [done|exact IH].
Qed.

Lemma file_reports_epilogue (evs : list event) :
  Forall epilogue_event evs → file_reports evs = [].
Proof.
  induction 1 as [|ev evs Hev _ IH]; [done|].
  unfold file_reports in *. csimpl. rewrite IH.
  by destruct ev as [[] []| | | | | | | | | | | |].
Qed.

Section Reports2.
Variable E : env.
Variable station_files : list string.
Variable do_work : string → exn + (option string * option string).

Lemma handle_result_report (i : nat) (station_file : string)
    (result : option string * option string) (st : locals) :
  station_files !! i = Some station_file →
  do_work station_file = inr result →
  length (result_files st) = length station_files →
  outcome (handle_result E station_files i result st) = inr tt →
  file_reports (events (handle_result E station_files i result st))
  = unit_report station_files do_work i.
Proof.
  intros Hfile Hwork Hlen.
  assert (i < length (result_files st))%nat as Hi
    by (rewrite Hlen; by eapply lookup_lt_Some).
  rewrite (handle_result_run _ _ _ _ _ _ Hfile Hi).
  unfold unit_report. rewrite Hfile, Hwork.
  destruct result as [[result_file|] [state_file|]]; try done.
  destruct (count_waves _ 0); [done|]. intros _.
  cbn [events]. rewrite file_reports_app, file_reports_flag_events. done.
Qed.

(** In a loop over units that ends normally, the log reports each unit in
    turn. *)
Lemma for_each_reports {A : Type} (idx : A → nat) (body : A → M unit)
    (l : list A) (st : locals) :
  Forall (λ x, handles E station_files do_work (body x) (idx x)) l →
  Forall (λ x, ∀ st,
            length (result_files st) = length station_files →
            outcome (body x st) = inr tt →
            file_reports (events (body x st))
            = unit_report station_files do_work (idx x)) l →
  length (result_files st) = length station_files →
  outcome (for_each l body st) = inr tt →
  file_reports (events (for_each l body st))
  = flat_map (unit_report station_files do_work) (idx <$> l).
Proof.
  intros Hh Hrep. revert st.
  induction l as [|x l IH]; intros st Hlen Hok; [done|].
  apply Forall_cons in Hh as [Hx Hh]. apply Forall_cons in Hrep as [Hxr Hrep].
  destruct (Hx st Hlen) as [_ Hr]. rewrite for_each_cons in Hok |- *.
  destruct (unit_outcome E station_files do_work (idx x)) as [e|o].
  - destruct Hr as [Hout _]. by rewrite (bind_inl _ _ _ _ Hout) in Hok.
  - destruct Hr as (Hout & Hfin & _). rewrite (bind_inr _ _ _ _ Hout) in Hok |- *.
    cbn [events outcome] in Hok |- *.
    rewrite file_reports_app, (Hxr st Hlen Hout). csimpl. f_equal.
    apply IH; try done. by rewrite Hfin, unit_store_length.
Qed.

Lemma parallel_body_report (i : nat) (st : locals) :
  length (result_files st) = length station_files →
  outcome (parallel_body E station_files do_work i st) = inr tt →
  file_reports (events (parallel_body E station_files do_work i st))
  = unit_report station_files do_work i.
Proof.
  intros Hlen. unfold parallel_body.
  destruct (station_files !! i) as [station_file|] eqn:Hfile.
  - rewrite (index_Some _ _ _ Hfile), ret_bind.
    destruct (do_work station_file) as [e|result] eqn:Hwork.
    + by rewrite lift_inl_bind.
    + rewrite lift_inr_bind. by apply (handle_result_report i station_file).
  - by rewrite (index_None _ _ Hfile), raise_bind.
Qed.

Lemma sequential_body_report (i : nat) (station_file : string) (st : locals) :
  station_files !! i = Some station_file →
  length (result_files st) = length station_files →
  outcome ((emit (Call station_file) ;;
            result ← lift (do_work station_file) ;
            handle_result E station_files i result) st) = inr tt →
  file_reports
    (events ((emit (Call station_file) ;;
              result ← lift (do_work station_file) ;
              handle_result E station_files i result) st))
  = unit_report station_files do_work i.
Proof.
  intros Hfile Hlen. rewrite emit_bind. cbn [events outcome].
  destruct (do_work station_file) as [e|result] eqn:Hwork.
  - by rewrite lift_inl_bind.
  - rewrite lift_inr_bind. intros Hok.
    change (Call station_file :: ?evs) with ([Call station_file] ++ evs).
    rewrite file_reports_app. by apply (handle_result_report i station_file).
Qed.
End Reports2.

(** X20. In a call that returns, the log names every station file exactly
    once, as finished or as skipped, in the order in which the units were
    handled: the order of completion under the pool, the canonical order
    otherwise. A file is reported as skipped exactly when its slot of
    [result_files] stays unset. *)
Theorem files_reported_in_handling_order (E : env) (as_completed : list nat)
    (station_folder out_folder : string) (nproc : option Z) (st0 : locals) :
  isdir E (normpath E station_folder) = true →
  station_files_of E station_folder ≠ [] →
  outcome (process_cdip_station E as_completed station_folder out_folder nproc st0)
  = inr tt →
  file_reports
    (events (process_cdip_station E as_completed station_folder out_folder
               nproc st0))
  = flat_map
      (unit_report (station_files_of E station_folder)
         (do_work_of E station_folder out_folder))
      (handling_order E as_completed station_folder nproc).
Proof.
  intros Hdir Hfiles Hok.
  destruct (process_cdip_station_shape E as_completed station_folder out_folder
              nproc st0 Hdir Hfiles) as (after & Hev & Hafter).
  destruct (process_cdip_station_summary E as_completed station_folder
              out_folder nproc st0 Hdir Hfiles) as (_ & Hout & _).
  rewrite Hok in Hout.
  assert (outcome (dispatch E as_completed station_folder out_folder nproc)
          = inr tt) as Hd
    by (by destruct (outcome (dispatch E as_completed station_folder out_folder
                                nproc)) as [e|[]]).
  rewrite Hev, !file_reports_app, (file_reports_epilogue after Hafter).
  simpl. rewrite app_nil_r.
  unfold dispatch, handling_order in *.
  destruct (decide (effective_nproc E nproc
                      (length (station_files_of E station_folder)) > 1)).
  - rewrite process_parallel_run in Hd |- *. cbv zeta in Hd |- *.
    cbn [outcome events] in Hd |- *. rewrite Hd.
    change (PoolOpen ?k :: ?l) with ([PoolOpen k] ++ l).
    rewrite !file_reports_app, file_reports_submits. simpl. rewrite app_nil_r.
    rewrite <-(list_fmap_id as_completed) at 2.
    apply (for_each_reports E); try done.
    + apply Forall_true. intros i. apply parallel_body_handles.
    + apply Forall_true. intros i st. apply parallel_body_report.
    + apply init_locals_length.
  - unfold process_sequential in *.
    rewrite <-(enumerate_indices (station_files_of E station_folder)).
    apply (for_each_reports E); try done.
    + apply Forall_forall. intros [i f] Hin.
      by apply sequential_body_handles, enumerate_lookup.
    + apply Forall_forall. intros [i f] Hin st.
      by apply sequential_body_report, enumerate_lookup.
    + apply init_locals_length.
Qed.

Lemma files_reported_in_handling_order_witness :
  isdir ex_env (normpath ex_env "/cdip/067") = true
  ∧ station_files_of ex_env "/cdip/067" ≠ []
  ∧ outcome (process_cdip_station ex_env [2; 0; 1]%nat "/cdip/067" "/out" (Some 4)
               no_locals) = inr tt
  ∧ file_reports (events (process_cdip_station ex_env [2; 0; 1]%nat "/cdip/067"
                            "/out" (Some 4) no_locals))
    = [("067_d03.nc", false); ("067_d01.nc", false); ("067_d02.nc", true)].
Proof.
  assert (station_files_of ex_env "/cdip/067" ≠ []) as Hfiles by done.
  split; [reflexivity|]. split; [exact Hfiles|]. split; [reflexivity|].
  rewrite (files_reported_in_handling_order ex_env [2; 0; 1]%nat "/cdip/067"
             "/out" (Some 4) no_locals eq_refl Hfiles eq_refl).
  reflexivity.
Defined.

(** ** The abort under the pool *)

(** A loop stops at the first element whose body raises: the later
    elements are not run. *)
Lemma for_each_stops {A : Type} (body : A → M unit) (l1 l2 : list A) (x : A)
    (e : exn) (st : locals) :
  outcome (for_each l1 body st) = inr tt →
  outcome (body x (final (for_each l1 body st))) = inl e →
  for_each (l1 ++ x :: l2) body st
  = Run (inl e) (final (body x (final (for_each l1 body st))))
      (events (for_each l1 body st)
         ++ events (body x (final (for_each l1 body st)))).
Proof.
  revert st. induction l1 as [|y l1 IH]; intros st Hok Hfail.
  - change (final (for_each [] body st)) with st in *.
    change (events (for_each [] body st)) with (@nil event).
    cbn [app]. rewrite for_each_cons. by rewrite (bind_inl _ _ _ e).
  - rewrite <-app_comm_cons, !for_each_cons in *.
    destruct (outcome (body y st)) as [e'|[]] eqn:Hy.
    { by rewrite (bind_inl _ _ _ e') in Hok. }
    rewrite (bind_inr _ _ _ tt) in Hok by done.
    rewrite (bind_inr _ _ _ tt) in Hfail by done.
    rewrite !(bind_inr _ _ _ tt) by done.
    cbn [outcome final events] in Hok, Hfail |- *.
    rewrite (IH _ Hok Hfail). cbn [outcome final events].
    by rewrite <-app_assoc.
Qed.

Lemma fold_units_length (E : env) (station_files : list string)
    (do_work : string → exn + (option string * option string))
    (l : list nat) (st st' : locals) :
  fold_units E station_files do_work l st = inr st' →
  length (result_files st') = length (result_files st).
Proof.
  revert st. induction l as [|i l IH]; intros st Hfold.
  - by injection Hfold as <-.
  - simpl in Hfold.
    destruct (unit_outcome E station_files do_work i) as [e|o]; [done|].
    by rewrite (IH _ Hfold), unit_store_length.
Qed.

(** The events of a unit that raises. *)
Lemma parallel_body_failed (E : env) (station_files : list string)
    (do_work : string → exn + (option string * option string)) (i : nat)
    (e : exn) (st : locals) :
  length (result_files st) = length station_files →
  unit_outcome E station_files do_work i = inl e →
  parallel_body E station_files do_work i st
  = Run (inl e) st (failed_unit_events station_files do_work i).
Proof.
  intros Hlen. unfold unit_outcome, failed_unit_events, parallel_body.
  destruct (station_files !! i) as [station_file|] eqn:Hfile.
  - rewrite (index_Some _ _ _ Hfile), ret_bind.
    assert (i < length (result_files st))%nat as Hi
      by (rewrite Hlen; by eapply lookup_lt_Some).
    destruct (do_work station_file) as [e'|[[result_file|] [state_file|]]];
      try done.
    + intros [= <-]. by rewrite lift_inl_bind.
    + rewrite lift_inr_bind, (handle_result_run _ _ _ _ _ _ Hfile Hi).
      destruct (count_waves _ 0); [|done]. by intros [= <-].
  - intros [= <-]. by rewrite (index_None _ _ Hfile), raise_bind.
Qed.

Section FailFast.
Variable E : env.
Variable as_completed : list nat.
Variables station_folder out_folder : string.
Variable nproc : option Z.
Variable st0 : locals.

#[local] Abbreviation sf := (station_files_of E station_folder).
#[local] Abbreviation dw := (do_work_of E station_folder out_folder).
#[local] Abbreviation n := (effective_nproc E nproc (length sf)).
#[local] Abbreviation r :=
  (process_cdip_station E as_completed station_folder out_folder nproc st0).

(** The loop over the completed futures, when the units of [done_before]
    are handled and unit [i] raises. *)
Lemma parallel_loop_stops (done_before rest : list nat) (i : nat) (e : exn)
    (st : locals) :
  length (result_files st) = length sf →
  Forall (unit_ok E sf dw) done_before →
  unit_outcome E sf dw i = inl e →
  outcome (parallel_loop E done_before sf dw st) = inr tt
  ∧ fold_units E sf dw done_before st
    = inr (final (parallel_loop E done_before sf dw st))
  ∧ parallel_loop E (done_before ++ i :: rest) sf dw st
    = Run (inl e) (final (parallel_loop E done_before sf dw st))
        (events (parallel_loop E done_before sf dw st)
           ++ failed_unit_events sf dw i).
Proof.
  intros Hlen Hdone Hi.
  destruct (fold_units_ok E sf dw done_before st Hdone) as [st' Hfold].
  destruct (parallel_loop_fold E done_before station_folder out_folder st Hlen)
    as [_ Hloop].
  rewrite Hfold in Hloop. destruct Hloop as (Hout & Hfin & _).
  split; [done|]. split; [by rewrite Hfin|].
  assert (length (result_files st') = length sf) as Hlen'
    by (by rewrite (fold_units_length _ _ _ _ _ _ Hfold)).
  pose proof (parallel_body_failed E sf dw i e st' Hlen' Hi) as Hbody.
  unfold parallel_loop in *.
  rewrite (for_each_stops _ _ _ _ e) by (by rewrite ?Hfin, ?Hbody).
  by rewrite Hfin, Hbody.
Qed.

(** C3. Under the pool, when the computation of some station file raises,
    the call raises: the exception is that of the first unit, in the order
    of completion, whose computation or handling raises (the very exception
    of its computation when that is what raised), and it reaches the caller
    as it is. The trace of the call is known event by event: after the
    submissions come the handling of the units that completed before the
    failing one, then what the failing unit emitted (nothing when its
    computation raised), and at once the termination of the worker
    processes and the leaving of the pool and of the progress bar. No unit
    that completes after the failing one is waited for or handled: the
    locals are those left by the units handled before, the slot of the
    failing unit and of every later one is still [None], the log reports
    the units handled before and no other, and the dataset writer is never
    called. *)
Theorem fail_fast_abort :
  isdir E (normpath E station_folder) = true →
  effective_nproc E nproc (length (station_files_of E station_folder)) > 1 →
  as_completed ≡ₚ seq 0 (length (station_files_of E station_folder)) →
  (∃ i f e, station_files_of E station_folder !! i = Some f
            ∧ do_work_of E station_folder out_folder f = inl e) →
  ∃ done_before i rest e,
    as_completed = done_before ++ i :: rest
    ∧ Forall (unit_ok E (station_files_of E station_folder)
                (do_work_of E station_folder out_folder)) done_before
    ∧ unit_outcome E (station_files_of E station_folder)
        (do_work_of E station_folder out_folder) i = inl e
    ∧ (∀ f e', station_files_of E station_folder !! i = Some f →
               do_work_of E station_folder out_folder f = inl e' →
               e' = e
               ∧ failed_unit_events (station_files_of E station_folder)
                   (do_work_of E station_folder out_folder) i = [])
    ∧ outcome (process_cdip_station E as_completed station_folder out_folder nproc st0)
      = inl e
    ∧ events (process_cdip_station E as_completed station_folder out_folder nproc st0)
      = [Log Info (StartingStation (station_id_of E station_folder)
                     (length (station_files_of E station_folder)));
         PbarOpen (length (station_files_of E station_folder))
           (effective_nproc E nproc (length (station_files_of E station_folder)));
         PoolOpen
           (effective_nproc E nproc (length (station_files_of E station_folder)))]
        ++ submits (station_files_of E station_folder)
        ++ events (parallel_loop E done_before (station_files_of E station_folder)
                     (do_work_of E station_folder out_folder)
                     (init_locals (length (station_files_of E station_folder))))
        ++ failed_unit_events (station_files_of E station_folder)
             (do_work_of E station_folder out_folder) i
        ++ [Terminate; PoolShutdown; PbarClose;
            StderrNewlines
              (Z.to_nat
                 (effective_nproc E nproc
                    (length (station_files_of E station_folder)) + 2))]
    ∧ fold_units E (station_files_of E station_folder)
        (do_work_of E station_folder out_folder) done_before
        (init_locals (length (station_files_of E station_folder)))
      = inr (final (process_cdip_station E as_completed station_folder out_folder
                      nproc st0))
    ∧ Forall (λ j, result_files
                     (final (process_cdip_station E as_completed station_folder
                               out_folder nproc st0)) !! j = Some None)
        (i :: rest)
    ∧ file_reports
        (events (process_cdip_station E as_completed station_folder out_folder
                   nproc st0))
      = flat_map (unit_report (station_files_of E station_folder)
                    (do_work_of E station_folder out_folder)) done_before
    ∧ pbar_progress
        (events (process_cdip_station E as_completed station_folder out_folder
                   nproc st0))
      = Z.of_nat (length done_before)
        + pbar_progress (failed_unit_events (station_files_of E station_folder)
                           (do_work_of E station_folder out_folder) i)
    ∧ written
        (events (process_cdip_station E as_completed station_folder out_folder nproc st0))
      = [].
Proof.
  intros Hdir Hn Hperm (i0 & f0 & e0 & Hf0 & He0).
  pose proof (pool_needs_files E station_folder nproc Hn) as Hfiles.
  assert (Exists (unit_fails E sf dw) as_completed) as Hex.
  { apply Exists_exists. exists i0. split.
    - rewrite Hperm. apply elem_of_seq. split; [lia|].
      simpl. by eapply lookup_lt_Some.
    - exists e0. unfold unit_outcome. by rewrite Hf0, He0. }
  destruct (first_failure _ _ _ _ Hex) as (done_before & i & rest & e & Heq & Hok & Hi).
  exists done_before, i, rest, e. do 3 (split; [done|]).
  split.
  { intros f e' Hf He'. unfold failed_unit_events.
    unfold unit_outcome in Hi. rewrite Hf, He' in Hi |- *.
    split; [by injection Hi|done]. }
  destruct (parallel_loop_stops done_before rest i e (init_locals (length sf))
              (init_locals_length _) Hok Hi) as (Hbefore & Hfold & Hloop).
  set (before := parallel_loop E done_before sf dw (init_locals (length sf))) in *.
  assert (dispatch E as_completed station_folder out_folder nproc
          = Run (inl e) (final before)
              (PoolOpen n :: submits sf ++ events before
                 ++ failed_unit_events sf dw i ++ [Terminate; PoolShutdown]))
    as Hd.
  { unfold dispatch. rewrite decide_True by done.
    rewrite process_parallel_run, Heq, Hloop. cbn [outcome final events].
    by rewrite <-!app_assoc. }
  rewrite (process_cdip_station_raised E as_completed station_folder out_folder
             nproc st0 e Hdir Hfiles) by (by rewrite Hd).
  cbn [outcome final events]. split; [done|].
  assert (dispatch_events E as_completed station_folder out_folder nproc
          = [Log Info (StartingStation (station_id_of E station_folder) (length sf));
             PbarOpen (length sf) n; PoolOpen n]
            ++ submits sf ++ events before ++ failed_unit_events sf dw i
            ++ [Terminate; PoolShutdown; PbarClose;
                StderrNewlines (Z.to_nat (n + 2))]) as Hev.
  { unfold dispatch_events. cbv zeta. rewrite Hd. cbn [events].
    simpl. by rewrite <-!app_assoc. }
  split; [exact Hev|]. rewrite Hd. cbn [final]. split; [done|].
  assert (NoDup as_completed) as Hnd by (rewrite Hperm; apply NoDup_seq).
  split.
  { apply Forall_forall. intros j Hj.
    assert (j ∈ as_completed) as Hin
      by (rewrite Heq; apply elem_of_app; by right).
    assert (j ∉ done_before) as Hnot.
    { rewrite Heq in Hnd. apply NoDup_app in Hnd as (_ & Hdisj & _).
      intros Hjd. by apply (Hdisj j Hjd). }
    rewrite Hperm in Hin. apply elem_of_seq in Hin as [_ Hlt].
    rewrite (fold_units_lookup E sf dw _ _ _ j None Hfold).
    2: { apply lookup_replicate. split; [done|]. simpl in Hlt. lia. }
    destruct (unit_outcome E sf dw j) as [|[[[??]?]|]]; try done.
    by rewrite decide_False. }
  split.
  { rewrite Hev, !file_reports_app, file_reports_submits.
    assert (file_reports (failed_unit_events sf dw i) = []) as ->.
    { unfold failed_unit_events. destruct (sf !! i) as [f|]; [|done].
      by destruct (dw f) as [|[[|] [|]]]. }
    pose proof (for_each_reports E sf dw id (parallel_body E sf dw) done_before
                  (init_locals (length sf))) as Hrep.
    rewrite list_fmap_id in Hrep. fold (parallel_loop E done_before sf dw) in Hrep.
    fold before in Hrep. rewrite Hrep.
    - cbn [file_reports flat_map app]. by rewrite app_nil_r.
    - apply Forall_true. intros j. apply parallel_body_handles.
    - apply Forall_true. intros j st. apply parallel_body_report.
    - apply init_locals_length.
    - done. }
  split; [|apply written_dispatch_events].
  rewrite Hev, !pbar_progress_app, pbar_progress_submits.
  destruct (parallel_loop_unit_events E done_before station_folder out_folder)
    as [_ Hprog].
  fold before in Hprog. rewrite (Hprog Hbefore).
  unfold pbar_progress at 1 3, sumZ. simpl. lia.
Qed.
End FailFast.

Lemma ex_completion_order_failing : [0; 2; 1]%nat ≡ₚ seq 0 3.
Proof. simpl. by rewrite (Permutation_swap 2%nat 1%nat []). Qed.

Lemma fail_fast_abort_witness :
  isdir ex_env_failing (normpath ex_env_failing "/cdip/067") = true
  ∧ effective_nproc ex_env_failing (Some 4)
      (length (station_files_of ex_env_failing "/cdip/067")) > 1
  ∧ [0; 2; 1]%nat ≡ₚ seq 0 (length (station_files_of ex_env_failing "/cdip/067"))
  ∧ do_work_of ex_env_failing "/cdip/067" "/out" "067_d03.nc"
    = inl (OtherError "singular matrix")
  ∧ outcome (process_cdip_station ex_env_failing [0; 2; 1]%nat "/cdip/067" "/out"
               (Some 4) no_locals) = inl (OtherError "singular matrix")
  ∧ events (process_cdip_station ex_env_failing [0; 2; 1]%nat "/cdip/067" "/out"
              (Some 4) no_locals)
    = [Log Info (StartingStation "067" 3); PbarOpen 3 3; PoolOpen 3;
       Submit 0 "067_d01.nc"; Submit 1 "067_d02.nc"; Submit 2 "067_d03.nc";
       PbarUpdate 1; ReadChunks "/out/067_d01.nc.waves.pkl";
       ReadState "/out/067_d01.nc.state.pkl";
       Log Info (FinishedFile "067_d01.nc" 1 3); Log Info (FoundWaves 5);
       Log Info FlagsFired; Log Info (FlagCount "a" 1); Log Info (FlagCount "b" 4);
       Terminate; PoolShutdown; PbarClose; StderrNewlines 5]
  ∧ result_files
      (final (process_cdip_station ex_env_failing [0; 2; 1]%nat "/cdip/067" "/out"
                (Some 4) no_locals)) !! 1%nat = Some None.
Proof.
  split; [reflexivity|]. split; [reflexivity|].
  split; [exact ex_completion_order_failing|]. split; [reflexivity|].
  destruct (fail_fast_abort ex_env_failing [0; 2; 1]%nat "/cdip/067" "/out"
              (Some 4) no_locals eq_refl eq_refl ex_completion_order_failing)
    as (done_before & i & rest & e & Heq & Hok & Hi & _ & Hout & Hev & _
        & Hrest & _).
  { exists 2%nat, "067_d03.nc", (OtherError "singular matrix"). by split. }
  destruct done_before as [|a [|b done_before]].
  - injection Heq as <- <-. vm_compute in Hi. discriminate Hi.
  - injection Heq as <- <- <-. vm_compute in Hi. injection Hi as <-.
    split; [exact Hout|]. split; [rewrite Hev; reflexivity|].
    apply Forall_cons in Hrest as [_ Hrest].
    by apply Forall_cons in Hrest as [Hrest _].
  - injection Heq as <- <- Heq.
    apply Forall_cons in Hok as [_ Hok]. apply Forall_cons in Hok as [[o Ho] _].
    vm_compute in Ho. discriminate Ho.
Defined.

Lemma returned_call_parsed_or_computed_witness :
  isdir ex_env (normpath ex_env "/cdip/067") = true
  ∧ [2; 0; 1]%nat ≡ₚ seq 0 (length (station_files_of ex_env "/cdip/067"))
  ∧ outcome (process_cdip_station ex_env [2; 0; 1]%nat "/cdip/067" "/out" (Some 4)
               no_locals) = inr tt
  ∧ station_files_of ex_env "/cdip/067" !! 1%nat = Some "067_d02.nc"
  ∧ station_files_of ex_env "/cdip/067" !! 2%nat = Some "067_d03.nc"
  ∧ get_cdip_data ex_env "067_d02.nc" = inl InvalidCDIPFile
  ∧ result_files
      (final (process_cdip_station ex_env [2; 0; 1]%nat "/cdip/067" "/out" (Some 4)
                no_locals)) !! 1%nat = Some None
  ∧ result_files
      (final (process_cdip_station ex_env [2; 0; 1]%nat "/cdip/067" "/out" (Some 4)
                no_locals)) !! 2%nat = Some (Some "/out/067_d03.nc.waves.pkl").
Proof.
  split; [reflexivity|]. split; [exact ex_completion_order|].
  split; [reflexivity|]. split; [reflexivity|]. split; [reflexivity|].
  destruct (returned_call_parsed_or_computed ex_env [2; 0; 1]%nat "/cdip/067"
              "/out" (Some 4) no_locals 1 "067_d02.nc" eq_refl ex_completion_order
              eq_refl eq_refl) as [[Hparse Hslot]|(data & _ & Hparse & _)].
  2: { vm_compute in Hparse. discriminate Hparse. }
  split; [exact Hparse|]. split; [exact Hslot|].
  destruct (returned_call_parsed_or_computed ex_env [2; 0; 1]%nat "/cdip/067"
              "/out" (Some 4) no_locals 2 "067_d03.nc" eq_refl ex_completion_order
              eq_refl eq_refl) as [[Hparse' _]|(_ & _ & _ & _ & _ & Hslot')].
  { vm_compute in Hparse'. discriminate Hparse'. }
  exact Hslot'.
Defined.
